(** * Roomba controllers: behavior tree and finite state machine

    A shallow embedding of [behavior_tree.py] and [state_machine.py].

    Conventions of the embedding.
    - A Python method is a computation in the monad [M St A]: it threads the
      mutable objects it can reach ([St]) and ends by returning a value, by
      raising an exception, or by running out of fuel (only a [while] loop
      consumes fuel).
    - Python floats are idealised as exact rationals ([Q]); a Python [int]
      is a [Z].  A product such as [call_count * SAMPLE_TIME] is therefore
      exact here and rounded in the program: statements on elapsed time
      are made on the node's own [time] and the tests the code applies to
      it, which read the same either way; the lemmas that count ticks by a
      quotient of the constants ([ceil(3 / T)]) hold in exact arithmetic
      only and say so.
    - An attribute that [__init__] does not create is an [option] field:
      reading it while it is [None] raises [AttributeError].
    - The value a node's [execute] hands back is a [PyStatus]: [Some s] for
      a member of [ExecutionStatus], [None] for Python's [None] (a method
      body that falls off its end). *)

From Stdlib Require Import QArith Qround ZArith List Bool Lia String.
Import ListNotations.

(** ** Python outcomes and the method monad *)

Inductive Exception : Type :=
| IndexError
| ValueError
| AttributeError
| ZeroDivisionError.

Inductive outcome (A : Type) : Type :=
| Normal (a : A)
| Raised (e : Exception)
| OutOfFuel.

Arguments Normal {A} a.
Arguments Raised {A} e.
Arguments OutOfFuel {A}.

Definition M (St A : Type) : Type := St -> outcome A * St.

Definition ret {St A : Type} (a : A) : M St A :=
  fun s => (Normal a, s).

Definition bind {St A B : Type} (m : M St A) (k : A -> M St B) : M St B :=
  fun s =>
    match m s with
    | (Normal a, s') => k a s'
    | (Raised e, s') => (Raised e, s')
    | (OutOfFuel, s') => (OutOfFuel, s')
    end.

Definition raise {St A : Type} (e : Exception) : M St A :=
  fun s => (Raised e, s).

Definition out_of_fuel {St A : Type} : M St A :=
  fun s => (OutOfFuel, s).

Declare Scope py_scope.
Delimit Scope py_scope with py.
Notation "x <- c1 ;; c2" := (bind c1 (fun x => c2))
  (at level 61, c1 at next level, right associativity) : py_scope.
Notation "c1 ;; c2" := (bind c1 (fun _ => c2))
  (at level 61, right associativity) : py_scope.
Open Scope py_scope.

(** A method runs on the pair of its receiver ([self]) and of everything
    else it can reach. *)
Definition get_self {T E : Type} : M (T * E) T :=
  fun s => (Normal (fst s), s).

Definition set_self {T E : Type} (x : T) : M (T * E) unit :=
  fun s => (Normal tt, (x, snd s)).

Definition outer {T E A : Type} (m : M E A) : M (T * E) A :=
  fun s => let (r, e') := m (snd s) in (r, (fst s, e')).

(** Reading an attribute that may not exist yet. *)
Definition getattr {St A : Type} (o : option A) : M St A :=
  match o with
  | Some a => ret a
  | None => raise AttributeError
  end.

(** Float comparison [x < y]; [x > y] is [Qltb y x]. *)
Definition Qltb (x y : Q) : bool :=
  (Qnum x * QDen y <? Qnum y * QDen x)%Z.

(** Float division [x / y], which raises on a zero divisor. *)
Definition truediv {St : Type} (x y : Q) : M St Q :=
  if Qeq_bool y 0 then raise ZeroDivisionError else ret (x / y)%Q.

(** ** ExecutionStatus *)

Inductive ExecutionStatus : Type :=
| SUCCESS
| FAILURE
| RUNNING.

Definition PyStatus : Type := option ExecutionStatus.

(** ** External collaborators *)

(** Modelled from the spec: the constants module ([constants.py] is not
    part of the sources); the nine named numeric options of the
    configuration surface. *)
Record Constants : Type := {
  SAMPLE_TIME : Q;
  FORWARD_SPEED : Q;
  BACKWARD_SPEED : Q;
  ANGULAR_SPEED : Q;
  MOVE_FORWARD_TIME : Q;
  MOVE_IN_SPIRAL_TIME : Q;
  GO_BACK_TIME : Q;
  INITIAL_RADIUS_SPIRAL : Q;
  SPIRAL_FACTOR : Q
}.

(** Modelled from the spec: the Agent collaborator ([roomba.py] is not
    part of the sources).  [get_bumper_state] reads the contact sensor,
    which only the external driver changes, between ticks; [set_velocity]
    commands the actuator.  The commands are kept in a log, most recent
    first, so that "the last call in a tick wins" is its head. *)
Record Agent : Type := {
  bumper_state : bool;
  velocity_log : list (Q * Q)
}.

Definition get_bumper_state (agent : Agent) : bool := bumper_state agent.

Definition set_velocity (linear angular : Q) (agent : Agent) : Agent :=
  {| bumper_state := bumper_state agent;
     velocity_log := (linear, angular) :: velocity_log agent |}.

(** Modelled from Python's [random] module: the process-wide generator is
    a supply of draws of [random()], each meant to lie in [0, 1), and a
    cursor into it; [uniform(a, b)] is [a + (b - a) * random()]. *)
Record Random : Type := {
  draws : nat -> Q;
  cursor : nat
}.

Definition random (g : Random) : Q * Random :=
  (draws g (cursor g), {| draws := draws g; cursor := S (cursor g) |}).

Definition uniform (a b : Q) (g : Random) : Q * Random :=
  let (u, g') := random g in ((a + (b - a) * u)%Q, g').

(** What a leaf or a state reaches besides itself. *)
Record Env : Type := {
  agent : Agent;
  rng : Random
}.

Definition env_get_bumper_state : M Env bool :=
  fun env => (Normal (get_bumper_state (agent env)), env).

Definition env_set_velocity (linear angular : Q) : M Env unit :=
  fun env =>
    (Normal tt, {| agent := set_velocity linear angular (agent env); rng := rng env |}).

Definition env_uniform (a b : Q) : M Env Q :=
  fun env =>
    let (x, g') := uniform a b (rng env) in
    (Normal x, {| agent := agent env; rng := g' |}).

(** The same, as seen from a method of a leaf or of a state. *)
Definition agent_get_bumper_state {T : Type} : M (T * Env) bool :=
  outer env_get_bumper_state.

Definition agent_set_velocity {T : Type} (linear angular : Q) : M (T * Env) unit :=
  outer (env_set_velocity linear angular).

Definition random_uniform {T : Type} (a b : Q) : M (T * Env) Q :=
  outer (env_uniform a b).

(** The external driver between two ticks: it refreshes the sensor. *)
Definition sense (b : bool) (env : Env) : Env :=
  {| agent := {| bumper_state := b; velocity_log := velocity_log (agent env) |};
     rng := rng env |}.

(** ** Behavior tree: leaf nodes

    The fields [node_name] and [parent] of a leaf are diagnostic: no method
    reads them, and the records below leave them out. *)

Module MoveForwardNode.
Record t : Type := mk {
  linear_speed : Q;
  call_count : option Z;
  time : option Q
}.

Section Methods.
Variable cfg : Constants.

Definition init : t := mk (FORWARD_SPEED cfg) None None.

Definition enter : M (t * Env) unit :=
  self <- get_self ;;
  set_self (mk (linear_speed self) (Some 0%Z) (time self)).

Definition execute : M (t * Env) PyStatus :=
  get_bumper_state <- agent_get_bumper_state ;;
  self <- get_self ;;
  count <- getattr (call_count self) ;;
  let count := (count + 1)%Z in
  let time := (inject_Z count * SAMPLE_TIME cfg)%Q in
  set_self (mk (linear_speed self) (Some count) (Some time)) ;;
  if Qltb time 3 then
    if Bool.eqb get_bumper_state false then
      agent_set_velocity (linear_speed self) 0 ;;
      ret (Some RUNNING)
    else
      ret (Some FAILURE)
  else
    ret (Some SUCCESS).
End Methods.
End MoveForwardNode.

Module MoveInSpiralNode.
Record t : Type := mk {
  angular_speed : Q;
  linear_speed : Q;
  call_count : option Z;
  time : option Q;
  radio : option Q
}.

Section Methods.
Variable cfg : Constants.

Definition init : t :=
  mk (ANGULAR_SPEED cfg) (FORWARD_SPEED cfg) None None None.

Definition enter : M (t * Env) unit :=
  self <- get_self ;;
  set_self (mk (angular_speed self) (linear_speed self) (Some 0%Z)
               (time self) (radio self)).

Definition execute : M (t * Env) PyStatus :=
  self <- get_self ;;
  count <- getattr (call_count self) ;;
  let count := (count + 1)%Z in
  let time := (inject_Z count * SAMPLE_TIME cfg)%Q in
  let radio := (INITIAL_RADIUS_SPIRAL cfg + SPIRAL_FACTOR cfg * time)%Q in
  set_self (mk (angular_speed self) (linear_speed self) (Some count)
               (Some time) (Some radio)) ;;
  angular_speed <- truediv (ANGULAR_SPEED cfg) radio ;;
  get_bumper_state <- agent_get_bumper_state ;;
  if Qltb time 20 then
    if Bool.eqb get_bumper_state false then
      agent_set_velocity (linear_speed self) angular_speed ;;
      ret (Some RUNNING)
    else
      ret (Some FAILURE)
  else
    ret (Some SUCCESS).
End Methods.
End MoveInSpiralNode.

Module GoBackNode.
Record t : Type := mk {
  linear_speed : Q;
  call_count : Z;
  time : option Q
}.

Section Methods.
Variable cfg : Constants.

Definition init : t := mk (FORWARD_SPEED cfg) 0%Z None.

Definition enter : M (t * Env) unit := ret tt.

Definition execute : M (t * Env) PyStatus :=
  self <- get_self ;;
  let count := (call_count self + 1)%Z in
  let time := (inject_Z count * SAMPLE_TIME cfg)%Q in
  set_self (mk (linear_speed self) count (Some time)) ;;
  get_bumper_state <- agent_get_bumper_state ;;
  if Qltb (GO_BACK_TIME cfg) time && Bool.eqb get_bumper_state false then
    ret (Some SUCCESS)
  else
    agent_set_velocity (BACKWARD_SPEED cfg) 0 ;;
    ret (Some RUNNING).
End Methods.
End GoBackNode.

Module RotateNode.
Record t : Type := mk {
  call_count : option Z;
  random_angular_direction : option Q;
  roomba_turning_time : option Q;
  time : option Q
}.

Section Methods.
Variable cfg : Constants.

Definition init : t := mk None None None None.

Definition enter : M (t * Env) unit :=
  self <- get_self ;;
  direction <- random_uniform (-1) 1 ;;
  turning_time <- random_uniform 1 (MOVE_FORWARD_TIME cfg) ;;
  set_self (mk (Some 0%Z) (Some direction) (Some turning_time) (time self)).

Definition execute : M (t * Env) PyStatus :=
  self <- get_self ;;
  count <- getattr (call_count self) ;;
  let count := (count + 1)%Z in
  let time := (inject_Z count * SAMPLE_TIME cfg)%Q in
  set_self (mk (Some count) (random_angular_direction self)
               (roomba_turning_time self) (Some time)) ;;
  get_bumper_state <- agent_get_bumper_state ;;
  turning_time <- getattr (roomba_turning_time self) ;;
  if Qltb time turning_time then
    direction <- getattr (random_angular_direction self) ;;
    if Qltb 0 direction then
      agent_set_velocity 0 (ANGULAR_SPEED cfg) ;;
      ret (Some RUNNING)
    else
      agent_set_velocity 0 (- ANGULAR_SPEED cfg) ;;
      ret (Some RUNNING)
  else if Bool.eqb get_bumper_state false then
    ret (Some FAILURE)
  else
    ret None.
End Methods.
End RotateNode.

(** ** Behavior tree: composite nodes

    The engine is written once for any kind of child.  [child] is the type
    of node objects (compared by identity, as [list.index] does for objects
    without [__eq__]); [World] holds every object the children can reach,
    themselves included; [child_enter] and [child_execute] are the
    children's own methods.  A child never reaches its parent's fields: the
    [parent] back-reference is written by [add_child] and read nowhere. *)

Section Composite.
Variable World : Type.
Variable child : Type.
Variable child_eq_dec : forall x y : child, {x = y} + {x <> y}.
Variable child_enter : child -> M World unit.
Variable child_execute : child -> M World PyStatus.

(** Ghost record of the calls a composite makes, oldest first. *)
Inductive Call : Type :=
| Enter (c : child)
| Execute (c : child).

Record Tick : Type := {
  world : World;
  calls : list Call
}.

(** The tick once the calls [cs] have left the world as [w]. *)
Definition after (w : World) (cs : list Call) (tk : Tick) : Tick :=
  {| world := w; calls := calls tk ++ cs |}.

Definition call_enter {T : Type} (c : child) : M (T * Tick) unit :=
  outer (fun tk =>
    let (r, w') := child_enter c (world tk) in
    (r, after w' [Enter c] tk)).

Definition call_execute {T : Type} (c : child) : M (T * Tick) PyStatus :=
  outer (fun tk =>
    let (r, w') := child_execute c (world tk) in
    (r, after w' [Execute c] tk)).

(** [SequenceNode] and [SelectorNode] both extend [CompositeNode] with
    the same field [running_child]; one record serves both. *)
Record CompositeNode : Type := {
  node_name : string;
  children : list child;
  running_child : option child
}.

Definition CompositeNode_init (name : string) : CompositeNode :=
  {| node_name := name; children := []; running_child := None |}.

Definition add_child (c : child) (self : CompositeNode) : CompositeNode :=
  {| node_name := node_name self;
     children := children self ++ [c];
     running_child := running_child self |}.

(** [self] once [self.running_child = rc] has run. *)
Definition with_running_child (rc : option child) (self : CompositeNode)
    : CompositeNode :=
  {| node_name := node_name self;
     children := children self;
     running_child := rc |}.

Definition set_running_child (rc : option child) : M (CompositeNode * Tick) unit :=
  self <- get_self ;;
  set_self (with_running_child rc self).

(** [xs.index(x)]: position of the first occurrence. *)
Fixpoint index_of (x : child) (xs : list child) : option nat :=
  match xs with
  | [] => None
  | y :: ys =>
      if child_eq_dec y x then Some O
      else option_map S (index_of x ys)
  end.

Definition list_index {St : Type} (xs : list child) (x : child) : M St nat :=
  match index_of x xs with
  | Some i => ret i
  | None => raise ValueError
  end.

(** [xs[i]] for a non-negative [i]. *)
Definition list_item {St : Type} (xs : list child) (i : nat) : M St child :=
  match nth_error xs i with
  | Some x => ret x
  | None => raise IndexError
  end.

(** [self.running_child.execute(agent)]: the receiver may be [None]. *)
Definition execute_running_child : M (CompositeNode * Tick) (child * PyStatus) :=
  self <- get_self ;;
  rc <- getattr (running_child self) ;;
  status <- call_execute rc ;;
  ret (rc, status).

(** The first statement of both [execute] methods. *)
Definition start_first_child : M (CompositeNode * Tick) unit :=
  self <- get_self ;;
  match running_child self with
  | None =>
      first <- list_item (children self) 0 ;;
      set_running_child (Some first) ;;
      call_enter first
  | Some _ => ret tt
  end.

Definition SequenceNode_enter : M (CompositeNode * Tick) unit :=
  set_running_child None.

(** The [while loop:] of [SequenceNode.execute]; one iteration costs one
    unit of fuel. *)
Fixpoint SequenceNode_loop (fuel : nat) : M (CompositeNode * Tick) PyStatus :=
  match fuel with
  | O => out_of_fuel
  | S fuel' =>
      r <- execute_running_child ;;
      let (rc, status) := r in
      match status with
      | Some FAILURE =>
          set_running_child None ;;
          ret (Some FAILURE)
      | Some RUNNING =>
          ret (Some RUNNING)
      | Some SUCCESS =>
          self <- get_self ;;
          index <- list_index (children self) rc ;;
          if (index + 1 <? List.length (children self))%nat then
            next <- list_item (children self) (index + 1) ;;
            set_running_child (Some next) ;;
            call_enter next ;;
            SequenceNode_loop fuel'
          else
            set_running_child None ;;
            ret (Some SUCCESS)
      | None =>
          SequenceNode_loop fuel'
      end
  end.

Definition SequenceNode_execute (fuel : nat) : M (CompositeNode * Tick) PyStatus :=
  start_first_child ;;
  SequenceNode_loop fuel.

Definition SelectorNode_enter : M (CompositeNode * Tick) unit :=
  set_running_child None.

(** The [while loop:] of [SelectorNode.execute]. *)
Fixpoint SelectorNode_loop (fuel : nat) : M (CompositeNode * Tick) PyStatus :=
  match fuel with
  | O => out_of_fuel
  | S fuel' =>
      r <- execute_running_child ;;
      let (rc, status) := r in
      match status with
      | Some FAILURE =>
          self <- get_self ;;
          index <- list_index (children self) rc ;;
          if (index + 1 <? List.length (children self))%nat then
            next <- list_item (children self) (index + 1) ;;
            set_running_child (Some next) ;;
            call_enter next ;;
            SelectorNode_loop fuel'
          else
            set_running_child None ;;
            ret (Some FAILURE)
      | Some RUNNING =>
          ret (Some RUNNING)
      | Some SUCCESS =>
          set_running_child None ;;
          ret (Some SUCCESS)
      | None =>
          SelectorNode_loop fuel'
      end
  end.

Definition SelectorNode_execute (fuel : nat) : M (CompositeNode * Tick) PyStatus :=
  start_first_child ;;
  SelectorNode_loop fuel.

(** [BehaviorTree]: the root is any node; the status it returns is
    dropped. *)
Record BehaviorTree : Type := {
  root : option child
}.

Definition BehaviorTree_update : M (BehaviorTree * Tick) unit :=
  self <- get_self ;;
  match root self with
  | Some r => call_execute r ;; ret tt
  | None => ret tt
  end.
End Composite.

Arguments Enter {child} c.
Arguments Execute {child} c.
Arguments world {World child} t.
Arguments calls {World child} t.
Arguments node_name {child} c.
Arguments children {child} c.
Arguments running_child {child} c.
Arguments root {child} b.
Arguments after {World child} w cs tk.
Arguments with_running_child {child} rc self.

(** ** Finite state machine *)

Record MoveForwardState : Type := {
  mf_linear_speed : Q;
  mf_call_count : Z;
  mf_time : Q
}.

Record MoveInSpiralState : Type := {
  sp_linear_speed : Q;
  sp_angular_speed : Q;
  sp_call_count : Z;
  sp_radio : Q;
  sp_time : Q
}.

Record GoBackState : Type := {
  gb_linear_speed : Q;
  gb_time : Q;
  gb_call_count : Z
}.

Record RotateState : Type := {
  rt_time : Q;
  rt_call_count : Z;
  rt_random_angular_direction : Q;
  rt_roomba_turning_time : option Q
}.

Inductive State : Type :=
| MoveForward (s : MoveForwardState)
| MoveInSpiral (s : MoveInSpiralState)
| GoBack (s : GoBackState)
| Rotate (s : RotateState).

Record FiniteStateMachine : Type := {
  state : State
}.

(** While a method of the current state runs, [fsm.state] either still is
    the receiver of that method or is a state installed by
    [change_state]. *)
Inductive StateRef : Type :=
| Receiver
| Installed (s : State).

Definition change_state {T : Type} (new_state : State) : M (T * (StateRef * Env)) unit :=
  outer (fun fsm => (Normal tt, (Installed new_state, snd fsm))).

Definition when {St : Type} (b : bool) (m : M St unit) : M St unit :=
  if b then m else ret tt.

Section States.
Variable cfg : Constants.

Definition MoveForwardState_init : MoveForwardState :=
  {| mf_linear_speed := FORWARD_SPEED cfg; mf_call_count := 0; mf_time := 0 |}.

Definition MoveInSpiralState_init : MoveInSpiralState :=
  {| sp_linear_speed := FORWARD_SPEED cfg;
     sp_angular_speed := ANGULAR_SPEED cfg;
     sp_call_count := 0;
     sp_radio := 0;
     sp_time := 0 |}.

Definition GoBackState_init : GoBackState :=
  {| gb_linear_speed := BACKWARD_SPEED cfg; gb_time := 0; gb_call_count := 0 |}.

Definition RotateState_init : M Env RotateState :=
  direction <- env_uniform (-1) 1 ;;
  ret {| rt_time := 0;
         rt_call_count := 0;
         rt_random_angular_direction := direction;
         rt_roomba_turning_time := None |}.

Definition MoveForwardState_check_transition
  : M (MoveForwardState * (StateRef * Env)) unit :=
  self <- get_self ;;
  let count := (mf_call_count self + 1)%Z in
  let time := (inject_Z count * SAMPLE_TIME cfg)%Q in
  set_self {| mf_linear_speed := mf_linear_speed self;
              mf_call_count := count;
              mf_time := time |} ;;
  get_bumper_state <- outer (outer env_get_bumper_state) ;;
  when (Bool.eqb get_bumper_state true)
    (change_state (GoBack GoBackState_init)) ;;
  when (Qltb (MOVE_FORWARD_TIME cfg) time && Bool.eqb get_bumper_state false)
    (change_state (MoveInSpiral MoveInSpiralState_init)).

Definition MoveForwardState_execute : M (MoveForwardState * Env) unit :=
  self <- get_self ;;
  agent_set_velocity (mf_linear_speed self) 0.

Definition MoveInSpiralState_check_transition
  : M (MoveInSpiralState * (StateRef * Env)) unit :=
  get_bumper_state <- outer (outer env_get_bumper_state) ;;
  self <- get_self ;;
  let count := (sp_call_count self + 1)%Z in
  let time := (inject_Z count * SAMPLE_TIME cfg)%Q in
  set_self {| sp_linear_speed := sp_linear_speed self;
              sp_angular_speed := sp_angular_speed self;
              sp_call_count := count;
              sp_radio := sp_radio self;
              sp_time := time |} ;;
  when (Bool.eqb get_bumper_state true)
    (change_state (GoBack GoBackState_init)) ;;
  when (Qltb (MOVE_IN_SPIRAL_TIME cfg) time && Bool.eqb get_bumper_state false)
    (change_state (MoveForward MoveForwardState_init)).

Definition MoveInSpiralState_execute : M (MoveInSpiralState * Env) unit :=
  self <- get_self ;;
  let radio := (INITIAL_RADIUS_SPIRAL cfg + SPIRAL_FACTOR cfg * sp_time self)%Q in
  set_self {| sp_linear_speed := sp_linear_speed self;
              sp_angular_speed := sp_angular_speed self;
              sp_call_count := sp_call_count self;
              sp_radio := radio;
              sp_time := sp_time self |} ;;
  angular_speed <- truediv (ANGULAR_SPEED cfg) radio ;;
  agent_set_velocity (sp_linear_speed self) angular_speed.

Definition GoBackState_check_transition
  : M (GoBackState * (StateRef * Env)) unit :=
  self <- get_self ;;
  let count := (gb_call_count self + 1)%Z in
  let time := (inject_Z count * SAMPLE_TIME cfg)%Q in
  set_self {| gb_linear_speed := gb_linear_speed self;
              gb_time := time;
              gb_call_count := count |} ;;
  when (Qltb (GO_BACK_TIME cfg) time)
    (new_state <- outer (outer RotateState_init) ;;
     change_state (Rotate new_state)).

Definition GoBackState_execute : M (GoBackState * Env) unit :=
  self <- get_self ;;
  agent_set_velocity (gb_linear_speed self) 0.

Definition RotateState_check_transition
  : M (RotateState * (StateRef * Env)) unit :=
  get_bumper_state <- outer (outer env_get_bumper_state) ;;
  self <- get_self ;;
  let count := (rt_call_count self + 1)%Z in
  let time := (inject_Z count * SAMPLE_TIME cfg)%Q in
  turning_time <- outer (outer (env_uniform 1 (MOVE_FORWARD_TIME cfg))) ;;
  set_self {| rt_time := time;
              rt_call_count := count;
              rt_random_angular_direction := rt_random_angular_direction self;
              rt_roomba_turning_time := Some turning_time |} ;;
  when (Bool.eqb get_bumper_state false && Qltb turning_time time)
    (change_state (MoveForward MoveForwardState_init)).

Definition RotateState_execute : M (RotateState * Env) unit :=
  self <- get_self ;;
  if Qltb 0 (rt_random_angular_direction self) then
    agent_set_velocity 0 (ANGULAR_SPEED cfg)
  else
    agent_set_velocity 0 (- ANGULAR_SPEED cfg).

(** Calling [check_transition] on the object [fsm.state] refers to. *)
Definition on_current {T : Type} (wrap : T -> State) (self : T)
    (method : M (T * (StateRef * Env)) unit) : M (FiniteStateMachine * Env) unit :=
  fun s =>
    let '(r, (self', (ref, env'))) := method (self, (Receiver, snd s)) in
    (r, ({| state := match ref with
                     | Receiver => wrap self'
                     | Installed new_state => new_state
                     end |}, env')).

(** Calling [execute] on the object [fsm.state] refers to. *)
Definition on_state {T : Type} (wrap : T -> State) (self : T)
    (method : M (T * Env) unit) : M (FiniteStateMachine * Env) unit :=
  fun s =>
    let '(r, (self', env')) := method (self, snd s) in
    (r, ({| state := wrap self' |}, env')).

Definition State_check_transition : M (FiniteStateMachine * Env) unit :=
  fsm <- get_self ;;
  match state fsm with
  | MoveForward s => on_current MoveForward s MoveForwardState_check_transition
  | MoveInSpiral s => on_current MoveInSpiral s MoveInSpiralState_check_transition
  | GoBack s => on_current GoBack s GoBackState_check_transition
  | Rotate s => on_current Rotate s RotateState_check_transition
  end.

Definition State_execute : M (FiniteStateMachine * Env) unit :=
  fsm <- get_self ;;
  match state fsm with
  | MoveForward s => on_state MoveForward s MoveForwardState_execute
  | MoveInSpiral s => on_state MoveInSpiral s MoveInSpiralState_execute
  | GoBack s => on_state GoBack s GoBackState_execute
  | Rotate s => on_state Rotate s RotateState_execute
  end.

Definition FiniteStateMachine_update : M (FiniteStateMachine * Env) unit :=
  State_check_transition ;;
  State_execute.
End States.

(** ** The Roomba behavior tree

    [RoombaBehaviorTree.__init__] builds a selector over two sequences of
    leaves.  The engine above is instantiated once per level: the leaves
    are the children of the sequences, the sequences are the children of
    the root selector, the root is the child of the tree. *)

Inductive Leaf : Type :=
| move_forward_node
| move_in_spiral_node
| go_back_node
| rotate_node.

Definition Leaf_eq_dec (x y : Leaf) : {x = y} + {x <> y}.
Proof. decide equality. Defined.

Record Leaves : Type := {
  move_forward : MoveForwardNode.t;
  move_in_spiral : MoveInSpiralNode.t;
  go_back : GoBackNode.t;
  rotate : RotateNode.t;
  env : Env
}.

(** Running a leaf's method on the leaf stored in the heap of leaves. *)
Definition on_leaf {T A : Type} (get : Leaves -> T) (set : T -> Env -> Leaves -> Leaves)
    (method : M (T * Env) A) : M Leaves A :=
  fun w =>
    let '(r, (self', env')) := method (get w, env w) in
    (r, set self' env' w).

Definition set_move_forward (x : MoveForwardNode.t) (e : Env) (w : Leaves) : Leaves :=
  {| move_forward := x; move_in_spiral := move_in_spiral w;
     go_back := go_back w; rotate := rotate w; env := e |}.

Definition set_move_in_spiral (x : MoveInSpiralNode.t) (e : Env) (w : Leaves) : Leaves :=
  {| move_forward := move_forward w; move_in_spiral := x;
     go_back := go_back w; rotate := rotate w; env := e |}.

Definition set_go_back (x : GoBackNode.t) (e : Env) (w : Leaves) : Leaves :=
  {| move_forward := move_forward w; move_in_spiral := move_in_spiral w;
     go_back := x; rotate := rotate w; env := e |}.

Definition set_rotate (x : RotateNode.t) (e : Env) (w : Leaves) : Leaves :=
  {| move_forward := move_forward w; move_in_spiral := move_in_spiral w;
     go_back := go_back w; rotate := x; env := e |}.

Inductive Branch : Type :=
| sequence_one
| sequence_two.

Definition Branch_eq_dec (x y : Branch) : {x = y} + {x <> y}.
Proof. decide equality. Defined.

Section Roomba.
Variable cfg : Constants.
(** Fuel granted to each [while] loop of the tree. *)
Variable fuel : nat.

Definition Leaf_enter (l : Leaf) : M Leaves unit :=
  match l with
  | move_forward_node => on_leaf move_forward set_move_forward MoveForwardNode.enter
  | move_in_spiral_node => on_leaf move_in_spiral set_move_in_spiral MoveInSpiralNode.enter
  | go_back_node => on_leaf go_back set_go_back GoBackNode.enter
  | rotate_node => on_leaf rotate set_rotate (RotateNode.enter cfg)
  end.

Definition Leaf_execute (l : Leaf) : M Leaves PyStatus :=
  match l with
  | move_forward_node => on_leaf move_forward set_move_forward (MoveForwardNode.execute cfg)
  | move_in_spiral_node =>
      on_leaf move_in_spiral set_move_in_spiral (MoveInSpiralNode.execute cfg)
  | go_back_node => on_leaf go_back set_go_back (GoBackNode.execute cfg)
  | rotate_node => on_leaf rotate set_rotate (RotateNode.execute cfg)
  end.

(** The objects below the root: both sequences and what they reach. *)
Record Branches : Type := {
  SequenceOne : CompositeNode Leaf;
  SequenceTwo : CompositeNode Leaf;
  below : Tick Leaves Leaf
}.

Definition on_branch {A : Type} (b : Branch)
    (method : M (CompositeNode Leaf * Tick Leaves Leaf) A) : M Branches A :=
  fun w =>
    match b with
    | sequence_one =>
        let '(r, (self', tk')) := method (SequenceOne w, below w) in
        (r, {| SequenceOne := self'; SequenceTwo := SequenceTwo w; below := tk' |})
    | sequence_two =>
        let '(r, (self', tk')) := method (SequenceTwo w, below w) in
        (r, {| SequenceOne := SequenceOne w; SequenceTwo := self'; below := tk' |})
    end.

Definition Branch_enter (b : Branch) : M Branches unit :=
  on_branch b (SequenceNode_enter Leaves Leaf).

Definition Branch_execute (b : Branch) : M Branches PyStatus :=
  on_branch b (SequenceNode_execute Leaves Leaf Leaf_eq_dec Leaf_enter Leaf_execute fuel).

(** The root object and what it reaches. *)
Record Roots : Type := {
  Root : CompositeNode Branch;
  under : Tick Branches Branch
}.

Definition Root_execute (_ : unit) : M Roots PyStatus :=
  fun w =>
    let '(r, (self', tk')) :=
      SelectorNode_execute Branches Branch Branch_eq_dec Branch_enter Branch_execute
        fuel (Root w, under w) in
    (r, {| Root := self'; under := tk' |}).

(** [RoombaBehaviorTree()], in the environment [e] of the process. *)
Definition RoombaBehaviorTree_init (e : Env) : BehaviorTree unit * Tick Roots unit :=
  let root_node := CompositeNode_init Branch "Root" in
  let sequence_one_node := CompositeNode_init Leaf "SequenceOne" in
  let sequence_two_node := CompositeNode_init Leaf "SequenceTwo" in
  let sequence_one_node := add_child Leaf move_forward_node sequence_one_node in
  let sequence_one_node := add_child Leaf move_in_spiral_node sequence_one_node in
  let sequence_two_node := add_child Leaf go_back_node sequence_two_node in
  let sequence_two_node := add_child Leaf rotate_node sequence_two_node in
  let root_node := add_child Branch sequence_one root_node in
  let root_node := add_child Branch sequence_two root_node in
  let leaves :=
    {| move_forward := MoveForwardNode.init cfg;
       move_in_spiral := MoveInSpiralNode.init cfg;
       go_back := GoBackNode.init cfg;
       rotate := RotateNode.init;
       env := e |} in
  let branches :=
    {| SequenceOne := sequence_one_node;
       SequenceTwo := sequence_two_node;
       below := {| world := leaves; calls := [] |} |} in
  ({| root := Some tt |},
   {| world := {| Root := root_node;
                  under := {| world := branches; calls := [] |} |};
      calls := [] |}).

Definition RoombaBehaviorTree_update : M (BehaviorTree unit * Tick Roots unit) unit :=
  BehaviorTree_update Roots unit Root_execute.
End Roomba.

(** The external driver: one [execute] per tick, the sensor refreshed
    before each; the statuses are collected, first tick first. *)
Fixpoint run_ticks {T : Type} (execute : M (T * Env) PyStatus) (bumper : list bool)
    (st : T * Env) : list (outcome PyStatus) * (T * Env) :=
  match bumper with
  | [] => ([], st)
  | b :: bumper' =>
      let (r, st') := execute (fst st, sense b (snd st)) in
      let (rs, st'') := run_ticks execute bumper' st' in
      (r :: rs, st'')
  end.

(** A leaf world in which the Rotate leaf has turned for its sampled
    duration while the robot still touches the obstacle. *)
Definition Rotate_stuck (cfg : Constants) (w : Leaves) : Prop :=
  bumper_state (agent (env w)) = true
  /\ exists count turning_time,
      RotateNode.call_count (rotate w) = Some count
      /\ RotateNode.roomba_turning_time (rotate w) = Some turning_time
      /\ (turning_time <= inject_Z (count + 1) * SAMPLE_TIME cfg)%Q.

(** ** Sample data

    A configuration with a sample period of one time unit, and objects in
    chosen states, on which the statements below are exercised. *)

Definition sample_constants : Constants :=
  {| SAMPLE_TIME := 1;
     FORWARD_SPEED := 1 # 2;
     BACKWARD_SPEED := - (1 # 2);
     ANGULAR_SPEED := 1;
     MOVE_FORWARD_TIME := 5;
     MOVE_IN_SPIRAL_TIME := 20;
     GO_BACK_TIME := 2;
     INITIAL_RADIUS_SPIRAL := 1 # 5;
     SPIRAL_FACTOR := 1 # 20 |}.

(** Draw number [n] of the sample generator is [1 / (n + 2)]. *)
Definition sample_env (bumper : bool) : Env :=
  {| agent := {| bumper_state := bumper; velocity_log := [] |};
     rng := {| draws := fun n => 1 # Pos.of_succ_nat (S n); cursor := 0 |} |}.

(** Leaves whose counters stand at the given values. *)
Definition sample_leaves (forward_count spiral_count : Z) (go_back_count : Z)
    (rotate_count : Z) (rotate_time : Q) (bumper : bool) : Leaves :=
  {| move_forward := MoveForwardNode.mk (1 # 2) (Some forward_count) None;
     move_in_spiral := MoveInSpiralNode.mk 1 (1 # 2) (Some spiral_count) None None;
     go_back := GoBackNode.mk (1 # 2) go_back_count None;
     rotate := RotateNode.mk (Some rotate_count) (Some (1 # 3)) (Some rotate_time) None;
     env := sample_env bumper |}.

(** A generator whose draws are binary fractions, as [random.random()]
    returns them: draw number [n] is [1 / 2^(n + 1)]. *)
Definition binary_env (bumper : bool) : Env :=
  {| agent := {| bumper_state := bumper; velocity_log := [] |};
     rng := {| draws := fun n => 1 # Pos.pow 2 (Pos.of_succ_nat n); cursor := 0 |} |}.

Definition sample_tick (w : Leaves) : Tick Leaves Leaf :=
  {| world := w; calls := [] |}.

(** A composite over the two forward leaves, and the second sequence of
    the Roomba tree. *)
Definition sample_forward (rc : option Leaf) : CompositeNode Leaf :=
  {| node_name := "SequenceOne";
     children := [move_forward_node; move_in_spiral_node];
     running_child := rc |}.

Definition sample_recover (rc : option Leaf) : CompositeNode Leaf :=
  {| node_name := "SequenceTwo";
     children := [go_back_node; rotate_node];
     running_child := rc |}.

Definition sample_sequence_execute (fuel : nat)
    : M (CompositeNode Leaf * Tick Leaves Leaf) PyStatus :=
  SequenceNode_execute Leaves Leaf Leaf_eq_dec (Leaf_enter sample_constants)
    (Leaf_execute sample_constants) fuel.

Definition sample_selector_execute (fuel : nat)
    : M (CompositeNode Leaf * Tick Leaves Leaf) PyStatus :=
  SelectorNode_execute Leaves Leaf Leaf_eq_dec (Leaf_enter sample_constants)
    (Leaf_execute sample_constants) fuel.

(** Worlds for the cases of a tick: the forward leaf just entered, with
    the bumper as given; the forward leaf at its last tick; the spiral leaf
    at its last tick; the spiral leaf just entered. *)
Definition world_entered (bumper : bool) : Leaves := sample_leaves 0 0 0 0 1 bumper.
Definition world_forward_done : Leaves := sample_leaves 2 0 0 0 1 false.

(** The world in which Rotate has used up its duration, bumper set. *)
Definition world_rotate_stuck : Leaves := sample_leaves 3 0 3 1 1 true.

(** The first update of a Roomba tree just built, the bumper clear. *)
Definition sample_first_update
    : outcome unit * (BehaviorTree unit * Tick Roots unit) :=
  RoombaBehaviorTree_update sample_constants 1
    (RoombaBehaviorTree_init sample_constants (sample_env false)).

(** [State.state_name], as each constructor passes it to
    [State.__init__]. *)
Definition state_name (s : State) : string :=
  match s with
  | MoveForward _ => "MoveForward"
  | MoveInSpiral _ => "MoveInSpiral"
  | GoBack _ => "GoBack"
  | Rotate _ => "Rotate"
  end.

(** The external driver of the state machine: one [update] per tick, the
    sensor refreshed before each; an exception ends the run. *)
Fixpoint run_updates (cfg : Constants) (bumper : list bool)
    (st : FiniteStateMachine * Env) : outcome unit * (FiniteStateMachine * Env) :=
  match bumper with
  | [] => (Normal tt, st)
  | b :: bumper' =>
      match FiniteStateMachine_update cfg (fst st, sense b (snd st)) with
      | (Normal _, st') => run_updates cfg bumper' st'
      | (Raised e, st') => (Raised e, st')
      | (OutOfFuel, st') => (OutOfFuel, st')
      end
  end.

(** ** More sample data *)

(** A sample period as long as the longest leaf threshold: a forward leaf
    is past its threshold on its first tick. *)
Definition coarse_constants : Constants :=
  {| SAMPLE_TIME := 20;
     FORWARD_SPEED := 1 # 2;
     BACKWARD_SPEED := - (1 # 2);
     ANGULAR_SPEED := 1;
     MOVE_FORWARD_TIME := 5;
     MOVE_IN_SPIRAL_TIME := 20;
     GO_BACK_TIME := 2;
     INITIAL_RADIUS_SPIRAL := 1 # 5;
     SPIRAL_FACTOR := 1 # 20 |}.

(** A configuration whose spiral radius is zero at all times. *)
Definition flat_constants : Constants :=
  {| SAMPLE_TIME := 1;
     FORWARD_SPEED := 1 # 2;
     BACKWARD_SPEED := - (1 # 2);
     ANGULAR_SPEED := 1;
     MOVE_FORWARD_TIME := 5;
     MOVE_IN_SPIRAL_TIME := 20;
     GO_BACK_TIME := 2;
     INITIAL_RADIUS_SPIRAL := 0;
     SPIRAL_FACTOR := 0 |}.

(** Leaf [l] has just been entered: its tick counter stands at zero (the
    GoBack leaf has no counter to reset). *)
Definition just_entered (l : Leaf) (w : Leaves) : Prop :=
  match l with
  | move_forward_node => MoveForwardNode.call_count (move_forward w) = Some 0%Z
  | move_in_spiral_node => MoveInSpiralNode.call_count (move_in_spiral w) = Some 0%Z
  | go_back_node => True
  | rotate_node => RotateNode.call_count (rotate w) = Some 0%Z
  end.

Definition bumper_is (b : bool) (w : Leaves) : Prop :=
  bumper_state (agent (env w)) = b.

(** A composite to which the forward leaf was added twice. *)
Definition sample_repeated (rc : option Leaf) : CompositeNode Leaf :=
  {| node_name := "Repeated";
     children := [move_forward_node; move_in_spiral_node; move_forward_node];
     running_child := rc |}.

(** The Roomba tree with the root on the second sequence, that sequence on
    Rotate, and Rotate past its duration with the bumper set. *)
Definition sample_stuck_tree : Tick Roots unit :=
  {| world :=
       {| Root := {| node_name := "Root";
                     children := [sequence_one; sequence_two];
                     running_child := Some sequence_two |};
          under := {| world := {| SequenceOne := sample_forward None;
                                  SequenceTwo := sample_recover (Some rotate_node);
                                  below := sample_tick world_rotate_stuck |};
                      calls := [] |} |};
     calls := [] |}.

(** * Properties *)

(** ** Float comparison *)

Lemma Qltb_lt (x y : Q) : Qltb x y = true <-> (x < y)%Q.
Proof. unfold Qltb, Qlt. apply Z.ltb_lt. Qed.

Lemma Qltb_ge (x y : Q) : Qltb x y = false <-> (y <= x)%Q.
Proof. unfold Qltb, Qle. apply Z.ltb_ge. Qed.

(** ** The composite engine *)

Section CompositeFacts.
Context {World child : Type}.
Variable child_eq_dec : forall x y : child, {x = y} + {x <> y}.
Variable child_enter : child -> M World unit.
Variable child_execute : child -> M World PyStatus.

Local Arguments Nat.ltb : simpl never.

Local Abbreviation Node := (CompositeNode child).
Local Abbreviation index_of := (index_of child child_eq_dec).
Local Abbreviation sequence_loop :=
  (SequenceNode_loop World child child_eq_dec child_enter child_execute).
Local Abbreviation sequence_execute :=
  (SequenceNode_execute World child child_eq_dec child_enter child_execute).
Local Abbreviation selector_loop :=
  (SelectorNode_loop World child child_eq_dec child_enter child_execute).
Local Abbreviation selector_execute :=
  (SelectorNode_execute World child child_eq_dec child_enter child_execute).

Lemma index_of_nth (xs : list child) (i : nat) (c : child) :
  NoDup xs -> nth_error xs i = Some c -> index_of c xs = Some i.
Proof.
  intros Hnd. revert i.
  induction Hnd as [|y ys Hnotin Hnd IH]; intros [|i] Hi; cbn in *;
    try discriminate.
  - injection Hi as ->. destruct (child_eq_dec c c); congruence.
  - destruct (child_eq_dec y c) as [->|_].
    + exfalso. apply Hnotin. eapply nth_error_In; eauto.
    + now rewrite (IH i Hi).
Qed.

Lemma with_running_child_same (self : Node) (c : child) :
  running_child self = Some c -> with_running_child (Some c) self = self.
Proof. destruct self; cbn; now intros ->. Qed.

Lemma after_after (w w' : World) (cs cs' : list (Call child)) (tk : Tick World child) :
  after w' cs' (after w cs tk) = after w' (cs ++ cs') tk.
Proof. unfold after; cbn. now rewrite app_assoc. Qed.

(** One iteration of the sequence loop, by the child's answer. *)
Lemma sequence_loop_failure fuel (self : Node) tk c w' :
  running_child self = Some c ->
  child_execute c (world tk) = (Normal (Some FAILURE), w') ->
  sequence_loop (S fuel) (self, tk)
  = (Normal (Some FAILURE), (with_running_child None self, after w' [Execute c] tk)).
Proof.
  intros Hrc Hex. cbn.
  unfold bind, execute_running_child, bind, get_self, getattr, call_execute,
    outer, ret; cbn.
  rewrite Hrc; cbn. rewrite Hex; cbn. reflexivity.
Qed.

Lemma sequence_loop_running fuel (self : Node) tk c w' :
  running_child self = Some c ->
  child_execute c (world tk) = (Normal (Some RUNNING), w') ->
  sequence_loop (S fuel) (self, tk)
  = (Normal (Some RUNNING), (self, after w' [Execute c] tk)).
Proof.
  intros Hrc Hex. cbn.
  unfold bind, execute_running_child, bind, get_self, getattr, call_execute,
    outer, ret; cbn.
  rewrite Hrc; cbn. rewrite Hex; cbn. now destruct self.
Qed.

Lemma sequence_loop_none fuel (self : Node) tk c w' :
  running_child self = Some c ->
  child_execute c (world tk) = (Normal None, w') ->
  sequence_loop (S fuel) (self, tk)
  = sequence_loop fuel (self, after w' [Execute c] tk).
Proof.
  intros Hrc Hex. cbn.
  unfold bind at 1. unfold execute_running_child, bind, get_self, getattr,
    call_execute, outer, ret; cbn.
  rewrite Hrc; cbn. rewrite Hex; cbn. now destruct self.
Qed.

Lemma sequence_loop_success_last fuel (self : Node) tk c i w' :
  running_child self = Some c ->
  index_of c (children self) = Some i ->
  (List.length (children self) <= i + 1)%nat ->
  child_execute c (world tk) = (Normal (Some SUCCESS), w') ->
  sequence_loop (S fuel) (self, tk)
  = (Normal (Some SUCCESS), (with_running_child None self, after w' [Execute c] tk)).
Proof.
  intros Hrc Hidx Hlast Hex. cbn.
  unfold bind, execute_running_child, bind, get_self, getattr, call_execute,
    outer, ret, list_index; cbn.
  rewrite Hrc; cbn. rewrite Hex; cbn. rewrite Hidx; cbn.
  destruct (Nat.ltb_spec (i + 1) (List.length (children self))); [lia|].
  reflexivity.
Qed.

Lemma sequence_loop_success_next fuel (self : Node) tk c i next w' w'' :
  running_child self = Some c ->
  index_of c (children self) = Some i ->
  nth_error (children self) (i + 1) = Some next ->
  child_execute c (world tk) = (Normal (Some SUCCESS), w') ->
  child_enter next w' = (Normal tt, w'') ->
  sequence_loop (S fuel) (self, tk)
  = sequence_loop fuel
      (with_running_child (Some next) self, after w'' [Execute c; Enter next] tk).
Proof.
  intros Hrc Hidx Hnext Hex Hen. cbn.
  unfold bind, execute_running_child, bind, get_self, getattr, call_execute,
    call_enter, set_running_child, set_self, bind, get_self, outer, ret,
    list_index, list_item; cbn.
  rewrite Hrc; cbn. rewrite Hex; cbn. rewrite Hidx; cbn.
  assert (Hlt : (i + 1 < List.length (children self))%nat)
    by (apply nth_error_Some; congruence).
  destruct (Nat.ltb_spec (i + 1) (List.length (children self))); [|lia].
  rewrite Hnext; cbn. rewrite Hen; cbn.
  unfold after; cbn. rewrite <- app_assoc. reflexivity.
Qed.
(** One iteration of the selector loop, by the child's answer. *)
Lemma selector_loop_success fuel (self : Node) tk c w' :
  running_child self = Some c ->
  child_execute c (world tk) = (Normal (Some SUCCESS), w') ->
  selector_loop (S fuel) (self, tk)
  = (Normal (Some SUCCESS), (with_running_child None self, after w' [Execute c] tk)).
Proof.
  intros Hrc Hex. cbn.
  unfold bind, execute_running_child, bind, get_self, getattr, call_execute,
    outer, ret; cbn.
  rewrite Hrc; cbn. rewrite Hex; cbn. reflexivity.
Qed.

Lemma selector_loop_running fuel (self : Node) tk c w' :
  running_child self = Some c ->
  child_execute c (world tk) = (Normal (Some RUNNING), w') ->
  selector_loop (S fuel) (self, tk)
  = (Normal (Some RUNNING), (self, after w' [Execute c] tk)).
Proof.
  intros Hrc Hex. cbn.
  unfold bind, execute_running_child, bind, get_self, getattr, call_execute,
    outer, ret; cbn.
  rewrite Hrc; cbn. rewrite Hex; cbn. now destruct self.
Qed.

Lemma selector_loop_failure_last fuel (self : Node) tk c i w' :
  running_child self = Some c ->
  index_of c (children self) = Some i ->
  (List.length (children self) <= i + 1)%nat ->
  child_execute c (world tk) = (Normal (Some FAILURE), w') ->
  selector_loop (S fuel) (self, tk)
  = (Normal (Some FAILURE), (with_running_child None self, after w' [Execute c] tk)).
Proof.
  intros Hrc Hidx Hlast Hex. cbn.
  unfold bind, execute_running_child, bind, get_self, getattr, call_execute,
    outer, ret, list_index; cbn.
  rewrite Hrc; cbn. rewrite Hex; cbn. rewrite Hidx; cbn.
  destruct (Nat.ltb_spec (i + 1) (List.length (children self))); [lia|].
  reflexivity.
Qed.

Lemma selector_loop_failure_next fuel (self : Node) tk c i next w' w'' :
  running_child self = Some c ->
  index_of c (children self) = Some i ->
  nth_error (children self) (i + 1) = Some next ->
  child_execute c (world tk) = (Normal (Some FAILURE), w') ->
  child_enter next w' = (Normal tt, w'') ->
  selector_loop (S fuel) (self, tk)
  = selector_loop fuel
      (with_running_child (Some next) self, after w'' [Execute c; Enter next] tk).
Proof.
  intros Hrc Hidx Hnext Hex Hen. cbn.
  unfold bind, execute_running_child, bind, get_self, getattr, call_execute,
    call_enter, set_running_child, set_self, bind, get_self, outer, ret,
    list_index, list_item; cbn.
  rewrite Hrc; cbn. rewrite Hex; cbn. rewrite Hidx; cbn.
  assert (Hlt : (i + 1 < List.length (children self))%nat)
    by (apply nth_error_Some; congruence).
  destruct (Nat.ltb_spec (i + 1) (List.length (children self))); [|lia].
  rewrite Hnext; cbn. rewrite Hen; cbn.
  unfold after; cbn. rewrite <- app_assoc. reflexivity.
Qed.

(** With a child already running, [execute] is its loop. *)
Lemma sequence_execute_resume fuel (self : Node) tk c :
  running_child self = Some c ->
  sequence_execute fuel (self, tk) = sequence_loop fuel (self, tk).
Proof.
  intros Hrc. unfold SequenceNode_execute, start_first_child, bind, get_self, ret.
  cbn. now rewrite Hrc.
Qed.

Lemma selector_execute_resume fuel (self : Node) tk c :
  running_child self = Some c ->
  selector_execute fuel (self, tk) = selector_loop fuel (self, tk).
Proof.
  intros Hrc. unfold SelectorNode_execute, start_first_child, bind, get_self, ret.
  cbn. now rewrite Hrc.
Qed.

(** With no child running, [execute] first enters the first child. *)
Lemma start_first_child_fresh (self : Node) tk first w1 :
  running_child self = None ->
  nth_error (children self) 0 = Some first ->
  child_enter first (world tk) = (Normal tt, w1) ->
  start_first_child World child child_enter (self, tk)
  = (Normal tt, (with_running_child (Some first) self, after w1 [Enter first] tk)).
Proof.
  intros Hrc Hfirst Hen.
  unfold start_first_child, bind, get_self, list_item, set_running_child,
    bind, get_self, set_self, call_enter, outer, ret; cbn.
  rewrite Hrc; cbn. cbn in Hfirst. rewrite Hfirst; cbn. rewrite Hen. reflexivity.
Qed.

Lemma sequence_execute_fresh fuel (self : Node) tk first w1 :
  running_child self = None ->
  nth_error (children self) 0 = Some first ->
  child_enter first (world tk) = (Normal tt, w1) ->
  sequence_execute fuel (self, tk)
  = sequence_execute fuel
      (with_running_child (Some first) self, after w1 [Enter first] tk).
Proof.
  intros Hrc Hfirst Hen.
  rewrite (sequence_execute_resume fuel (with_running_child (Some first) self) _ first)
    by reflexivity.
  unfold SequenceNode_execute, bind.
  now rewrite (start_first_child_fresh self tk first w1).
Qed.

Lemma selector_execute_fresh fuel (self : Node) tk first w1 :
  running_child self = None ->
  nth_error (children self) 0 = Some first ->
  child_enter first (world tk) = (Normal tt, w1) ->
  selector_execute fuel (self, tk)
  = selector_execute fuel
      (with_running_child (Some first) self, after w1 [Enter first] tk).
Proof.
  intros Hrc Hfirst Hen.
  rewrite (selector_execute_resume fuel (with_running_child (Some first) self) _ first)
    by reflexivity.
  unfold SelectorNode_execute, bind.
  now rewrite (start_first_child_fresh self tk first w1).
Qed.


Lemma skipn_cons_nth (xs : list child) (n : nat) (x : child) (rest : list child) :
  skipn n xs = x :: rest -> nth_error xs n = Some x /\ skipn (S n) xs = rest.
Proof.
  revert n. induction xs as [|y ys IH]; intros [|n] H; cbn in *; try discriminate.
  - injection H as -> ->. now destruct rest.
  - destruct (IH n H) as (Hn & Hs). split; [exact Hn|]. exact Hs.
Qed.

(** Zero-latency chaining: when every child succeeds at once, one tick
    runs the running child and then enters and runs each later sibling, in
    order, and the sequence succeeds. *)
Lemma sequence_loop_chain (self : Node) :
  NoDup (children self) ->
  (forall c w, In c (children self) ->
               exists w', child_execute c w = (Normal (Some SUCCESS), w')) ->
  (forall c w, In c (children self) -> exists w', child_enter c w = (Normal tt, w')) ->
  forall rest i c tk,
    nth_error (children self) i = Some c ->
    skipn (S i) (children self) = rest ->
    exists w',
      sequence_loop (S (List.length rest)) (with_running_child (Some c) self, tk)
      = (Normal (Some SUCCESS),
         (with_running_child None self,
          after w' (Execute c :: flat_map (fun x => [Enter x; Execute x]) rest) tk)).
Proof.
  intros Hnd Hexec Henter.
  induction rest as [|next rest IH]; intros i c tk Hi Hskip.
  - destruct (Hexec c (world tk)) as (w' & Hex); [eapply nth_error_In; eauto|].
    exists w'.
    apply (sequence_loop_success_last _ (with_running_child (Some c) self) tk c i w');
      auto.
    + now apply index_of_nth.
    + cbn. apply (f_equal (@List.length child)) in Hskip.
      rewrite length_skipn in Hskip. cbn in Hskip. lia.
  - apply skipn_cons_nth in Hskip. destruct Hskip as (Hnext & Hskip).
    destruct (Hexec c (world tk)) as (w' & Hex); [eapply nth_error_In; eauto|].
    destruct (Henter next w') as (w'' & Hen); [eapply nth_error_In; eauto|].
    destruct (IH (S i) next (after w'' [Execute c; Enter next] tk) Hnext Hskip)
      as (w3 & Hrest).
    exists w3.
    rewrite (sequence_loop_success_next _ (with_running_child (Some c) self) tk c i
               next w' w''); auto.
    + cbn [with_running_child children node_name running_child] in *.
      unfold with_running_child in *; cbn in *.
      rewrite Hrest. unfold after; cbn. now rewrite <- app_assoc.
    + now apply index_of_nth.
    + cbn. now replace (i + 1)%nat with (S i) by lia.
Qed.

(** So a sequence entered afresh, all of whose children succeed at once,
    enters and executes every child, in insertion order, within one tick. *)
Lemma SequenceNode_all_succeed_one_tick (self : Node) (tk : Tick World child) :
  NoDup (children self) ->
  children self <> [] ->
  running_child self = None ->
  (forall c w, In c (children self) ->
               exists w', child_execute c w = (Normal (Some SUCCESS), w')) ->
  (forall c w, In c (children self) -> exists w', child_enter c w = (Normal tt, w')) ->
  exists w',
    sequence_execute (List.length (children self)) (self, tk)
    = (Normal (Some SUCCESS),
       (with_running_child None self,
        after w' (flat_map (fun x => [Enter x; Execute x]) (children self)) tk)).
Proof.
  intros Hnd Hne Hrc Hexec Henter.
  destruct (children self) as [|first rest] eqn:Hcs; [congruence|].
  destruct (Henter first (world tk)) as (w1 & Hen); [now left|].
  rewrite (sequence_execute_fresh _ self tk first w1 Hrc); [|now rewrite Hcs|exact Hen].
  rewrite (sequence_execute_resume _ _ _ first) by reflexivity.
  destruct (sequence_loop_chain self) with (rest := rest) (i := 0%nat) (c := first)
    (tk := after w1 [Enter first] tk) as (w' & Hchain);
    try (rewrite Hcs; auto; fail).
  exists w'. cbn [List.length]. rewrite Hchain. now rewrite after_after.
Qed.

(** Case analysis on what a loop iteration consults. *)
Ltac unfold_engine_in H :=
  unfold bind, execute_running_child, bind, get_self, getattr, call_execute,
    call_enter, set_running_child, set_self, bind, get_self, outer, ret, raise,
    list_index, list_item in H; cbn in H.

Ltac case_engine_in H :=
  match type of H with
  | context [child_execute ?c ?w] =>
      destruct (child_execute c w) as [[[[| |]|]| |] ?] eqn:?
  | context [index_of ?c ?l] => destruct (index_of c l) eqn:?
  | context [Nat.ltb ?a ?b] => destruct (Nat.ltb a b) eqn:?
  | context [nth_error ?l ?i] => destruct (nth_error l i) eqn:?
  | context [child_enter ?c ?w] => destruct (child_enter c w) as [[[]| |] ?] eqn:?
  end.

(** What a returned status says about [running_child]. *)
Lemma sequence_loop_running_child fuel :
  forall (self : Node) tk r self' tk',
    sequence_loop fuel (self, tk) = (Normal r, (self', tk')) ->
    exists status,
      r = Some status /\ (running_child self' = None <-> status <> RUNNING).
Proof.
  induction fuel as [|fuel IH]; intros self tk r self' tk' H; [discriminate|].
  destruct self as [name cs [rc|]]; cbn in H; unfold_engine_in H;
    [|discriminate].
  repeat (case_engine_in H; cbn in H);
    try discriminate; try (now apply IH in H);
    injection H as <- <- <-; eexists; (split; [reflexivity|]); cbn;
    split; congruence.
Qed.

Lemma selector_loop_running_child fuel :
  forall (self : Node) tk r self' tk',
    selector_loop fuel (self, tk) = (Normal r, (self', tk')) ->
    exists status,
      r = Some status /\ (running_child self' = None <-> status <> RUNNING).
Proof.
  induction fuel as [|fuel IH]; intros self tk r self' tk' H; [discriminate|].
  destruct self as [name cs [rc|]]; cbn in H; unfold_engine_in H;
    [|discriminate].
  repeat (case_engine_in H; cbn in H);
    try discriminate; try (now apply IH in H);
    injection H as <- <- <-; eexists; (split; [reflexivity|]); cbn;
    split; congruence.
Qed.

(** [execute] is its loop, run from wherever [start_first_child] ends. *)
Lemma start_first_child_then {A : Type} (k : M (Node * Tick World child) A)
    (self : Node) tk (r : A) self' tk' :
  bind (start_first_child World child child_enter) (fun _ => k) (self, tk)
  = (Normal r, (self', tk')) ->
  exists self1 tk1, k (self1, tk1) = (Normal r, (self', tk')).
Proof.
  unfold bind at 1. intros H.
  destruct (start_first_child World child child_enter (self, tk)) as [[[]| |] [self1 tk1]];
    try discriminate.
  now exists self1, tk1.
Qed.

(** C3.  [running_child] of a sequence and of a selector is null as
    constructed, is left as it is by [add_child], and is null right after
    [enter] returns; whenever [execute]
    returns, it returns a status, and [running_child] is then null exactly
    when that status is not Running (null after Success and Failure,
    non-null after Running). *)
Theorem running_child_null_unless_running :
  (forall name, running_child (CompositeNode_init child name) = None)
  /\ (forall c (self : Node),
        running_child (add_child child c self) = running_child self)
  /\ (forall (self : Node) tk,
        SequenceNode_enter World child (self, tk)
        = (Normal tt, (with_running_child None self, tk))
        /\ SelectorNode_enter World child (self, tk)
           = (Normal tt, (with_running_child None self, tk)))
  /\ (forall fuel (self : Node) tk r self' tk',
        sequence_execute fuel (self, tk) = (Normal r, (self', tk')) ->
        exists status,
          r = Some status /\ (running_child self' = None <-> status <> RUNNING))
  /\ (forall fuel (self : Node) tk r self' tk',
        selector_execute fuel (self, tk) = (Normal r, (self', tk')) ->
        exists status,
          r = Some status /\ (running_child self' = None <-> status <> RUNNING)).
Proof.
  repeat split.
  - intros fuel self tk r self' tk' H.
    apply start_first_child_then in H. destruct H as (self1 & tk1 & H).
    now apply sequence_loop_running_child in H.
  - intros fuel self tk r self' tk' H.
    apply start_first_child_then in H. destruct H as (self1 & tk1 & H).
    now apply selector_loop_running_child in H.
Qed.

(** A composite without children cannot start its first child. *)
Lemma start_first_child_empty (name : string) (tk : Tick World child) :
  start_first_child World child child_enter (CompositeNode_init child name, tk)
  = (Raised IndexError, (CompositeNode_init child name, tk)).
Proof. reflexivity. Qed.

(** C7, as the code has it.  [execute] of a sequence and of a selector that
    were given no child raises [IndexError], whatever the world and the
    fuel, before anything is changed or called; [update] of a tree whose
    root is null returns normally and changes nothing. *)
Theorem childless_composite_raises_rootless_tree_returns :
  (forall fuel name (tk : Tick World child),
      sequence_execute fuel (CompositeNode_init child name, tk)
      = (Raised IndexError, (CompositeNode_init child name, tk)))
  /\ (forall fuel name (tk : Tick World child),
      selector_execute fuel (CompositeNode_init child name, tk)
      = (Raised IndexError, (CompositeNode_init child name, tk)))
  /\ (forall (tk : Tick World child),
      BehaviorTree_update World child child_execute ({| root := None |}, tk)
      = (Normal tt, ({| root := None |}, tk))).
Proof.
  repeat split.
Qed.

(** A child that answers [None] is executed again at once. *)
Lemma sequence_loop_diverges (P : World -> Prop) (c : child) :
  (forall w, P w -> exists w', child_execute c w = (Normal None, w') /\ P w') ->
  forall fuel (self : Node) tk,
    running_child self = Some c ->
    P (world tk) ->
    fst (sequence_loop fuel (self, tk)) = OutOfFuel.
Proof.
  intros Hnone. induction fuel as [|fuel IH]; intros self tk Hrc HP; [reflexivity|].
  destruct (Hnone _ HP) as (w' & Hex & HP').
  rewrite (sequence_loop_none fuel self tk c w' Hrc Hex).
  now apply IH.
Qed.


(** ** Further properties of the composite engine

    Below, [P] is a property of the world that the children's methods keep,
    and [ready c] says that child [c] can be executed: [enter] of a child
    makes it ready. *)

Lemma index_of_first (xs : list child) (p : nat) (c : child) :
  nth_error xs p = Some c ->
  exists i, index_of c xs = Some i /\ (i <= p)%nat.
Proof.
  revert p. induction xs as [|y ys IH]; intros [|p] Hp; cbn in *; try discriminate.
  - injection Hp as ->. exists 0%nat. destruct (child_eq_dec c c); [auto|congruence].
  - destruct (child_eq_dec y c) as [_|_].
    + exists 0%nat. split; [reflexivity|lia].
    + destruct (IH p Hp) as (i & Hi & Hle). exists (S i). rewrite Hi. split; [reflexivity|lia].
Qed.

Lemma sequence_loop_chain_ready (self : Node) (P : World -> Prop)
    (ready : child -> World -> Prop) :
  NoDup (children self) ->
  (forall c w, In c (children self) -> P w ->
               exists w', child_enter c w = (Normal tt, w') /\ P w' /\ ready c w') ->
  (forall c w, In c (children self) -> P w -> ready c w ->
               exists w', child_execute c w = (Normal (Some SUCCESS), w') /\ P w') ->
  forall rest i c tk,
    nth_error (children self) i = Some c ->
    skipn (S i) (children self) = rest ->
    P (world tk) -> ready c (world tk) ->
    exists w',
      sequence_loop (S (List.length rest)) (with_running_child (Some c) self, tk)
      = (Normal (Some SUCCESS),
         (with_running_child None self,
          after w' (Execute c :: flat_map (fun x => [Enter x; Execute x]) rest) tk)).
Proof.
  intros Hnd Henter Hexec.
  induction rest as [|next rest IH]; intros i c tk Hi Hskip HP Hready.
  - destruct (Hexec c (world tk)) as (w' & Hex & _); auto; [eapply nth_error_In; eauto|].
    exists w'.
    apply (sequence_loop_success_last _ (with_running_child (Some c) self) tk c i w');
      auto.
    + now apply index_of_nth.
    + cbn. apply (f_equal (@List.length child)) in Hskip.
      rewrite length_skipn in Hskip. cbn in Hskip. lia.
  - apply skipn_cons_nth in Hskip. destruct Hskip as (Hnext & Hskip).
    destruct (Hexec c (world tk)) as (w' & Hex & HP'); auto;
      [eapply nth_error_In; eauto|].
    destruct (Henter next w') as (w'' & Hen & HP'' & Hready'); auto;
      [eapply nth_error_In; eauto|].
    destruct (IH (S i) next (after w'' [Execute c; Enter next] tk) Hnext Hskip HP'' Hready')
      as (w3 & Hrest).
    exists w3.
    rewrite (sequence_loop_success_next _ (with_running_child (Some c) self) tk c i
               next w' w''); auto.
    + unfold with_running_child in *; cbn in *.
      rewrite Hrest. unfold after; cbn. now rewrite <- app_assoc.
    + now apply index_of_nth.
    + cbn. now replace (i + 1)%nat with (S i) by lia.
Qed.

(** X1.  Zero-latency chaining in [SequenceNode.execute].  A sequence with
    distinct children, no child running, each of whose children succeeds
    when executed right after being entered: one tick enters and executes
    every child, in insertion order, and the sequence returns Success with
    no child left running. *)
Theorem SequenceNode_chain_one_tick (self : Node) (tk : Tick World child)
    (P : World -> Prop) (ready : child -> World -> Prop) :
  NoDup (children self) ->
  children self <> [] ->
  running_child self = None ->
  P (world tk) ->
  (forall c w, In c (children self) -> P w ->
               exists w', child_enter c w = (Normal tt, w') /\ P w' /\ ready c w') ->
  (forall c w, In c (children self) -> P w -> ready c w ->
               exists w', child_execute c w = (Normal (Some SUCCESS), w') /\ P w') ->
  exists w',
    sequence_execute (List.length (children self)) (self, tk)
    = (Normal (Some SUCCESS),
       (with_running_child None self,
        after w' (flat_map (fun x => [Enter x; Execute x]) (children self)) tk)).
Proof.
  intros Hnd Hne Hrc HP Henter Hexec.
  destruct (children self) as [|first rest] eqn:Hcs; [congruence|].
  destruct (Henter first (world tk)) as (w1 & Hen & HP1 & Hready); auto; [now left|].
  rewrite (sequence_execute_fresh _ self tk first w1 Hrc); [|now rewrite Hcs|exact Hen].
  rewrite (sequence_execute_resume _ _ _ first) by reflexivity.
  destruct (sequence_loop_chain_ready self P ready) with (rest := rest) (i := 0%nat)
    (c := first) (tk := after w1 [Enter first] tk) as (w' & Hchain);
    try (rewrite Hcs; auto; fail); auto.
  exists w'. cbn [List.length]. rewrite Hchain. now rewrite after_after.
Qed.

Lemma selector_loop_chain_ready (self : Node) (P : World -> Prop)
    (ready : child -> World -> Prop) :
  NoDup (children self) ->
  (forall c w, In c (children self) -> P w ->
               exists w', child_enter c w = (Normal tt, w') /\ P w' /\ ready c w') ->
  (forall c w, In c (children self) -> P w -> ready c w ->
               exists w', child_execute c w = (Normal (Some FAILURE), w') /\ P w') ->
  forall rest i c tk,
    nth_error (children self) i = Some c ->
    skipn (S i) (children self) = rest ->
    P (world tk) -> ready c (world tk) ->
    exists w',
      selector_loop (S (List.length rest)) (with_running_child (Some c) self, tk)
      = (Normal (Some FAILURE),
         (with_running_child None self,
          after w' (Execute c :: flat_map (fun x => [Enter x; Execute x]) rest) tk)).
Proof.
  intros Hnd Henter Hexec.
  induction rest as [|next rest IH]; intros i c tk Hi Hskip HP Hready.
  - destruct (Hexec c (world tk)) as (w' & Hex & _); auto; [eapply nth_error_In; eauto|].
    exists w'.
    apply (selector_loop_failure_last _ (with_running_child (Some c) self) tk c i w');
      auto.
    + now apply index_of_nth.
    + cbn. apply (f_equal (@List.length child)) in Hskip.
      rewrite length_skipn in Hskip. cbn in Hskip. lia.
  - apply skipn_cons_nth in Hskip. destruct Hskip as (Hnext & Hskip).
    destruct (Hexec c (world tk)) as (w' & Hex & HP'); auto;
      [eapply nth_error_In; eauto|].
    destruct (Henter next w') as (w'' & Hen & HP'' & Hready'); auto;
      [eapply nth_error_In; eauto|].
    destruct (IH (S i) next (after w'' [Execute c; Enter next] tk) Hnext Hskip HP'' Hready')
      as (w3 & Hrest).
    exists w3.
    rewrite (selector_loop_failure_next _ (with_running_child (Some c) self) tk c i
               next w' w''); auto.
    + unfold with_running_child in *; cbn in *.
      rewrite Hrest. unfold after; cbn. now rewrite <- app_assoc.
    + now apply index_of_nth.
    + cbn. now replace (i + 1)%nat with (S i) by lia.
Qed.

(** X2.  The same chaining in [SelectorNode.execute].  A selector with
    distinct children, no child running, each of whose children fails when
    executed right after being entered: one tick enters and executes every
    child, in insertion order, and the selector returns Failure with no
    child left running. *)
Theorem SelectorNode_chain_one_tick (self : Node) (tk : Tick World child)
    (P : World -> Prop) (ready : child -> World -> Prop) :
  NoDup (children self) ->
  children self <> [] ->
  running_child self = None ->
  P (world tk) ->
  (forall c w, In c (children self) -> P w ->
               exists w', child_enter c w = (Normal tt, w') /\ P w' /\ ready c w') ->
  (forall c w, In c (children self) -> P w -> ready c w ->
               exists w', child_execute c w = (Normal (Some FAILURE), w') /\ P w') ->
  exists w',
    selector_execute (List.length (children self)) (self, tk)
    = (Normal (Some FAILURE),
       (with_running_child None self,
        after w' (flat_map (fun x => [Enter x; Execute x]) (children self)) tk)).
Proof.
  intros Hnd Hne Hrc HP Henter Hexec.
  destruct (children self) as [|first rest] eqn:Hcs; [congruence|].
  destruct (Henter first (world tk)) as (w1 & Hen & HP1 & Hready); auto; [now left|].
  rewrite (selector_execute_fresh _ self tk first w1 Hrc); [|now rewrite Hcs|exact Hen].
  rewrite (selector_execute_resume _ _ _ first) by reflexivity.
  destruct (selector_loop_chain_ready self P ready) with (rest := rest) (i := 0%nat)
    (c := first) (tk := after w1 [Enter first] tk) as (w' & Hchain);
    try (rewrite Hcs; auto; fail); auto.
  exists w'. cbn [List.length]. rewrite Hchain. now rewrite after_after.
Qed.

Lemma sequence_loop_returns (self : Node) (P : World -> Prop)
    (ready : child -> World -> Prop) :
  NoDup (children self) ->
  (forall c w, In c (children self) -> P w ->
               exists w', child_enter c w = (Normal tt, w') /\ P w' /\ ready c w') ->
  (forall c w, In c (children self) -> P w -> ready c w ->
               exists status w', child_execute c w = (Normal (Some status), w') /\ P w') ->
  forall rest i c tk fuel,
    nth_error (children self) i = Some c ->
    skipn (S i) (children self) = rest ->
    (List.length rest < fuel)%nat ->
    P (world tk) -> ready c (world tk) ->
    exists status self' tk',
      sequence_loop fuel (with_running_child (Some c) self, tk)
      = (Normal (Some status), (self', tk')).
Proof.
  intros Hnd Henter Hexec.
  induction rest as [|next rest IH]; intros i c tk [|fuel] Hi Hskip Hfuel HP Hready;
    try (cbn in Hfuel; lia);
    destruct (Hexec c (world tk)) as ([| |] & w' & Hex & HP'); auto;
    try (eapply nth_error_In; eauto; fail).
  - do 3 eexists.
    apply (sequence_loop_success_last _ (with_running_child (Some c) self) tk c i w');
      auto.
    + now apply index_of_nth.
    + cbn. apply (f_equal (@List.length child)) in Hskip.
      rewrite length_skipn in Hskip. cbn in Hskip. lia.
  - do 3 eexists. apply (sequence_loop_failure _ _ tk c w'); [reflexivity|exact Hex].
  - do 3 eexists. apply (sequence_loop_running _ _ tk c w'); [reflexivity|exact Hex].
  - apply skipn_cons_nth in Hskip. destruct Hskip as (Hnext & Hskip).
    destruct (Henter next w') as (w'' & Hen & HP'' & Hready'); auto;
      [eapply nth_error_In; eauto|].
    destruct (IH (S i) next (after w'' [Execute c; Enter next] tk) fuel Hnext Hskip)
      as (status & self' & tk' & Hrest); auto; [cbn in Hfuel; lia|].
    exists status, self', tk'.
    rewrite (sequence_loop_success_next _ (with_running_child (Some c) self) tk c i
               next w' w''); auto.
    + now apply index_of_nth.
    + cbn. now replace (i + 1)%nat with (S i) by lia.
  - do 3 eexists. apply (sequence_loop_failure _ _ tk c w'); [reflexivity|exact Hex].
  - do 3 eexists. apply (sequence_loop_running _ _ tk c w'); [reflexivity|exact Hex].
Qed.

Lemma selector_loop_returns (self : Node) (P : World -> Prop)
    (ready : child -> World -> Prop) :
  NoDup (children self) ->
  (forall c w, In c (children self) -> P w ->
               exists w', child_enter c w = (Normal tt, w') /\ P w' /\ ready c w') ->
  (forall c w, In c (children self) -> P w -> ready c w ->
               exists status w', child_execute c w = (Normal (Some status), w') /\ P w') ->
  forall rest i c tk fuel,
    nth_error (children self) i = Some c ->
    skipn (S i) (children self) = rest ->
    (List.length rest < fuel)%nat ->
    P (world tk) -> ready c (world tk) ->
    exists status self' tk',
      selector_loop fuel (with_running_child (Some c) self, tk)
      = (Normal (Some status), (self', tk')).
Proof.
  intros Hnd Henter Hexec.
  induction rest as [|next rest IH]; intros i c tk [|fuel] Hi Hskip Hfuel HP Hready;
    try (cbn in Hfuel; lia);
    destruct (Hexec c (world tk)) as ([| |] & w' & Hex & HP'); auto;
    try (eapply nth_error_In; eauto; fail).
  - do 3 eexists. apply (selector_loop_success _ _ tk c w'); [reflexivity|exact Hex].
  - do 3 eexists.
    apply (selector_loop_failure_last _ (with_running_child (Some c) self) tk c i w');
      auto.
    + now apply index_of_nth.
    + cbn. apply (f_equal (@List.length child)) in Hskip.
      rewrite length_skipn in Hskip. cbn in Hskip. lia.
  - do 3 eexists. apply (selector_loop_running _ _ tk c w'); [reflexivity|exact Hex].
  - do 3 eexists. apply (selector_loop_success _ _ tk c w'); [reflexivity|exact Hex].
  - apply skipn_cons_nth in Hskip. destruct Hskip as (Hnext & Hskip).
    destruct (Henter next w') as (w'' & Hen & HP'' & Hready'); auto;
      [eapply nth_error_In; eauto|].
    destruct (IH (S i) next (after w'' [Execute c; Enter next] tk) fuel Hnext Hskip)
      as (status & self' & tk' & Hrest); auto; [cbn in Hfuel; lia|].
    exists status, self', tk'.
    rewrite (selector_loop_failure_next _ (with_running_child (Some c) self) tk c i
               next w' w''); auto.
    + now apply index_of_nth.
    + cbn. now replace (i + 1)%nat with (S i) by lia.
  - do 3 eexists. apply (selector_loop_running _ _ tk c w'); [reflexivity|exact Hex].
Qed.

(** X3.  Termination of [SequenceNode.execute].  Let the children be
    distinct and at least one; let every [enter] of a child return and
    leave the child ready, and every [execute] of a ready child return a
    status; let the running child, if any, be one of the children and
    ready.  Then as many loop iterations as there are children suffice:
    [execute] returns a status. *)
Theorem SequenceNode_execute_returns (self : Node) (tk : Tick World child) (fuel : nat)
    (P : World -> Prop) (ready : child -> World -> Prop) :
  NoDup (children self) ->
  children self <> [] ->
  P (world tk) ->
  (forall c, running_child self = Some c ->
             In c (children self) /\ ready c (world tk)) ->
  (forall c w, In c (children self) -> P w ->
               exists w', child_enter c w = (Normal tt, w') /\ P w' /\ ready c w') ->
  (forall c w, In c (children self) -> P w -> ready c w ->
               exists status w', child_execute c w = (Normal (Some status), w') /\ P w') ->
  (List.length (children self) <= fuel)%nat ->
  exists status self' tk',
    sequence_execute fuel (self, tk) = (Normal (Some status), (self', tk')).
Proof.
  intros Hnd Hne HP Hin Henter Hexec Hfuel.
  destruct (running_child self) as [c|] eqn:Hrc.
  - destruct (Hin c eq_refl) as (Hc & Hready).
    destruct (In_nth_error _ _ Hc) as (i & Hi).
    rewrite (sequence_execute_resume _ _ _ c Hrc).
    rewrite <- (with_running_child_same self c Hrc).
    apply (sequence_loop_returns self P ready Hnd Henter Hexec
             (skipn (S i) (children self)) i c tk fuel Hi eq_refl); auto.
    rewrite length_skipn. assert (i < List.length (children self))%nat; [|lia].
    apply nth_error_Some. congruence.
  - destruct (children self) as [|first rest] eqn:Hcs; [congruence|].
    destruct (Henter first (world tk)) as (w1 & Hen & HP1 & Hready); auto; [now left|].
    rewrite (sequence_execute_fresh _ self tk first w1 Hrc); [|now rewrite Hcs|exact Hen].
    rewrite (sequence_execute_resume _ _ _ first) by reflexivity.
    apply (sequence_loop_returns self P ready) with (rest := rest) (i := 0%nat);
      try (rewrite Hcs; auto; fail); auto.
Qed.

(** X4.  Termination of [SelectorNode.execute], under the same conditions
    as for the sequence: as many loop iterations as there are children
    suffice, and [execute] returns a status. *)
Theorem SelectorNode_execute_returns (self : Node) (tk : Tick World child) (fuel : nat)
    (P : World -> Prop) (ready : child -> World -> Prop) :
  NoDup (children self) ->
  children self <> [] ->
  P (world tk) ->
  (forall c, running_child self = Some c ->
             In c (children self) /\ ready c (world tk)) ->
  (forall c w, In c (children self) -> P w ->
               exists w', child_enter c w = (Normal tt, w') /\ P w' /\ ready c w') ->
  (forall c w, In c (children self) -> P w -> ready c w ->
               exists status w', child_execute c w = (Normal (Some status), w') /\ P w') ->
  (List.length (children self) <= fuel)%nat ->
  exists status self' tk',
    selector_execute fuel (self, tk) = (Normal (Some status), (self', tk')).
Proof.
  intros Hnd Hne HP Hin Henter Hexec Hfuel.
  destruct (running_child self) as [c|] eqn:Hrc.
  - destruct (Hin c eq_refl) as (Hc & Hready).
    destruct (In_nth_error _ _ Hc) as (i & Hi).
    rewrite (selector_execute_resume _ _ _ c Hrc).
    rewrite <- (with_running_child_same self c Hrc).
    apply (selector_loop_returns self P ready Hnd Henter Hexec
             (skipn (S i) (children self)) i c tk fuel Hi eq_refl); auto.
    rewrite length_skipn. assert (i < List.length (children self))%nat; [|lia].
    apply nth_error_Some. congruence.
  - destruct (children self) as [|first rest] eqn:Hcs; [congruence|].
    destruct (Henter first (world tk)) as (w1 & Hen & HP1 & Hready); auto; [now left|].
    rewrite (selector_execute_fresh _ self tk first w1 Hrc); [|now rewrite Hcs|exact Hen].
    rewrite (selector_execute_resume _ _ _ first) by reflexivity.
    apply (selector_loop_returns self P ready) with (rest := rest) (i := 0%nat);
      try (rewrite Hcs; auto; fail); auto.
Qed.

(** X5.  An exception raised by the running child's [execute] leaves
    [SequenceNode.execute] and [SelectorNode.execute] as it is; the
    composite is not changed, so the child that raised is still the
    running child, to be executed again, without [enter], on the next
    tick. *)
Theorem composite_execute_passes_exception (self : Node) (tk : Tick World child)
    (fuel : nat) (c : child) (e : Exception) (w' : World) :
  running_child self = Some c ->
  child_execute c (world tk) = (Raised e, w') ->
  sequence_execute (S fuel) (self, tk) = (Raised e, (self, after w' [Execute c] tk))
  /\ selector_execute (S fuel) (self, tk) = (Raised e, (self, after w' [Execute c] tk)).
Proof.
  intros Hrc Hex.
  rewrite (sequence_execute_resume _ _ _ c Hrc), (selector_execute_resume _ _ _ c Hrc).
  split; cbn;
    unfold bind, execute_running_child, bind, get_self, getattr, call_execute,
      outer, ret; cbn;
    rewrite Hrc; cbn; rewrite Hex; cbn; now destruct self.
Qed.

(** The loops keep the child list, and keep the running child inside it. *)
Lemma sequence_loop_keeps_children fuel :
  forall (self : Node) tk r self' tk',
    (forall c, running_child self = Some c -> In c (children self)) ->
    sequence_loop fuel (self, tk) = (r, (self', tk')) ->
    children self' = children self
    /\ node_name self' = node_name self
    /\ (forall c, running_child self' = Some c -> In c (children self)).
Proof.
  induction fuel as [|fuel IH]; intros self tk r self' tk' Hin H.
  - injection H as <- <- <-. auto.
  - destruct self as [name cs [rc|]]; cbn in H; unfold_engine_in H.
    + cbn in Hin.
      repeat (case_engine_in H; cbn in H);
        first
          [ apply IH in H;
            [ exact H
            | first [ exact Hin
                    | cbn; intros c' Hc'; injection Hc' as <-;
                      eapply nth_error_In; eassumption ] ]
          | injection H as <- <- <-; cbn;
            split; [reflexivity|]; split; [reflexivity|];
            intros c' Hc';
            first [ discriminate
                  | injection Hc' as <-;
                    first [ eapply nth_error_In; eassumption
                          | apply Hin; reflexivity ] ] ].
    + injection H as <- <- <-. cbn. auto.
Qed.

Lemma selector_loop_keeps_children fuel :
  forall (self : Node) tk r self' tk',
    (forall c, running_child self = Some c -> In c (children self)) ->
    selector_loop fuel (self, tk) = (r, (self', tk')) ->
    children self' = children self
    /\ node_name self' = node_name self
    /\ (forall c, running_child self' = Some c -> In c (children self)).
Proof.
  induction fuel as [|fuel IH]; intros self tk r self' tk' Hin H.
  - injection H as <- <- <-. auto.
  - destruct self as [name cs [rc|]]; cbn in H; unfold_engine_in H.
    + cbn in Hin.
      repeat (case_engine_in H; cbn in H);
        first
          [ apply IH in H;
            [ exact H
            | first [ exact Hin
                    | cbn; intros c' Hc'; injection Hc' as <-;
                      eapply nth_error_In; eassumption ] ]
          | injection H as <- <- <-; cbn;
            split; [reflexivity|]; split; [reflexivity|];
            intros c' Hc';
            first [ discriminate
                  | injection Hc' as <-;
                    first [ eapply nth_error_In; eassumption
                          | apply Hin; reflexivity ] ] ].
    + injection H as <- <- <-. cbn. auto.
Qed.

Lemma start_first_child_keeps_children (self : Node) tk r self' tk' :
  (forall c, running_child self = Some c -> In c (children self)) ->
  start_first_child World child child_enter (self, tk) = (r, (self', tk')) ->
  children self' = children self
  /\ node_name self' = node_name self
  /\ (forall c, running_child self' = Some c -> In c (children self)).
Proof.
  intros Hin H. destruct self as [name cs [rc|]]; cbn in H;
    unfold start_first_child in H; unfold_engine_in H.
  - injection H as <- <- <-. auto.
  - destruct cs as [|first rest]; cbn in H.
    + injection H as <- <- <-. auto.
    + destruct (child_enter first (world tk)) as [r0 w0]. injection H as <- <- <-.
      cbn. repeat split. intros c Hc. injection Hc as <-. now left.
Qed.

(** X6.  Whatever way [execute] of a sequence or of a selector ends (a
    status, an exception, or never), it leaves the node's name and child
    list as they were, and a running child that is one of the children,
    provided the running child was one of them before.  In particular the
    lookup [children.index(running_child)] cannot fail. *)
Theorem composite_execute_keeps_children (self : Node) (tk : Tick World child)
    (fuel : nat) :
  (forall c, running_child self = Some c -> In c (children self)) ->
  (children (fst (snd (sequence_execute fuel (self, tk)))) = children self
   /\ node_name (fst (snd (sequence_execute fuel (self, tk)))) = node_name self
   /\ (forall c, running_child (fst (snd (sequence_execute fuel (self, tk)))) = Some c ->
                 In c (children self)))
  /\ (children (fst (snd (selector_execute fuel (self, tk)))) = children self
      /\ node_name (fst (snd (selector_execute fuel (self, tk)))) = node_name self
      /\ (forall c, running_child (fst (snd (selector_execute fuel (self, tk)))) = Some c ->
                    In c (children self))).
Proof.
  intros Hin.
  unfold SequenceNode_execute, SelectorNode_execute, bind.
  destruct (start_first_child World child child_enter (self, tk))
    as [r0 [self0 tk0]] eqn:H0.
  apply (start_first_child_keeps_children self tk r0 self0 tk0 Hin) in H0.
  destruct H0 as (Hcs & Hname & Hin0).
  assert (Hin0' : forall c, running_child self0 = Some c -> In c (children self0))
    by (rewrite Hcs; exact Hin0).
  split.
  - destruct r0 as [[]| |]; cbn; auto.
    destruct (sequence_loop fuel (self0, tk0)) as [r [self' tk']] eqn:H.
    apply (sequence_loop_keeps_children fuel self0 tk0 r self' tk' Hin0') in H.
    cbn. rewrite <- Hcs, <- Hname. exact H.
  - destruct r0 as [[]| |]; cbn; auto.
    destruct (selector_loop fuel (self0, tk0)) as [r [self' tk']] eqn:H.
    apply (selector_loop_keeps_children fuel self0 tk0 r self' tk' Hin0') in H.
    cbn. rewrite <- Hcs, <- Hname. exact H.
Qed.

(** A sequence one of whose children occurs twice. *)
Lemma sequence_loop_repeated_child (self : Node) (P : World -> Prop)
    (ready : child -> World -> Prop) (f j : nat) (c0 : child) :
  (f < j)%nat ->
  nth_error (children self) f = Some c0 ->
  nth_error (children self) j = Some c0 ->
  (forall c w, In c (children self) -> P w ->
               exists w', child_enter c w = (Normal tt, w') /\ P w' /\ ready c w') ->
  (forall c w, In c (children self) -> P w -> ready c w ->
               exists w', child_execute c w = (Normal (Some SUCCESS), w') /\ P w') ->
  forall fuel p c tk,
    (p <= j)%nat ->
    nth_error (children self) p = Some c ->
    P (world tk) -> ready c (world tk) ->
    fst (sequence_loop fuel (with_running_child (Some c) self, tk)) = OutOfFuel.
Proof.
  intros Hfj Hf Hj Henter Hexec.
  induction fuel as [|fuel IH]; intros p c tk Hp Hc HP Hready; [reflexivity|].
  destruct (Hexec c (world tk)) as (w' & Hex & HP'); auto; [eapply nth_error_In; eauto|].
  destruct (index_of_first _ _ _ Hc) as (i & Hi & Hip).
  assert (Hij : (i < j)%nat).
  { destruct (Nat.eq_dec p j) as [->|]; [|lia].
    assert (c = c0) by congruence. subst c.
    destruct (index_of_first _ _ _ Hf) as (i' & Hi' & Hif).
    assert (i' = i) by congruence. lia. }
  assert (Hlen : (j < List.length (children self))%nat)
    by (apply nth_error_Some; congruence).
  destruct (nth_error (children self) (i + 1)) as [next|] eqn:Hnext;
    [|apply nth_error_None in Hnext; lia].
  destruct (Henter next w') as (w'' & Hen & HP'' & Hready'); auto;
    [eapply nth_error_In; eauto|].
  rewrite (sequence_loop_success_next _ (with_running_child (Some c) self) tk c i
             next w' w''); auto.
  apply (IH (i + 1)%nat next); auto. lia.
Qed.

(** X7.  A sequence in whose child list one node occurs twice, entered
    afresh, each of whose children succeeds when executed right after being
    entered, never returns: [children.index] finds the first occurrence of
    the repeated node, so the loop steps back and exhausts any fuel. *)
Theorem SequenceNode_repeated_child_never_returns (self : Node) (tk : Tick World child)
    (P : World -> Prop) (ready : child -> World -> Prop) (f j : nat) (c0 : child) :
  (f < j)%nat ->
  nth_error (children self) f = Some c0 ->
  nth_error (children self) j = Some c0 ->
  running_child self = None ->
  P (world tk) ->
  (forall c w, In c (children self) -> P w ->
               exists w', child_enter c w = (Normal tt, w') /\ P w' /\ ready c w') ->
  (forall c w, In c (children self) -> P w -> ready c w ->
               exists w', child_execute c w = (Normal (Some SUCCESS), w') /\ P w') ->
  forall fuel, fst (sequence_execute fuel (self, tk)) = OutOfFuel.
Proof.
  intros Hfj Hf Hj Hrc HP Henter Hexec fuel.
  destruct (children self) as [|first rest] eqn:Hcs; [now destruct f|].
  destruct (Henter first (world tk)) as (w1 & Hen & HP1 & Hready); auto; [now left|].
  rewrite (sequence_execute_fresh _ self tk first w1 Hrc); [|now rewrite Hcs|exact Hen].
  rewrite (sequence_execute_resume _ _ _ first) by reflexivity.
  apply (sequence_loop_repeated_child self P ready f j c0 Hfj) with (p := 0%nat);
    try (rewrite Hcs; auto; fail); auto.
  lia.
Qed.


Lemma index_of_sound (xs : list child) (c : child) (i : nat) :
  index_of c xs = Some i -> nth_error xs i = Some c.
Proof.
  revert i. induction xs as [|y ys IH]; intros i H; cbn in *; [discriminate|].
  destruct (child_eq_dec y c) as [->|_].
  - injection H as <-. reflexivity.
  - destruct (index_of c ys) as [i'|]; [|discriminate].
    injection H as <-. cbn. now apply IH.
Qed.

Lemma index_of_last (xs : list child) (c last : child) (i : nat) :
  index_of c xs = Some i ->
  (i + 1 <? List.length xs)%nat = false ->
  nth_error xs (List.length xs - 1) = Some last ->
  c = last.
Proof.
  intros Hi Hlt Hlast. apply index_of_sound in Hi.
  assert (i < List.length xs)%nat by (apply nth_error_Some; congruence).
  apply Nat.ltb_ge in Hlt.
  replace (List.length xs - 1)%nat with i in Hlast by lia. congruence.
Qed.

Lemma sequence_loop_success_only_from_last (last : child) fuel :
  (forall w, fst (child_execute last w) <> Normal (Some SUCCESS)) ->
  forall (self : Node) tk,
    nth_error (children self) (List.length (children self) - 1) = Some last ->
    fst (sequence_loop fuel (self, tk)) <> Normal (Some SUCCESS).
Proof.
  intros Hlast. induction fuel as [|fuel IH]; intros self tk Hl; [discriminate|].
  destruct (sequence_loop (S fuel) (self, tk)) as [r st] eqn:H. cbn [fst].
  destruct self as [name cs [rc|]]; cbn in H, Hl; unfold_engine_in H;
    [|injection H as <- <-; discriminate].
  repeat (case_engine_in H; cbn in H);
    try (injection H as <- <-; discriminate);
    try (intros ->;
         match goal with
         | Hi : index_of ?c cs = Some _, Hlt : (_ <? _)%nat = false,
           Hex : child_execute ?c ?w = _ |- _ =>
             pose proof (index_of_last cs c last _ Hi Hlt Hl); subst c;
             apply (Hlast w); rewrite Hex; reflexivity
         end);
    try (apply (f_equal fst) in H; cbn [fst] in H; rewrite <- H; apply IH; exact Hl).
Qed.

Lemma selector_loop_failure_only_from_last (last : child) fuel :
  (forall w, fst (child_execute last w) <> Normal (Some FAILURE)) ->
  forall (self : Node) tk,
    nth_error (children self) (List.length (children self) - 1) = Some last ->
    fst (selector_loop fuel (self, tk)) <> Normal (Some FAILURE).
Proof.
  intros Hlast. induction fuel as [|fuel IH]; intros self tk Hl; [discriminate|].
  destruct (selector_loop (S fuel) (self, tk)) as [r st] eqn:H. cbn [fst].
  destruct self as [name cs [rc|]]; cbn in H, Hl; unfold_engine_in H;
    [|injection H as <- <-; discriminate].
  repeat (case_engine_in H; cbn in H);
    try (injection H as <- <-; discriminate);
    try (intros ->;
         match goal with
         | Hi : index_of ?c cs = Some _, Hlt : (_ <? _)%nat = false,
           Hex : child_execute ?c ?w = _ |- _ =>
             pose proof (index_of_last cs c last _ Hi Hlt Hl); subst c;
             apply (Hlast w); rewrite Hex; reflexivity
         end);
    try (apply (f_equal fst) in H; cbn [fst] in H; rewrite <- H; apply IH; exact Hl).
Qed.

Lemma start_first_child_children (self : Node) tk :
  children (fst (snd (start_first_child World child child_enter (self, tk))))
  = children self.
Proof.
  destruct self as [name cs [rc|]]; unfold start_first_child;
    unfold bind, get_self, list_item, set_running_child, bind, get_self, set_self,
      call_enter, outer, ret, raise; cbn; [reflexivity|].
  destruct cs as [|first rest]; cbn; [reflexivity|].
  now destruct (child_enter first (world tk)).
Qed.

Lemma sequence_execute_success_only_from_last (self : Node) (tk : Tick World child)
    (fuel : nat) (last : child) :
  nth_error (children self) (List.length (children self) - 1) = Some last ->
  (forall w, fst (child_execute last w) <> Normal (Some SUCCESS)) ->
  fst (sequence_execute fuel (self, tk)) <> Normal (Some SUCCESS).
Proof.
  intros Hl Hlast.
  pose proof (start_first_child_children self tk) as Hcs.
  unfold SequenceNode_execute, bind.
  destruct (start_first_child World child child_enter (self, tk))
    as [[[]| |] [self0 tk0]]; cbn [fst snd] in Hcs; try discriminate.
  apply (sequence_loop_success_only_from_last last fuel Hlast). now rewrite Hcs.
Qed.

Lemma selector_execute_failure_only_from_last (self : Node) (tk : Tick World child)
    (fuel : nat) (last : child) :
  nth_error (children self) (List.length (children self) - 1) = Some last ->
  (forall w, fst (child_execute last w) <> Normal (Some FAILURE)) ->
  fst (selector_execute fuel (self, tk)) <> Normal (Some FAILURE).
Proof.
  intros Hl Hlast.
  pose proof (start_first_child_children self tk) as Hcs.
  unfold SelectorNode_execute, bind.
  destruct (start_first_child World child child_enter (self, tk))
    as [[[]| |] [self0 tk0]]; cbn [fst snd] in Hcs; try discriminate.
  apply (selector_loop_failure_only_from_last last fuel Hlast). now rewrite Hcs.
Qed.

(** X15.  A sequence returns Success only on a Success of its last child,
    and a selector returns Failure only on a Failure of its last child: if
    the last child never returns Success, [SequenceNode.execute] never
    does; if the last child never returns Failure,
    [SelectorNode.execute] never does. *)
Theorem composite_result_needs_last_child (self : Node) (tk : Tick World child)
    (fuel : nat) (last : child) :
  nth_error (children self) (List.length (children self) - 1) = Some last ->
  ((forall w, fst (child_execute last w) <> Normal (Some SUCCESS)) ->
   fst (sequence_execute fuel (self, tk)) <> Normal (Some SUCCESS))
  /\ ((forall w, fst (child_execute last w) <> Normal (Some FAILURE)) ->
      fst (selector_execute fuel (self, tk)) <> Normal (Some FAILURE)).
Proof.
  intros Hl. split; intros Hlast.
  - now apply (sequence_execute_success_only_from_last self tk fuel last).
  - now apply (selector_execute_failure_only_from_last self tk fuel last).
Qed.
End CompositeFacts.

(** ** Leaf nodes *)

Ltac unfold_method :=
  unfold bind, get_self, set_self, getattr, agent_get_bumper_state,
    agent_set_velocity, random_uniform, env_get_bumper_state, env_set_velocity,
    env_uniform, truediv, outer, ret, raise, when; cbn.

(** [MoveForwardNode.execute] on an entered leaf, by its tests. *)
Lemma MoveForwardNode_execute_eq (cfg : Constants) (self : MoveForwardNode.t)
    (e : Env) (count : Z) :
  MoveForwardNode.call_count self = Some count ->
  MoveForwardNode.execute cfg (self, e)
  = let time := (inject_Z (count + 1) * SAMPLE_TIME cfg)%Q in
    let self' := MoveForwardNode.mk (MoveForwardNode.linear_speed self)
                   (Some (count + 1)%Z) (Some time) in
    if Qltb time 3 then
      if bumper_state (agent e) then (Normal (Some FAILURE), (self', e))
      else (Normal (Some RUNNING),
            (self', {| agent := set_velocity (MoveForwardNode.linear_speed self) 0 (agent e);
                       rng := rng e |}))
    else (Normal (Some SUCCESS), (self', e)).
Proof.
  intros Hc. unfold MoveForwardNode.execute. unfold_method. rewrite Hc; cbn.
  destruct (Qltb _ 3); [|now destruct e].
  unfold get_bumper_state. destruct (bumper_state (agent e)); cbn; now destruct e.
Qed.

(** In exact arithmetic, the ticks below the ceiling of [3 / T] are the
    ticks whose time is below 3. *)
Lemma time_below_iff (T : Q) (n : Z) :
  (0 < T)%Q ->
  Qltb (inject_Z n * T) 3 = true <-> (n < Qceiling (3 / T))%Z.
Proof.
  intros HT. rewrite Qltb_lt. split.
  - intros H. apply Qlt_shift_div_l in H; [|exact HT].
    rewrite Zlt_Qlt. eapply Qlt_le_trans; [exact H|apply Qle_ceiling].
  - intros H.
    assert (Hle : (n <= Qceiling (3 / T) - 1)%Z) by lia.
    rewrite Zle_Qle in Hle.
    assert (Hlt : (inject_Z n < 3 / T)%Q)
      by (eapply Qle_lt_trans; [exact Hle|apply Qceiling_lt]).
    apply (Qmult_lt_r _ _ T HT) in Hlt.
    assert (Hne : ~ (T == 0)%Q) by (intros E; rewrite E in HT; discriminate).
    setoid_replace (3 / T * T)%Q with 3%Q in Hlt by (field; exact Hne).
    exact Hlt.
Qed.

Lemma ceiling_positive (T : Q) : (0 < T)%Q -> (1 <= Qceiling (3 / T))%Z.
Proof.
  intros HT.
  assert (H : (0 < Qceiling (3 / T))%Z); [|lia].
  apply (proj1 (time_below_iff T 0 HT)). rewrite Qltb_lt.
  setoid_replace (inject_Z 0 * T)%Q with 0%Q by ring. reflexivity.
Qed.

(** The threshold of [MoveForwardNode.execute] is the literal 3.  In exact
    arithmetic, with a positive sample period [T]: the [n]-th call after
    [enter] is Running,
    with the forward velocity commanded, while [n < ceil(3 / T)] and the
    bumper is clear; it is Failure while [n < ceil(3 / T)] and the bumper
    is set; it is Success from [n = ceil(3 / T)] on, whatever the
    bumper. *)
Lemma MoveForwardNode_execute_nth (cfg : Constants) (self : MoveForwardNode.t)
    (e : Env) (n : Z) :
  (0 < SAMPLE_TIME cfg)%Q ->
  MoveForwardNode.call_count self = Some (n - 1)%Z ->
  let self' := MoveForwardNode.mk (MoveForwardNode.linear_speed self) (Some n)
                 (Some (inject_Z n * SAMPLE_TIME cfg)%Q) in
  ((n < Qceiling (3 / SAMPLE_TIME cfg))%Z -> bumper_state (agent e) = false ->
   MoveForwardNode.execute cfg (self, e)
   = (Normal (Some RUNNING),
      (self', {| agent := set_velocity (MoveForwardNode.linear_speed self) 0 (agent e);
                 rng := rng e |})))
  /\ ((n < Qceiling (3 / SAMPLE_TIME cfg))%Z -> bumper_state (agent e) = true ->
      MoveForwardNode.execute cfg (self, e) = (Normal (Some FAILURE), (self', e)))
  /\ ((Qceiling (3 / SAMPLE_TIME cfg) <= n)%Z ->
      MoveForwardNode.execute cfg (self, e) = (Normal (Some SUCCESS), (self', e))).
Proof.
  intros HT Hc. rewrite (MoveForwardNode_execute_eq cfg self e _ Hc).
  replace (n - 1 + 1)%Z with n by lia. cbn zeta.
  pose proof (time_below_iff (SAMPLE_TIME cfg) n HT) as Hiff.
  destruct (Qltb (inject_Z n * SAMPLE_TIME cfg) 3) eqn:Hlt.
  - assert (n < Qceiling (3 / SAMPLE_TIME cfg))%Z by now apply Hiff.
    split; [|split].
    + intros _ Hb. now rewrite Hb.
    + intros _ Hb. now rewrite Hb.
    + lia.
  - assert (~ (n < Qceiling (3 / SAMPLE_TIME cfg))%Z)
      by (intros H; apply Hiff in H; discriminate).
    split; [|split]; try lia. reflexivity.
Qed.

Lemma run_ticks_cons {T : Type} (execute : M (T * Env) PyStatus) (b : bool)
    (bumper : list bool) (st : T * Env) :
  fst (run_ticks execute (b :: bumper) st)
  = fst (execute (fst st, sense b (snd st)))
    :: fst (run_ticks execute bumper (snd (execute (fst st, sense b (snd st))))).
Proof.
  cbn. destruct (execute _) as [r st']. cbn.
  now destruct (run_ticks execute bumper st').
Qed.

Lemma MoveForwardNode_clear_run_from (cfg : Constants) :
  (0 < SAMPLE_TIME cfg)%Q ->
  forall (m k : nat) (self : MoveForwardNode.t) (e : Env),
    MoveForwardNode.call_count self = Some (Z.of_nat k) ->
    Z.of_nat (k + S m) = Qceiling (3 / SAMPLE_TIME cfg) ->
    fst (run_ticks (MoveForwardNode.execute cfg) (repeat false (S m)) (self, e))
    = repeat (Normal (Some RUNNING)) m ++ [Normal (Some SUCCESS)].
Proof.
  intros HT. induction m as [|m IH]; intros k self e Hc HN.
  - cbn [repeat]. rewrite run_ticks_cons. cbn [fst snd run_ticks app].
    destruct (MoveForwardNode_execute_nth cfg self (sense false e) (Z.of_nat k + 1) HT)
      as (_ & _ & Hsucc).
    { rewrite Hc. f_equal. lia. }
    rewrite Hsucc by lia. reflexivity.
  - change (repeat false (S (S m))) with (false :: repeat false (S m)).
    rewrite run_ticks_cons. cbn [fst snd].
    destruct (MoveForwardNode_execute_nth cfg self (sense false e) (Z.of_nat k + 1) HT)
      as (Hrun & _ & _).
    { rewrite Hc. f_equal. lia. }
    rewrite Hrun by (reflexivity || lia). cbn [fst snd].
    rewrite (IH (S k)); [reflexivity| |lia].
    cbn [MoveForwardNode.call_count]. f_equal. lia.
Qed.

(** The claim of C4 read with the literal 3 of the code as threshold, the
    floats of the code being read as exact rationals: with a positive
    sample period [T], a freshly entered MoveForward leaf, the bumper clear
    on every tick, is Running on the first [ceil(3 / T) - 1] ticks and
    Success on tick [ceil(3 / T)]. *)
Lemma MoveForwardNode_clear_run (cfg : Constants) (self : MoveForwardNode.t) (e : Env) :
  (0 < SAMPLE_TIME cfg)%Q ->
  let N := Z.to_nat (Qceiling (3 / SAMPLE_TIME cfg)) in
  fst (run_ticks (MoveForwardNode.execute cfg) (repeat false N)
         (snd (MoveForwardNode.enter (self, e))))
  = repeat (Normal (Some RUNNING)) (N - 1) ++ [Normal (Some SUCCESS)].
Proof.
  intros HT N. pose proof (ceiling_positive _ HT) as Hpos.
  assert (HN : N = S (N - 1)) by (unfold N; lia).
  rewrite HN at 1.
  apply (MoveForwardNode_clear_run_from cfg HT (N - 1) 0); [reflexivity|].
  unfold N in *. lia.
Qed.

(** The time of a node, its tick count times the sample period, does not
    decrease from one tick to a later one when the sample period is not
    negative. *)
Lemma time_le_mono (T : Q) (k n : Z) :
  (0 <= T)%Q -> (k <= n)%Z -> (inject_Z k * T <= inject_Z n * T)%Q.
Proof.
  intros HT Hkn. apply Qmult_le_compat_r; [|exact HT]. now rewrite <- Zle_Qle.
Qed.

(** If the time grows from one tick to the next, the sample period is
    positive. *)
Lemma time_grows_positive (T : Q) (n : nat) :
  (inject_Z (Z.of_nat n) * T < inject_Z (Z.of_nat (S n)) * T)%Q -> (0 < T)%Q.
Proof.
  rewrite Nat2Z.inj_succ, <- Z.add_1_r, inject_Z_plus. intros H.
  apply (Qplus_lt_r _ _ (inject_Z (Z.of_nat n) * T)).
  setoid_replace (inject_Z (Z.of_nat n) * T + 0)%Q with (inject_Z (Z.of_nat n) * T)%Q
    by ring.
  setoid_replace (inject_Z (Z.of_nat n) * T + T)%Q
    with ((inject_Z (Z.of_nat n) + inject_Z 1) * T)%Q by ring.
  exact H.
Qed.

(** The times of the ticks up to tick [n] are at most the time of tick
    [n]; so a test [time < bound] that holds at tick [n] holds at every
    earlier tick, and a test [time > bound] that fails at tick [n] fails at
    every earlier tick. *)
Lemma time_below_earlier (T bound : Q) (k n : nat) :
  (0 <= T)%Q -> (k <= n)%nat ->
  Qltb (inject_Z (Z.of_nat n) * T) bound = true ->
  Qltb (inject_Z (Z.of_nat k) * T) bound = true.
Proof.
  intros HT Hkn H. apply Qltb_lt in H. apply Qltb_lt.
  eapply Qle_lt_trans; [|exact H]. apply time_le_mono; [exact HT|lia].
Qed.

Lemma time_not_above_earlier (T bound : Q) (k n : nat) :
  (0 <= T)%Q -> (k <= n)%nat ->
  Qltb bound (inject_Z (Z.of_nat n) * T) = false ->
  Qltb bound (inject_Z (Z.of_nat k) * T) = false.
Proof.
  intros HT Hkn H. apply Qltb_ge in H. apply Qltb_ge.
  eapply Qle_trans; [|exact H]. apply time_le_mono; [exact HT|lia].
Qed.

Lemma MoveForwardNode_run_from (cfg : Constants) (n : nat) :
  (0 <= SAMPLE_TIME cfg)%Q ->
  Qltb (inject_Z (Z.of_nat n) * SAMPLE_TIME cfg) 3 = true ->
  Qltb (inject_Z (Z.of_nat (S n)) * SAMPLE_TIME cfg) 3 = false ->
  forall (m k : nat) (self : MoveForwardNode.t) (e : Env),
    MoveForwardNode.call_count self = Some (Z.of_nat k) ->
    (k + m = n)%nat ->
    fst (run_ticks (MoveForwardNode.execute cfg) (repeat false (S m)) (self, e))
    = repeat (Normal (Some RUNNING)) m ++ [Normal (Some SUCCESS)].
Proof.
  intros HT Hbelow Hreached.
  induction m as [|m IH]; intros k self e Hc Hk.
  - cbn [repeat]. rewrite run_ticks_cons. cbn [fst snd run_ticks app].
    rewrite (MoveForwardNode_execute_eq cfg self (sense false e) _ Hc). cbv zeta.
    replace (Z.of_nat k + 1)%Z with (Z.of_nat (S n)) by lia.
    rewrite Hreached. reflexivity.
  - change (repeat false (S (S m))) with (false :: repeat false (S m)).
    rewrite run_ticks_cons. cbn [fst snd].
    rewrite (MoveForwardNode_execute_eq cfg self (sense false e) _ Hc). cbv zeta.
    replace (Z.of_nat k + 1)%Z with (Z.of_nat (S k)) by lia.
    rewrite (time_below_earlier _ 3 (S k) n HT) by (lia || exact Hbelow).
    cbn [sense agent bumper_state fst snd].
    rewrite (IH (S k)); [reflexivity|reflexivity|lia].
Qed.

(** X8.  How many ticks the MoveForward leaf runs, by the node's own
    [time], the tick count times the sample period, and the literal 3 of
    its test.  If the time of tick [n] is still below 3 and the time of
    tick [n + 1] is not, a freshly entered leaf, the bumper clear on every
    tick, is Running on its first [n] ticks and Success on tick
    [n + 1]. *)
Theorem MoveForwardNode_run_to_threshold (cfg : Constants) (self : MoveForwardNode.t)
    (e : Env) (n : nat) :
  Qltb (inject_Z (Z.of_nat n) * SAMPLE_TIME cfg) 3 = true ->
  Qltb (inject_Z (Z.of_nat (S n)) * SAMPLE_TIME cfg) 3 = false ->
  fst (run_ticks (MoveForwardNode.execute cfg) (repeat false (S n))
         (snd (MoveForwardNode.enter (self, e))))
  = repeat (Normal (Some RUNNING)) n ++ [Normal (Some SUCCESS)].
Proof.
  intros Hbelow Hreached.
  assert (HT : (0 <= SAMPLE_TIME cfg)%Q).
  { apply Qlt_le_weak, (time_grows_positive _ n).
    apply Qltb_lt in Hbelow. apply Qltb_ge in Hreached.
    eapply Qlt_le_trans; eassumption. }
  apply (MoveForwardNode_run_from cfg n HT Hbelow Hreached n 0); reflexivity.
Qed.

(** [enter] of MoveForward, MoveInSpiral and Rotate sets the tick
    counter to zero, whatever it was. *)
Lemma leaf_enter_resets_call_count (cfg : Constants) :
  (forall self e,
      MoveForwardNode.call_count (fst (snd (MoveForwardNode.enter (self, e)))) = Some 0%Z)
  /\ (forall self e,
      MoveInSpiralNode.call_count (fst (snd (MoveInSpiralNode.enter (self, e)))) = Some 0%Z)
  /\ (forall self e,
      RotateNode.call_count (fst (snd (RotateNode.enter cfg (self, e)))) = Some 0%Z).
Proof. repeat split. Qed.

(** X26.  A MoveForward leaf entered again, whatever it did before,
    answers tick by tick as one entered for the first time, under the same
    sensor readings. *)
Lemma MoveForwardNode_reenter_as_fresh (cfg : Constants) (self : MoveForwardNode.t)
    (e : Env) (bumper : list bool) :
  MoveForwardNode.linear_speed self = FORWARD_SPEED cfg ->
  fst (run_ticks (MoveForwardNode.execute cfg) bumper
         (snd (MoveForwardNode.enter (self, e))))
  = fst (run_ticks (MoveForwardNode.execute cfg) bumper
           (snd (MoveForwardNode.enter (MoveForwardNode.init cfg, e)))).
Proof.
  intros Hls. destruct bumper as [|b bumper]; [reflexivity|].
  rewrite !run_ticks_cons.
  change (snd (MoveForwardNode.enter (self, e)))
    with (MoveForwardNode.mk (MoveForwardNode.linear_speed self) (Some 0%Z)
            (MoveForwardNode.time self), e).
  change (snd (MoveForwardNode.enter (MoveForwardNode.init cfg, e)))
    with (MoveForwardNode.mk (FORWARD_SPEED cfg) (Some 0%Z) None, e).
  cbn [fst snd].
  rewrite !(MoveForwardNode_execute_eq cfg _ _ 0%Z) by reflexivity.
  cbn [MoveForwardNode.linear_speed]. now rewrite Hls.
Qed.

(** X27.  A MoveInSpiral leaf entered again, whatever it did before,
    answers tick by tick as one entered for the first time, under the same
    sensor readings. *)
Lemma MoveInSpiralNode_reenter_as_fresh (cfg : Constants) (self : MoveInSpiralNode.t)
    (e : Env) (bumper : list bool) :
  MoveInSpiralNode.linear_speed self = FORWARD_SPEED cfg ->
  MoveInSpiralNode.angular_speed self = ANGULAR_SPEED cfg ->
  fst (run_ticks (MoveInSpiralNode.execute cfg) bumper
         (snd (MoveInSpiralNode.enter (self, e))))
  = fst (run_ticks (MoveInSpiralNode.execute cfg) bumper
           (snd (MoveInSpiralNode.enter (MoveInSpiralNode.init cfg, e)))).
Proof.
  intros Hls Has. destruct bumper as [|b bumper]; [reflexivity|].
  rewrite !run_ticks_cons.
  change (snd (MoveInSpiralNode.enter (self, e)))
    with (MoveInSpiralNode.mk (MoveInSpiralNode.angular_speed self)
            (MoveInSpiralNode.linear_speed self) (Some 0%Z)
            (MoveInSpiralNode.time self) (MoveInSpiralNode.radio self), e).
  change (snd (MoveInSpiralNode.enter (MoveInSpiralNode.init cfg, e)))
    with (MoveInSpiralNode.mk (ANGULAR_SPEED cfg) (FORWARD_SPEED cfg) (Some 0%Z)
            None None, e).
  cbn [fst snd].
  assert (Hsame :
    MoveInSpiralNode.execute cfg
      (MoveInSpiralNode.mk (MoveInSpiralNode.angular_speed self)
         (MoveInSpiralNode.linear_speed self) (Some 0%Z)
         (MoveInSpiralNode.time self) (MoveInSpiralNode.radio self), sense b e)
    = MoveInSpiralNode.execute cfg
        (MoveInSpiralNode.mk (ANGULAR_SPEED cfg) (FORWARD_SPEED cfg) (Some 0%Z)
           None None, sense b e)).
  { unfold MoveInSpiralNode.execute. unfold_method. now rewrite Hls, Has. }
  now rewrite Hsame.
Qed.


(** ** Rotate: sampling *)

(** [enter] of a Rotate leaf: the counter is reset and the next two draws
    of the generator give the direction and the duration. *)
Lemma RotateNode_enter_eq (cfg : Constants) (self : RotateNode.t) (e : Env) :
  RotateNode.enter cfg (self, e)
  = (Normal tt,
     (RotateNode.mk (Some 0%Z)
        (Some (-1 + (1 - -1) * draws (rng e) (cursor (rng e)))%Q)
        (Some (1 + (MOVE_FORWARD_TIME cfg - 1) * draws (rng e) (S (cursor (rng e))))%Q)
        (RotateNode.time self),
      {| agent := agent e;
         rng := {| draws := draws (rng e); cursor := S (S (cursor (rng e))) |} |})).
Proof. reflexivity. Qed.

(** No [execute] of a Rotate leaf touches the sampled direction, the
    sampled duration or the generator, and the only velocity it may
    command is the angular velocity signed by the direction. *)
Lemma RotateNode_execute_keeps_samples (cfg : Constants) (self : RotateNode.t) (e : Env) :
  let st := snd (RotateNode.execute cfg (self, e)) in
  RotateNode.random_angular_direction (fst st) = RotateNode.random_angular_direction self
  /\ RotateNode.roomba_turning_time (fst st) = RotateNode.roomba_turning_time self
  /\ rng (snd st) = rng e
  /\ (velocity_log (agent (snd st)) = velocity_log (agent e)
      \/ exists d,
          RotateNode.random_angular_direction self = Some d /\
          velocity_log (agent (snd st))
          = (0%Q, if Qltb 0 d then ANGULAR_SPEED cfg else (- ANGULAR_SPEED cfg)%Q)
              :: velocity_log (agent e)).
Proof.
  destruct self as [[count|] direction [turning|] time]; cbn;
    unfold RotateNode.execute; unfold_method; auto.
  destruct (Qltb _ turning); cbn.
  - destruct direction as [d|]; cbn; auto.
    destruct (Qltb 0 d) eqn:Hd; cbn; repeat split; right; exists d;
      rewrite Hd; auto.
  - destruct (Bool.eqb _ false); cbn; auto.
Qed.

Lemma run_ticks_cons_snd {T : Type} (execute : M (T * Env) PyStatus) (b : bool)
    (bumper : list bool) (st : T * Env) :
  snd (run_ticks execute (b :: bumper) st)
  = snd (run_ticks execute bumper (snd (execute (fst st, sense b (snd st))))).
Proof.
  cbn. destruct (execute _) as [r st']. cbn.
  now destruct (run_ticks execute bumper st').
Qed.

(** Over any number of ticks without a new [enter], a Rotate leaf keeps the
    direction and the duration it has, draws nothing, and commands nothing
    but the angular velocity signed by its direction. *)
Lemma RotateNode_activation_keeps_samples (cfg : Constants) (bumper : list bool) :
  forall (self : RotateNode.t) (e : Env) (d : Q),
    RotateNode.random_angular_direction self = Some d ->
    let st := snd (run_ticks (RotateNode.execute cfg) bumper (self, e)) in
    RotateNode.random_angular_direction (fst st) = Some d
    /\ RotateNode.roomba_turning_time (fst st) = RotateNode.roomba_turning_time self
    /\ rng (snd st) = rng e
    /\ exists k,
        velocity_log (agent (snd st))
        = repeat (0%Q, if Qltb 0 d then ANGULAR_SPEED cfg else (- ANGULAR_SPEED cfg)%Q) k
          ++ velocity_log (agent e).
Proof.
  induction bumper as [|b bumper IH]; intros self e d Hd.
  - cbn. split; [exact Hd|]. do 2 (split; [reflexivity|]). now exists 0%nat.
  - cbv zeta. rewrite run_ticks_cons_snd. cbn [fst snd].
    pose proof (RotateNode_execute_keeps_samples cfg self (sense b e)) as Hstep.
    destruct (RotateNode.execute cfg (self, sense b e)) as [r [self1 e1]].
    cbn [fst snd] in Hstep |- *. destruct Hstep as (Hd1 & Ht1 & Hg1 & Hlog1).
    rewrite Hd in Hd1. cbn [sense agent rng velocity_log] in Hg1, Hlog1.
    destruct (IH self1 e1 d Hd1) as (Hd2 & Ht2 & Hg2 & k & Hlog2).
    split; [exact Hd2|]. split; [congruence|]. split; [congruence|].
    destruct Hlog1 as [Hlog1 | (d' & Hd' & Hlog1)].
    + exists k. now rewrite Hlog2, Hlog1.
    + assert (d' = d) by congruence. subst d'.
      exists (S k). rewrite Hlog2, Hlog1.
      change (repeat ?a (S k)) with (a :: repeat a k).
      now rewrite repeat_cons, <- app_assoc.
Qed.

(** ** The state machine *)

(** One [update] of a machine whose current state is Rotate. *)
Lemma FiniteStateMachine_update_Rotate (cfg : Constants) (s : RotateState) (e : Env) :
  FiniteStateMachine_update cfg ({| state := Rotate s |}, e)
  = let turning_time :=
      (1 + (MOVE_FORWARD_TIME cfg - 1) * draws (rng e) (cursor (rng e)))%Q in
    let count := (rt_call_count s + 1)%Z in
    let time := (inject_Z count * SAMPLE_TIME cfg)%Q in
    let g := {| draws := draws (rng e); cursor := S (cursor (rng e)) |} in
    if Bool.eqb (bumper_state (agent e)) false && Qltb turning_time time then
      (Normal tt,
       ({| state := MoveForward (MoveForwardState_init cfg) |},
        {| agent := set_velocity (FORWARD_SPEED cfg) 0 (agent e); rng := g |}))
    else
      (Normal tt,
       ({| state := Rotate {| rt_time := time;
                              rt_call_count := count;
                              rt_random_angular_direction := rt_random_angular_direction s;
                              rt_roomba_turning_time := Some turning_time |} |},
        {| agent := set_velocity 0
                      (if Qltb 0 (rt_random_angular_direction s)
                       then ANGULAR_SPEED cfg else (- ANGULAR_SPEED cfg)%Q)
                      (agent e);
           rng := g |})).
Proof.
  unfold FiniteStateMachine_update, State_check_transition, State_execute,
    on_current, on_state, RotateState_check_transition, RotateState_execute,
    MoveForwardState_execute, change_state.
  unfold_method. unfold get_bumper_state.
  destruct (Bool.eqb (bumper_state (agent e)) false && Qltb _ _); cbn.
  - reflexivity.
  - now destruct (Qltb 0 (rt_random_angular_direction s)).
Qed.

(** C8.  A machine whose current state is MoveForward, updated while the
    bumper is set: when that [update] returns, the current state is a
    GoBack state as constructed (its counters at zero), and the one
    velocity commanded during the update is the backward linear velocity
    with no rotation, commanded by that GoBack state's [execute]. *)
Theorem MoveForwardState_bumper_goes_back_same_update
    (cfg : Constants) (s : MoveForwardState) (e : Env) :
  bumper_state (agent e) = true ->
  FiniteStateMachine_update cfg ({| state := MoveForward s |}, e)
  = (Normal tt,
     ({| state := GoBack (GoBackState_init cfg) |},
      {| agent := set_velocity (BACKWARD_SPEED cfg) 0 (agent e); rng := rng e |}))
  /\ State_check_transition cfg ({| state := MoveForward s |}, e)
     = (Normal tt, ({| state := GoBack (GoBackState_init cfg) |}, e))
  /\ State_execute cfg ({| state := GoBack (GoBackState_init cfg) |}, e)
     = (Normal tt,
        ({| state := GoBack (GoBackState_init cfg) |},
         {| agent := set_velocity (BACKWARD_SPEED cfg) 0 (agent e); rng := rng e |})).
Proof.
  intros Hb.
  assert (Hcheck : State_check_transition cfg ({| state := MoveForward s |}, e)
                   = (Normal tt, ({| state := GoBack (GoBackState_init cfg) |}, e))).
  { unfold State_check_transition, on_current, MoveForwardState_check_transition,
      change_state.
    unfold_method. unfold get_bumper_state. rewrite Hb; cbn.
    rewrite andb_false_r; cbn. now destruct e. }
  assert (Hexec : State_execute cfg ({| state := GoBack (GoBackState_init cfg) |}, e)
                  = (Normal tt,
                     ({| state := GoBack (GoBackState_init cfg) |},
                      {| agent := set_velocity (BACKWARD_SPEED cfg) 0 (agent e);
                         rng := rng e |}))) by reflexivity.
  split; [|split]; auto.
  unfold FiniteStateMachine_update, bind. now rewrite Hcheck.
Qed.

(** Sampling in the Rotate leaf and in the Rotate state.  The leaf: [enter]
    takes exactly two draws, the first for the direction and the second
    for the turning duration; over the ticks that follow, until the next
    [enter], direction and duration stay as sampled, nothing more is drawn,
    and every velocity commanded is the angular velocity signed by that
    direction.  The state: its construction takes one draw, for the
    direction; every [update] in that state takes one more draw and makes
    it the turning duration; as long as the machine stays in the state,
    the direction is unchanged and the velocity commanded is the angular
    velocity signed by it. *)
Theorem Rotate_sampling (cfg : Constants) :
  (forall (self : RotateNode.t) (e : Env),
      let u1 := draws (rng e) (cursor (rng e)) in
      let u2 := draws (rng e) (S (cursor (rng e))) in
      let d := (-1 + (1 - -1) * u1)%Q in
      let t := (1 + (MOVE_FORWARD_TIME cfg - 1) * u2)%Q in
      let g := {| draws := draws (rng e); cursor := S (S (cursor (rng e))) |} in
      let entered := (RotateNode.mk (Some 0%Z) (Some d) (Some t) (RotateNode.time self),
                      {| agent := agent e; rng := g |}) in
      RotateNode.enter cfg (self, e) = (Normal tt, entered)
      /\ forall bumper,
          let st := snd (run_ticks (RotateNode.execute cfg) bumper entered) in
          RotateNode.random_angular_direction (fst st) = Some d
          /\ RotateNode.roomba_turning_time (fst st) = Some t
          /\ rng (snd st) = g
          /\ exists k,
              velocity_log (agent (snd st))
              = repeat (0%Q, if Qltb 0 d then ANGULAR_SPEED cfg
                             else (- ANGULAR_SPEED cfg)%Q) k
                ++ velocity_log (agent e))
  /\ (forall (e : Env),
      RotateState_init e
      = (Normal {| rt_time := 0;
                   rt_call_count := 0;
                   rt_random_angular_direction :=
                     (-1 + (1 - -1) * draws (rng e) (cursor (rng e)))%Q;
                   rt_roomba_turning_time := None |},
         {| agent := agent e;
            rng := {| draws := draws (rng e); cursor := S (cursor (rng e)) |} |}))
  /\ (forall (s : RotateState) (e : Env),
      let u := draws (rng e) (cursor (rng e)) in
      let t := (1 + (MOVE_FORWARD_TIME cfg - 1) * u)%Q in
      let st := snd (FiniteStateMachine_update cfg ({| state := Rotate s |}, e)) in
      rng (snd st) = {| draws := draws (rng e); cursor := S (cursor (rng e)) |}
      /\ forall s',
          state (fst st) = Rotate s' ->
          rt_roomba_turning_time s' = Some t
          /\ rt_random_angular_direction s' = rt_random_angular_direction s
          /\ velocity_log (agent (snd st))
             = (0%Q, if Qltb 0 (rt_random_angular_direction s)
                     then ANGULAR_SPEED cfg else (- ANGULAR_SPEED cfg)%Q)
                 :: velocity_log (agent e)).
Proof.
  split; [|split].
  - intros self e u1 u2 d t g entered. split; [apply RotateNode_enter_eq|].
    intros bumper.
    apply (RotateNode_activation_keeps_samples cfg bumper
             (RotateNode.mk (Some 0%Z) (Some d) (Some t) (RotateNode.time self))
             {| agent := agent e; rng := g |} d).
    reflexivity.
  - reflexivity.
  - intros s e u t st.
    unfold st. rewrite FiniteStateMachine_update_Rotate. cbv zeta.
    destruct (Bool.eqb (bumper_state (agent e)) false && Qltb _ _);
      cbn [fst snd state rng agent]; split; try reflexivity.
    + intros s' Hs'. discriminate.
    + intros s' Hs'. injection Hs' as <-. cbn. auto.
Qed.

(** ** The Roomba tree: the Rotate leaf inside the second sequence *)

(** Past its sampled duration and with the bumper set, [RotateNode.execute]
    takes neither branch of its [if]/[elif] and answers [None]; one more
    call only moves the counter further past the duration. *)
Lemma RotateNode_stuck_answers_None (cfg : Constants) :
  (0 <= SAMPLE_TIME cfg)%Q ->
  forall w : Leaves,
    Rotate_stuck cfg w ->
    exists w', Leaf_execute cfg rotate_node w = (Normal None, w') /\ Rotate_stuck cfg w'.
Proof.
  intros HT w (Hb & count & turning & Hc & Ht & Hle).
  destruct w as [mf sp gb [rc rd rt tm] [ag g]]. cbn in Hb, Hc, Ht.
  subst rc rt. eexists. split.
  - unfold Leaf_execute, on_leaf, RotateNode.execute. unfold_method.
    apply Qltb_ge in Hle. rewrite Hle. unfold get_bumper_state. rewrite Hb. cbn.
    reflexivity.
  - split; [exact Hb|]. exists (count + 1)%Z, turning. cbn.
    split; [reflexivity|]. split; [reflexivity|].
    eapply Qle_trans; [exact Hle|].
    rewrite (inject_Z_plus (count + 1) 1).
    setoid_replace ((inject_Z (count + 1) + inject_Z 1) * SAMPLE_TIME cfg)%Q
      with (inject_Z (count + 1) * SAMPLE_TIME cfg + SAMPLE_TIME cfg)%Q by ring.
    rewrite <- (Qplus_0_r (inject_Z (count + 1) * SAMPLE_TIME cfg)) at 1.
    now apply Qplus_le_r.
Qed.

(** In the Roomba tree this makes the second sequence spin: with Rotate as
    its running child, stuck as above, [execute] exhausts any fuel. *)
Lemma SequenceTwo_spins_when_Rotate_stuck (cfg : Constants)
    (self : CompositeNode Leaf) (tk : Tick Leaves Leaf) (fuel : nat) :
  (0 <= SAMPLE_TIME cfg)%Q ->
  running_child self = Some rotate_node ->
  Rotate_stuck cfg (world tk) ->
  fst (SequenceNode_execute Leaves Leaf Leaf_eq_dec (Leaf_enter cfg) (Leaf_execute cfg)
         fuel (self, tk)) = OutOfFuel.
Proof.
  intros HT Hrc Hstuck.
  rewrite (sequence_execute_resume _ _ _ _ _ _ rotate_node Hrc).
  apply (sequence_loop_diverges Leaf_eq_dec (Leaf_enter cfg) (Leaf_execute cfg)
           (Rotate_stuck cfg) rotate_node); auto.
  now apply RotateNode_stuck_answers_None.
Qed.

(** X25.  With the root selector on the second sequence, that sequence on
    Rotate, and Rotate past its sampled duration while the bumper is set,
    the whole Roomba tree hangs: [update] exhausts any fuel. *)
Lemma RoombaBehaviorTree_update_hangs (cfg : Constants) (fuel : nat)
    (tree : BehaviorTree unit) (tk : Tick Roots unit) :
  (0 <= SAMPLE_TIME cfg)%Q ->
  root tree = Some tt ->
  running_child (Root (world tk)) = Some sequence_two ->
  running_child (SequenceTwo (world (under (world tk)))) = Some rotate_node ->
  Rotate_stuck cfg (world (below (world (under (world tk))))) ->
  fst (RoombaBehaviorTree_update cfg fuel (tree, tk)) = OutOfFuel.
Proof.
  intros HT Hroot Hrc Hrc2 Hstuck.
  unfold RoombaBehaviorTree_update, BehaviorTree_update, bind, get_self,
    call_execute, outer, ret; cbn. rewrite Hroot; cbn.
  unfold Root_execute.
  rewrite (selector_execute_resume _ _ _ _ _ _ sequence_two Hrc).
  destruct fuel as [|fuel]; [reflexivity|].
  cbn [SelectorNode_loop].
  unfold bind at 1. unfold execute_running_child, bind, get_self, getattr,
    call_execute, outer, ret; cbn. rewrite Hrc; cbn.
  unfold Branch_execute, on_branch.
  pose proof (SequenceTwo_spins_when_Rotate_stuck cfg
                (SequenceTwo (world (under (world tk))))
                (below (world (under (world tk)))) (S fuel)
                HT Hrc2 Hstuck) as Hspin.
  destruct (SequenceNode_execute _ _ _ _ _ (S fuel) _) as [r [self' tk']].
  cbn in Hspin. subst r. reflexivity.
Qed.

(** * The statements on sample data *)

(** The first update of a Roomba tree just built, bumper clear: the root
    selector enters the first sequence, which enters MoveForward, which
    commands the forward velocity and is Running. *)
Example RoombaBehaviorTree_first_update :
  fst sample_first_update = Normal tt
  /\ running_child (Root (world (snd (snd sample_first_update)))) = Some sequence_one
  /\ calls (below (world (under (world (snd (snd sample_first_update))))))
     = [Enter move_forward_node; Execute move_forward_node]
  /\ velocity_log
       (agent (env (world (below (world (under (world (snd (snd sample_first_update)))))))))
     = [(FORWARD_SPEED sample_constants, 0%Q)].
Proof. repeat split. Qed.

Lemma sample_forward_NoDup (rc : option Leaf) : NoDup (children (sample_forward rc)).
Proof. cbn. repeat constructor; cbn; intuition discriminate. Qed.



(** C3 on runs that return: a Running tick and a Failure tick of the
    sequence, a Success tick of the selector. *)
Lemma running_child_null_unless_running_witness :
  (sample_sequence_execute 1
     (sample_forward None, sample_tick (world_entered false))
   = (Normal (Some RUNNING),
      (sample_forward (Some move_forward_node),
       snd (snd (sample_sequence_execute 1
                   (sample_forward None, sample_tick (world_entered false)))))))
  /\ (exists status,
         Some RUNNING = Some status
         /\ (running_child (sample_forward (Some move_forward_node)) = None
             <-> status <> RUNNING))
  /\ (sample_sequence_execute 1
        (sample_forward None, sample_tick (world_entered true))
      = (Normal (Some FAILURE),
         (sample_forward None,
          snd (snd (sample_sequence_execute 1
                      (sample_forward None, sample_tick (world_entered true)))))))
  /\ (exists status,
         Some FAILURE = Some status
         /\ (running_child (sample_forward None) = None <-> status <> RUNNING))
  /\ (sample_selector_execute 1
        (sample_forward (Some move_forward_node), sample_tick world_forward_done)
      = (Normal (Some SUCCESS),
         (sample_forward None,
          snd (snd (sample_selector_execute 1
                      (sample_forward (Some move_forward_node),
                       sample_tick world_forward_done))))))
  /\ (exists status,
         Some SUCCESS = Some status
         /\ (running_child (sample_forward None) = None <-> status <> RUNNING)).
Proof.
  destruct (@running_child_null_unless_running Leaves Leaf Leaf_eq_dec
              (Leaf_enter sample_constants) (Leaf_execute sample_constants))
    as (_ & _ & _ & Hseq & Hsel).
  split; [reflexivity|]. split.
  { apply (Hseq 1%nat (sample_forward None) (sample_tick (world_entered false))
             (Some RUNNING) (sample_forward (Some move_forward_node))
             (snd (snd (sample_sequence_execute 1
                          (sample_forward None, sample_tick (world_entered false)))))).
    reflexivity. }
  split; [reflexivity|]. split.
  { apply (Hseq 1%nat (sample_forward None) (sample_tick (world_entered true))
             (Some FAILURE) (sample_forward None)
             (snd (snd (sample_sequence_execute 1
                          (sample_forward None, sample_tick (world_entered true)))))).
    reflexivity. }
  split; [reflexivity|].
  apply (Hsel 1%nat (sample_forward (Some move_forward_node))
           (sample_tick world_forward_done) (Some SUCCESS) (sample_forward None)
           (snd (snd (sample_selector_execute 1
                        (sample_forward (Some move_forward_node),
                         sample_tick world_forward_done))))).
  reflexivity.
Defined.

(** C4 where the configured [MOVE_FORWARD_TIME] is 5 sample periods: the
    claim announces Running on ticks 1 to 4 and Success on tick 5; the
    leaf, whose threshold is the literal 3, succeeds on tick 3. *)
Theorem MoveForwardNode_ignores_MOVE_FORWARD_TIME :
  Qceiling (MOVE_FORWARD_TIME sample_constants / SAMPLE_TIME sample_constants) = 5%Z
  /\ fst (run_ticks (MoveForwardNode.execute sample_constants) (repeat false 5)
            (snd (MoveForwardNode.enter
                    (MoveForwardNode.init sample_constants, sample_env false))))
     = [Normal (Some RUNNING); Normal (Some RUNNING); Normal (Some SUCCESS);
        Normal (Some SUCCESS); Normal (Some SUCCESS)].
Proof. split; reflexivity. Qed.

(** [GoBackNode.enter] is [pass]: it changes nothing, the counter
    included. *)
Lemma GoBackNode_enter_changes_nothing (self : GoBackNode.t) (e : Env) :
  GoBackNode.enter (self, e) = (Normal tt, (self, e)).
Proof. reflexivity. Qed.

(** C5 on the GoBack leaf, [GO_BACK_TIME] being 2 sample periods and the
    bumper clear: a first activation is Running, Running, Success; after a
    second [enter] the counter still stands at 3 and the leaf succeeds at
    once, on every tick. *)
Theorem GoBackNode_second_activation_differs :
  fst (run_ticks (GoBackNode.execute sample_constants) [false; false; false]
         (snd (GoBackNode.enter (GoBackNode.init sample_constants, sample_env false))))
  = [Normal (Some RUNNING); Normal (Some RUNNING); Normal (Some SUCCESS)]
  /\ GoBackNode.call_count
       (fst (snd (GoBackNode.enter
                    (snd (run_ticks (GoBackNode.execute sample_constants)
                            [false; false; false]
                            (snd (GoBackNode.enter
                                    (GoBackNode.init sample_constants,
                                     sample_env false))))))))
     = 3%Z
  /\ fst (run_ticks (GoBackNode.execute sample_constants) [false; false; false]
            (snd (GoBackNode.enter
                    (snd (run_ticks (GoBackNode.execute sample_constants)
                            [false; false; false]
                            (snd (GoBackNode.enter
                                    (GoBackNode.init sample_constants,
                                     sample_env false))))))))
     = [Normal (Some SUCCESS); Normal (Some SUCCESS); Normal (Some SUCCESS)].
Proof. repeat split. Qed.



(** C7 as stated fails: [update] of a tree without root returns normally,
    with nothing changed; it raises nothing. *)
Lemma BehaviorTree_update_without_root_returns :
  BehaviorTree_update Leaves Leaf (Leaf_execute sample_constants)
    ({| root := None |}, sample_tick (world_entered false))
  = (Normal tt, ({| root := None |}, sample_tick (world_entered false)))
  /\ ~ (exists error,
          fst (BehaviorTree_update Leaves Leaf (Leaf_execute sample_constants)
                 ({| root := None |}, sample_tick (world_entered false)))
          = Raised error).
Proof.
  split; [reflexivity|]. intros (error & H). discriminate.
Qed.

(** C8 on a machine just constructed in MoveForward, bumper set. *)
Lemma MoveForwardState_bumper_goes_back_same_update_witness :
  bumper_state (agent (sample_env true)) = true
  /\ FiniteStateMachine_update sample_constants
       ({| state := MoveForward (MoveForwardState_init sample_constants) |},
        sample_env true)
     = (Normal tt,
        ({| state := GoBack (GoBackState_init sample_constants) |},
         {| agent := set_velocity (BACKWARD_SPEED sample_constants) 0
                       (agent (sample_env true));
            rng := rng (sample_env true) |})).
Proof.
  split; [reflexivity|].
  apply (MoveForwardState_bumper_goes_back_same_update sample_constants
           (MoveForwardState_init sample_constants) (sample_env true)).
  reflexivity.
Defined.

(** C9 on the state machine, at a concrete run.  A Rotate state is
    constructed and the machine is updated twice with the bumper set, so it
    stays in that state (the counter goes from 1 to 2, one activation).
    The two updates leave two different turning durations, 2 and then 3/2:
    [check_transition] samples the duration again on each tick, where the
    Rotate leaf samples it once, in [enter]. *)
Theorem RotateState_turning_time_resampled :
  exists s0 e0 s1 s2 t1 t2,
    RotateState_init (binary_env true) = (Normal s0, e0)
    /\ state (fst (snd (FiniteStateMachine_update sample_constants
                          ({| state := Rotate s0 |}, e0))))
       = Rotate s1
    /\ state (fst (snd (FiniteStateMachine_update sample_constants
                          (snd (FiniteStateMachine_update sample_constants
                                  ({| state := Rotate s0 |}, e0))))))
       = Rotate s2
    /\ rt_call_count s1 = 1%Z
    /\ rt_call_count s2 = 2%Z
    /\ rt_random_angular_direction s1 = rt_random_angular_direction s0
    /\ rt_random_angular_direction s2 = rt_random_angular_direction s0
    /\ rt_roomba_turning_time s1 = Some t1
    /\ rt_roomba_turning_time s2 = Some t2
    /\ (t1 == 2)%Q
    /\ (t2 == 3 # 2)%Q
    /\ ~ (t1 == t2)%Q.
Proof.
  do 6 eexists.
  split; [reflexivity|].
  split; [vm_compute; reflexivity|]. split; [vm_compute; reflexivity|].
  split; [reflexivity|]. split; [reflexivity|].
  split; [reflexivity|]. split; [reflexivity|].
  split; [reflexivity|]. split; [reflexivity|].
  split; [reflexivity|]. split; [reflexivity|].
  intros H. discriminate H.
Qed.

Lemma world_rotate_stuck_is_stuck :
  Rotate_stuck sample_constants world_rotate_stuck.
Proof.
  split; [reflexivity|]. exists 1%Z, 1%Q.
  split; [reflexivity|]. split; [reflexivity|]. apply Qle_bool_iff; reflexivity.
Qed.


(** * Further properties *)

(** ** Leaf nodes *)

Lemma Qeq_bool_false_iff (x y : Q) : Qeq_bool x y = false <-> ~ (x == y)%Q.
Proof.
  split.
  - intros H E. apply Qeq_bool_iff in E. congruence.
  - intros H. destruct (Qeq_bool x y) eqn:E; [|reflexivity].
    apply Qeq_bool_iff in E. contradiction.
Qed.

(** X9.  [MoveInSpiralNode.execute] on an entered leaf whose spiral radius
    [INITIAL_RADIUS_SPIRAL + SPIRAL_FACTOR * time] is not zero, [time]
    being the new tick count times the sample period.  While [time] is
    below the literal 20: with the bumper clear it commands the leaf's
    linear speed and the angular speed [ANGULAR_SPEED / radius] and returns
    Running; with the bumper set it returns Failure and commands nothing.
    From [time] 20 on it returns Success, whatever the bumper. *)
Theorem MoveInSpiralNode_execute_cases (cfg : Constants) (self : MoveInSpiralNode.t)
    (e : Env) (count : Z) :
  MoveInSpiralNode.call_count self = Some count ->
  let time := (inject_Z (count + 1) * SAMPLE_TIME cfg)%Q in
  let radius := (INITIAL_RADIUS_SPIRAL cfg + SPIRAL_FACTOR cfg * time)%Q in
  let self' := MoveInSpiralNode.mk (MoveInSpiralNode.angular_speed self)
                 (MoveInSpiralNode.linear_speed self) (Some (count + 1)%Z)
                 (Some time) (Some radius) in
  ~ (radius == 0)%Q ->
  ((time < 20)%Q -> bumper_state (agent e) = false ->
   MoveInSpiralNode.execute cfg (self, e)
   = (Normal (Some RUNNING),
      (self', {| agent := set_velocity (MoveInSpiralNode.linear_speed self)
                            (ANGULAR_SPEED cfg / radius) (agent e);
                 rng := rng e |})))
  /\ ((time < 20)%Q -> bumper_state (agent e) = true ->
      MoveInSpiralNode.execute cfg (self, e) = (Normal (Some FAILURE), (self', e)))
  /\ ((20 <= time)%Q ->
      MoveInSpiralNode.execute cfg (self, e) = (Normal (Some SUCCESS), (self', e))).
Proof.
  intros Hc time radius self' Hr.
  apply Qeq_bool_false_iff in Hr.
  unfold MoveInSpiralNode.execute. unfold_method. rewrite Hc; cbn.
  fold time. fold radius. rewrite Hr. cbn. unfold get_bumper_state.
  split; [|split].
  - intros Hlt Hb. apply Qltb_lt in Hlt. rewrite Hlt, Hb. reflexivity.
  - intros Hlt Hb. apply Qltb_lt in Hlt. rewrite Hlt, Hb. now destruct e.
  - intros Hge. apply Qltb_ge in Hge. rewrite Hge. now destruct e.
Qed.

(** X10.  When the spiral radius is zero, [MoveInSpiralNode.execute]
    raises [ZeroDivisionError], whatever the time and the bumper: the
    division comes before the tests.  The tick has been counted and [time]
    and [radio] stored; no velocity is commanded. *)
Theorem MoveInSpiralNode_execute_zero_radius (cfg : Constants)
    (self : MoveInSpiralNode.t) (e : Env) (count : Z) :
  MoveInSpiralNode.call_count self = Some count ->
  let time := (inject_Z (count + 1) * SAMPLE_TIME cfg)%Q in
  let radius := (INITIAL_RADIUS_SPIRAL cfg + SPIRAL_FACTOR cfg * time)%Q in
  (radius == 0)%Q ->
  MoveInSpiralNode.execute cfg (self, e)
  = (Raised ZeroDivisionError,
     (MoveInSpiralNode.mk (MoveInSpiralNode.angular_speed self)
        (MoveInSpiralNode.linear_speed self) (Some (count + 1)%Z)
        (Some time) (Some radius), e)).
Proof.
  intros Hc time radius Hr. apply Qeq_bool_iff in Hr.
  unfold MoveInSpiralNode.execute. unfold_method. rewrite Hc; cbn.
  fold time. fold radius. rewrite Hr. reflexivity.
Qed.

(** X11.  A MoveForward, MoveInSpiral or Rotate leaf executed as
    constructed, before any [enter], raises [AttributeError] (its counter
    does not exist yet) and changes nothing; a GoBack leaf, whose counter
    is created by the constructor, executes normally. *)
Theorem leaf_execute_before_enter (cfg : Constants) (e : Env) :
  MoveForwardNode.execute cfg (MoveForwardNode.init cfg, e)
  = (Raised AttributeError, (MoveForwardNode.init cfg, e))
  /\ MoveInSpiralNode.execute cfg (MoveInSpiralNode.init cfg, e)
     = (Raised AttributeError, (MoveInSpiralNode.init cfg, e))
  /\ RotateNode.execute cfg (RotateNode.init, e)
     = (Raised AttributeError, (RotateNode.init, e))
  /\ exists status st,
      GoBackNode.execute cfg (GoBackNode.init cfg, e) = (Normal (Some status), st).
Proof.
  split; [now destruct e|]. split; [now destruct e|]. split; [now destruct e|].
  unfold GoBackNode.execute. unfold_method.
  destruct (Qltb _ _ && _); eauto.
Qed.

(** X12.  [RotateNode.execute] on an entered leaf with direction [d] and
    turning duration [t], [time] being the new tick count times the sample
    period.  While [time < t] it returns Running and commands a rotation in
    place, [ANGULAR_SPEED] if [d > 0] and [- ANGULAR_SPEED] otherwise,
    whatever the bumper.  Once [t <= time], with the bumper clear, it
    returns Failure and commands nothing. *)
Theorem RotateNode_execute_cases (cfg : Constants) (self : RotateNode.t) (e : Env)
    (count : Z) (d t : Q) :
  RotateNode.call_count self = Some count ->
  RotateNode.random_angular_direction self = Some d ->
  RotateNode.roomba_turning_time self = Some t ->
  let time := (inject_Z (count + 1) * SAMPLE_TIME cfg)%Q in
  let self' := RotateNode.mk (Some (count + 1)%Z) (Some d) (Some t) (Some time) in
  ((time < t)%Q ->
   RotateNode.execute cfg (self, e)
   = (Normal (Some RUNNING),
      (self', {| agent := set_velocity 0
                            (if Qltb 0 d then ANGULAR_SPEED cfg
                             else (- ANGULAR_SPEED cfg)%Q) (agent e);
                 rng := rng e |})))
  /\ ((t <= time)%Q -> bumper_state (agent e) = false ->
      RotateNode.execute cfg (self, e) = (Normal (Some FAILURE), (self', e))).
Proof.
  intros Hc Hd Ht time self'.
  unfold RotateNode.execute. unfold_method. rewrite Hc; cbn. rewrite Ht; cbn.
  fold time. rewrite Hd. unfold get_bumper_state. split.
  - intros Hlt. apply Qltb_lt in Hlt. rewrite Hlt. cbn.
    now destruct (Qltb 0 d).
  - intros Hge Hb. apply Qltb_ge in Hge. rewrite Hge, Hb. now destruct e.
Qed.

(** X13.  What the leaves never answer.  [RotateNode.execute] never
    returns Success; [GoBackNode.execute] always returns, with Running or
    Success, never Failure; [MoveForwardNode.execute] and
    [MoveInSpiralNode.execute], when they return, return a status, never
    [None]. *)
Theorem leaf_execute_status_ranges (cfg : Constants) (e : Env) :
  (forall self, fst (RotateNode.execute cfg (self, e)) <> Normal (Some SUCCESS))
  /\ (forall self,
        fst (GoBackNode.execute cfg (self, e)) = Normal (Some RUNNING)
        \/ fst (GoBackNode.execute cfg (self, e)) = Normal (Some SUCCESS))
  /\ (forall self, fst (MoveForwardNode.execute cfg (self, e)) <> Normal None)
  /\ (forall self, fst (MoveInSpiralNode.execute cfg (self, e)) <> Normal None).
Proof.
  split; [|split; [|split]].
  - intros [[c|] [d|] [t|] tm]; unfold RotateNode.execute; unfold_method;
      try discriminate;
      repeat match goal with |- context [if ?b then _ else _] => destruct b end;
      cbn; discriminate.
  - intros self. unfold GoBackNode.execute. unfold_method.
    destruct (Qltb _ _ && _); cbn; auto.
  - intros [ls [c|] tm]; unfold MoveForwardNode.execute; unfold_method;
      try discriminate;
      repeat match goal with |- context [if ?b then _ else _] => destruct b end;
      cbn; discriminate.
  - intros [a ls [c|] tm r]; unfold MoveInSpiralNode.execute; unfold_method;
      try discriminate;
      repeat match goal with |- context [if ?b then _ else _] => destruct b end;
      cbn; discriminate.
Qed.

Lemma GoBackNode_run_from (cfg : Constants) (n : nat) :
  (0 <= SAMPLE_TIME cfg)%Q ->
  Qltb (GO_BACK_TIME cfg) (inject_Z (Z.of_nat n) * SAMPLE_TIME cfg) = false ->
  Qltb (GO_BACK_TIME cfg) (inject_Z (Z.of_nat (S n)) * SAMPLE_TIME cfg) = true ->
  forall (bumper : list bool) (k : nat) (self : GoBackNode.t) (e : Env),
    GoBackNode.call_count self = Z.of_nat k ->
    (k + List.length bumper = n)%nat ->
    fst (run_ticks (GoBackNode.execute cfg) (bumper ++ [false]) (self, e))
    = repeat (Normal (Some RUNNING)) (List.length bumper) ++ [Normal (Some SUCCESS)].
Proof.
  intros HT Hnot Hpast.
  induction bumper as [|b bumper IH]; intros k self e Hc Hk.
  - cbn [app List.length repeat]. rewrite run_ticks_cons. cbn [fst snd run_ticks].
    cbn [List.length] in Hk.
    unfold GoBackNode.execute; unfold_method; rewrite Hc.
    replace (Z.of_nat k + 1)%Z with (Z.of_nat (S n)) by lia.
    rewrite Hpast. reflexivity.
  - cbn [app List.length]. rewrite run_ticks_cons. cbn [fst snd].
    cbn [List.length] in Hk.
    assert (Hstep : GoBackNode.execute cfg (self, sense b e)
                    = (Normal (Some RUNNING),
                       (GoBackNode.mk (GoBackNode.linear_speed self)
                          (Z.of_nat k + 1)%Z
                          (Some (inject_Z (Z.of_nat k + 1) * SAMPLE_TIME cfg)%Q),
                        {| agent := set_velocity (BACKWARD_SPEED cfg) 0
                                      (agent (sense b e));
                           rng := rng (sense b e) |}))).
    { unfold GoBackNode.execute. unfold_method. rewrite Hc.
      replace (Z.of_nat k + 1)%Z with (Z.of_nat (S k)) by lia.
      rewrite (time_not_above_earlier _ (GO_BACK_TIME cfg) (S k) n HT)
        by (lia || exact Hnot).
      reflexivity. }
    rewrite Hstep. cbn [fst snd repeat app].
    rewrite (IH (S k)); [reflexivity|cbn; lia|lia].
Qed.

(** X14.  How many ticks the GoBack leaf runs, by the node's own [time],
    the tick count times the sample period.  If the time of tick [n] has
    not exceeded [GO_BACK_TIME] and the time of tick [n + 1] has, the leaf
    from its construction returns Running on its first [n] ticks, whatever
    the bumper, and Success on tick [n + 1] if the bumper is then
    clear. *)
Theorem GoBackNode_run (cfg : Constants) (e : Env) (bumper : list bool) :
  Qltb (GO_BACK_TIME cfg)
    (inject_Z (Z.of_nat (List.length bumper)) * SAMPLE_TIME cfg) = false ->
  Qltb (GO_BACK_TIME cfg)
    (inject_Z (Z.of_nat (S (List.length bumper))) * SAMPLE_TIME cfg) = true ->
  fst (run_ticks (GoBackNode.execute cfg) (bumper ++ [false])
         (snd (GoBackNode.enter (GoBackNode.init cfg, e))))
  = repeat (Normal (Some RUNNING)) (List.length bumper) ++ [Normal (Some SUCCESS)].
Proof.
  intros Hnot Hpast.
  assert (HT : (0 <= SAMPLE_TIME cfg)%Q).
  { apply Qlt_le_weak, (time_grows_positive _ (List.length bumper)).
    apply Qltb_ge in Hnot. apply Qltb_lt in Hpast.
    eapply Qle_lt_trans; eassumption. }
  change (snd (GoBackNode.enter (GoBackNode.init cfg, e)))
    with (GoBackNode.init cfg, e).
  apply (GoBackNode_run_from cfg (List.length bumper) HT Hnot Hpast bumper 0);
    reflexivity.
Qed.

(** ** The state machine *)

Ltac unfold_update :=
  unfold FiniteStateMachine_update, State_check_transition, State_execute,
    on_current, on_state,
    MoveForwardState_check_transition, MoveForwardState_execute,
    MoveInSpiralState_check_transition, MoveInSpiralState_execute,
    GoBackState_check_transition, GoBackState_execute,
    RotateState_check_transition, RotateState_execute, RotateState_init,
    change_state;
  unfold_method; unfold get_bumper_state.

(** X16.  One [update] of a machine in MoveForward, the bumper clear,
    [time] being the state's new tick count times the sample period.  While
    [time] has not exceeded [MOVE_FORWARD_TIME] the machine stays in the
    state and commands its linear speed, no rotation.  Once it has, the
    machine moves to a MoveInSpiral state as constructed, whose [execute]
    runs in the same update with its own time still 0: over the radius
    [INITIAL_RADIUS_SPIRAL + SPIRAL_FACTOR * 0] it commands the forward
    speed with the rotation [ANGULAR_SPEED / radius], or raises
    [ZeroDivisionError] when that radius is zero. *)
Theorem MoveForwardState_update_cases (cfg : Constants) (s : MoveForwardState)
    (e : Env) :
  bumper_state (agent e) = false ->
  let count := (mf_call_count s + 1)%Z in
  let time := (inject_Z count * SAMPLE_TIME cfg)%Q in
  let radius := (INITIAL_RADIUS_SPIRAL cfg + SPIRAL_FACTOR cfg * 0)%Q in
  let spiral := {| sp_linear_speed := FORWARD_SPEED cfg;
                   sp_angular_speed := ANGULAR_SPEED cfg;
                   sp_call_count := 0;
                   sp_radio := radius;
                   sp_time := 0 |} in
  ((time <= MOVE_FORWARD_TIME cfg)%Q ->
   FiniteStateMachine_update cfg ({| state := MoveForward s |}, e)
   = (Normal tt,
      ({| state := MoveForward {| mf_linear_speed := mf_linear_speed s;
                                  mf_call_count := count;
                                  mf_time := time |} |},
       {| agent := set_velocity (mf_linear_speed s) 0 (agent e); rng := rng e |})))
  /\ ((MOVE_FORWARD_TIME cfg < time)%Q -> ~ (radius == 0)%Q ->
      FiniteStateMachine_update cfg ({| state := MoveForward s |}, e)
      = (Normal tt,
         ({| state := MoveInSpiral spiral |},
          {| agent := set_velocity (FORWARD_SPEED cfg) (ANGULAR_SPEED cfg / radius)
                        (agent e);
             rng := rng e |})))
  /\ ((MOVE_FORWARD_TIME cfg < time)%Q -> (radius == 0)%Q ->
      FiniteStateMachine_update cfg ({| state := MoveForward s |}, e)
      = (Raised ZeroDivisionError, ({| state := MoveInSpiral spiral |}, e))).
Proof.
  intros Hb count time radius spiral.
  split; [|split].
  - intros Hle. apply Qltb_ge in Hle. unfold_update. rewrite Hb; cbn.
    fold count. fold time. rewrite Hle. cbn. reflexivity.
  - intros Hlt Hr. apply Qltb_lt in Hlt. apply Qeq_bool_false_iff in Hr.
    unfold_update. rewrite Hb; cbn. fold count. fold time. rewrite Hlt. cbn.
    fold radius. rewrite Hr. reflexivity.
  - intros Hlt Hr. apply Qltb_lt in Hlt. apply Qeq_bool_iff in Hr.
    unfold_update. rewrite Hb; cbn. fold count. fold time. rewrite Hlt. cbn.
    fold radius. rewrite Hr. now destruct e.
Qed.

(** X17.  One [update] of a machine in MoveInSpiral, [time] being the
    state's new tick count times the sample period.  With the bumper set
    the machine moves to a GoBack state as constructed, which commands the
    backward speed in the same update.  With the bumper clear: once [time]
    exceeds [MOVE_IN_SPIRAL_TIME] it moves to a MoveForward state as
    constructed, which commands the forward speed; before that it stays in
    the state, stores the radius
    [INITIAL_RADIUS_SPIRAL + SPIRAL_FACTOR * time] and commands its linear
    speed with the rotation [ANGULAR_SPEED / radius], or raises
    [ZeroDivisionError] when the radius is zero. *)
Theorem MoveInSpiralState_update_cases (cfg : Constants) (s : MoveInSpiralState)
    (e : Env) :
  let count := (sp_call_count s + 1)%Z in
  let time := (inject_Z count * SAMPLE_TIME cfg)%Q in
  let radius := (INITIAL_RADIUS_SPIRAL cfg + SPIRAL_FACTOR cfg * time)%Q in
  let stay := {| sp_linear_speed := sp_linear_speed s;
                 sp_angular_speed := sp_angular_speed s;
                 sp_call_count := count;
                 sp_radio := radius;
                 sp_time := time |} in
  (bumper_state (agent e) = true ->
   FiniteStateMachine_update cfg ({| state := MoveInSpiral s |}, e)
   = (Normal tt,
      ({| state := GoBack (GoBackState_init cfg) |},
       {| agent := set_velocity (BACKWARD_SPEED cfg) 0 (agent e); rng := rng e |})))
  /\ (bumper_state (agent e) = false -> (MOVE_IN_SPIRAL_TIME cfg < time)%Q ->
      FiniteStateMachine_update cfg ({| state := MoveInSpiral s |}, e)
      = (Normal tt,
         ({| state := MoveForward (MoveForwardState_init cfg) |},
          {| agent := set_velocity (FORWARD_SPEED cfg) 0 (agent e); rng := rng e |})))
  /\ (bumper_state (agent e) = false -> (time <= MOVE_IN_SPIRAL_TIME cfg)%Q ->
      ~ (radius == 0)%Q ->
      FiniteStateMachine_update cfg ({| state := MoveInSpiral s |}, e)
      = (Normal tt,
         ({| state := MoveInSpiral stay |},
          {| agent := set_velocity (sp_linear_speed s) (ANGULAR_SPEED cfg / radius)
                        (agent e);
             rng := rng e |})))
  /\ (bumper_state (agent e) = false -> (time <= MOVE_IN_SPIRAL_TIME cfg)%Q ->
      (radius == 0)%Q ->
      FiniteStateMachine_update cfg ({| state := MoveInSpiral s |}, e)
      = (Raised ZeroDivisionError, ({| state := MoveInSpiral stay |}, e))).
Proof.
  intros count time radius stay.
  split; [|split; [|split]].
  - intros Hb. unfold_update. rewrite Hb; cbn. rewrite andb_false_r. cbn. reflexivity.
  - intros Hb Hlt. apply Qltb_lt in Hlt. unfold_update. rewrite Hb; cbn.
    fold count. fold time. rewrite Hlt. cbn. reflexivity.
  - intros Hb Hle Hr. apply Qltb_ge in Hle. apply Qeq_bool_false_iff in Hr.
    unfold_update. rewrite Hb; cbn. fold count. fold time. rewrite Hle. cbn.
    fold radius. rewrite Hr. reflexivity.
  - intros Hb Hle Hr. apply Qltb_ge in Hle. apply Qeq_bool_iff in Hr.
    unfold_update. rewrite Hb; cbn. fold count. fold time. rewrite Hle. cbn.
    fold radius. rewrite Hr. now destruct e.
Qed.

(** One [update] of a machine in GoBack. *)
Lemma FiniteStateMachine_update_GoBack (cfg : Constants) (s : GoBackState) (e : Env) :
  FiniteStateMachine_update cfg ({| state := GoBack s |}, e)
  = let count := (gb_call_count s + 1)%Z in
    let time := (inject_Z count * SAMPLE_TIME cfg)%Q in
    if Qltb (GO_BACK_TIME cfg) time then
      let d := (-1 + (1 - -1) * draws (rng e) (cursor (rng e)))%Q in
      (Normal tt,
       ({| state := Rotate {| rt_time := 0;
                              rt_call_count := 0;
                              rt_random_angular_direction := d;
                              rt_roomba_turning_time := None |} |},
        {| agent := set_velocity 0
                      (if Qltb 0 d then ANGULAR_SPEED cfg else (- ANGULAR_SPEED cfg)%Q)
                      (agent e);
           rng := {| draws := draws (rng e); cursor := S (cursor (rng e)) |} |}))
    else
      (Normal tt,
       ({| state := GoBack {| gb_linear_speed := gb_linear_speed s;
                              gb_time := time;
                              gb_call_count := count |} |},
        {| agent := set_velocity (gb_linear_speed s) 0 (agent e); rng := rng e |})).
Proof.
  unfold_update. destruct (Qltb _ _); cbn.
  - now destruct (Qltb 0 _).
  - reflexivity.
Qed.

(** X18.  One [update] of a machine in GoBack, [time] being the state's new
    tick count times the sample period; the bumper is not consulted.  While
    [time] has not exceeded [GO_BACK_TIME] the machine stays in the state
    and commands its linear speed, no rotation.  Once it has, the machine
    moves to a Rotate state whose direction comes from the next draw of the
    generator, and which commands its rotation in the same update. *)
Theorem GoBackState_update_cases (cfg : Constants) (s : GoBackState) (e : Env) :
  let count := (gb_call_count s + 1)%Z in
  let time := (inject_Z count * SAMPLE_TIME cfg)%Q in
  let d := (-1 + (1 - -1) * draws (rng e) (cursor (rng e)))%Q in
  ((time <= GO_BACK_TIME cfg)%Q ->
   FiniteStateMachine_update cfg ({| state := GoBack s |}, e)
   = (Normal tt,
      ({| state := GoBack {| gb_linear_speed := gb_linear_speed s;
                             gb_time := time;
                             gb_call_count := count |} |},
       {| agent := set_velocity (gb_linear_speed s) 0 (agent e); rng := rng e |})))
  /\ ((GO_BACK_TIME cfg < time)%Q ->
      FiniteStateMachine_update cfg ({| state := GoBack s |}, e)
      = (Normal tt,
         ({| state := Rotate {| rt_time := 0;
                                rt_call_count := 0;
                                rt_random_angular_direction := d;
                                rt_roomba_turning_time := None |} |},
          {| agent := set_velocity 0
                        (if Qltb 0 d then ANGULAR_SPEED cfg
                         else (- ANGULAR_SPEED cfg)%Q) (agent e);
             rng := {| draws := draws (rng e); cursor := S (cursor (rng e)) |} |}))).
Proof.
  intros count time d. rewrite FiniteStateMachine_update_GoBack. cbv zeta.
  fold count. fold time. fold d. split.
  - intros Hle. apply Qltb_ge in Hle. now rewrite Hle.
  - intros Hlt. apply Qltb_lt in Hlt. now rewrite Hlt.
Qed.

(** X19.  One [update] of a machine in Rotate, [t] being the turning
    duration drawn in this update and [time] the state's new tick count
    times the sample period.  With the bumper clear and [t < time] the
    machine moves to a MoveForward state as constructed, which commands the
    forward speed in the same update.  With the bumper set the machine
    stays in Rotate, however long it has turned. *)
Theorem RotateState_update_cases (cfg : Constants) (s : RotateState) (e : Env) :
  let t := (1 + (MOVE_FORWARD_TIME cfg - 1) * draws (rng e) (cursor (rng e)))%Q in
  let count := (rt_call_count s + 1)%Z in
  let time := (inject_Z count * SAMPLE_TIME cfg)%Q in
  let g := {| draws := draws (rng e); cursor := S (cursor (rng e)) |} in
  (bumper_state (agent e) = false -> (t < time)%Q ->
   FiniteStateMachine_update cfg ({| state := Rotate s |}, e)
   = (Normal tt,
      ({| state := MoveForward (MoveForwardState_init cfg) |},
       {| agent := set_velocity (FORWARD_SPEED cfg) 0 (agent e); rng := g |})))
  /\ (bumper_state (agent e) = true ->
      FiniteStateMachine_update cfg ({| state := Rotate s |}, e)
      = (Normal tt,
         ({| state := Rotate {| rt_time := time;
                                rt_call_count := count;
                                rt_random_angular_direction :=
                                  rt_random_angular_direction s;
                                rt_roomba_turning_time := Some t |} |},
          {| agent := set_velocity 0
                        (if Qltb 0 (rt_random_angular_direction s)
                         then ANGULAR_SPEED cfg else (- ANGULAR_SPEED cfg)%Q)
                        (agent e);
             rng := g |}))).
Proof.
  intros t count time g. rewrite FiniteStateMachine_update_Rotate. cbv zeta.
  fold t. fold count. fold time. fold g. split.
  - intros Hb Hlt. apply Qltb_lt in Hlt. now rewrite Hb, Hlt.
  - intros Hb. now rewrite Hb.
Qed.

(** X20.  Every [update] either returns having commanded exactly one
    velocity, or raises [ZeroDivisionError] having commanded none, and then
    the current state is a MoveInSpiral state whose stored radius is zero.
    It raises nothing else. *)
Theorem FiniteStateMachine_update_one_command (cfg : Constants)
    (fsm : FiniteStateMachine) (e : Env) :
  (fst (FiniteStateMachine_update cfg (fsm, e)) = Normal tt
   /\ exists command,
       velocity_log (agent (snd (snd (FiniteStateMachine_update cfg (fsm, e)))))
       = command :: velocity_log (agent e))
  \/ (fst (FiniteStateMachine_update cfg (fsm, e)) = Raised ZeroDivisionError
      /\ velocity_log (agent (snd (snd (FiniteStateMachine_update cfg (fsm, e)))))
         = velocity_log (agent e)
      /\ exists s,
          state (fst (snd (FiniteStateMachine_update cfg (fsm, e)))) = MoveInSpiral s
          /\ (sp_radio s == 0)%Q).
Proof.
  destruct fsm as [[s|s|s|s]].
  - unfold_update.
    destruct (bumper_state (agent e)); cbn.
    + rewrite andb_false_r. cbn. left. eauto.
    + destruct (Qltb _ _); cbn.
      * destruct (Qeq_bool _ 0) eqn:Hr; cbn.
        -- right. split; [reflexivity|]. split; [reflexivity|].
           eexists. split; [reflexivity|]. cbn. now apply Qeq_bool_iff.
        -- left. eauto.
      * left. eauto.
  - unfold_update.
    destruct (bumper_state (agent e)); cbn.
    + rewrite andb_false_r. cbn. left. eauto.
    + destruct (Qltb _ _); cbn.
      * left. eauto.
      * destruct (Qeq_bool _ 0) eqn:Hr; cbn.
        -- right. split; [reflexivity|]. split; [reflexivity|].
           eexists. split; [reflexivity|]. cbn. now apply Qeq_bool_iff.
        -- left. eauto.
  - rewrite FiniteStateMachine_update_GoBack. cbv zeta.
    destruct (Qltb _ _); cbn; left; eauto.
  - rewrite FiniteStateMachine_update_Rotate. cbv zeta.
    destruct (_ && _); cbn; left; eauto.
Qed.

(** X21.  The transition graph.  Whatever way an [update] ends, the
    state it leaves is, by name: from MoveForward, one of MoveForward,
    GoBack, MoveInSpiral; from MoveInSpiral, one of MoveInSpiral, GoBack,
    MoveForward; from GoBack, GoBack or Rotate; from Rotate, Rotate or
    MoveForward. *)
Theorem FiniteStateMachine_update_successors (cfg : Constants)
    (fsm : FiniteStateMachine) (e : Env) :
  In (state_name (state (fst (snd (FiniteStateMachine_update cfg (fsm, e))))))
     match state fsm with
     | MoveForward _ => ["MoveForward"; "GoBack"; "MoveInSpiral"]
     | MoveInSpiral _ => ["MoveInSpiral"; "GoBack"; "MoveForward"]
     | GoBack _ => ["GoBack"; "Rotate"]
     | Rotate _ => ["Rotate"; "MoveForward"]
     end%string.
Proof.
  destruct fsm as [[s|s|s|s]]; cbn [state].
  - unfold_update.
    destruct (bumper_state (agent e)); cbn.
    + rewrite andb_false_r. cbn. auto.
    + destruct (Qltb _ _); cbn; [destruct (Qeq_bool _ 0); cbn|]; auto.
  - unfold_update.
    destruct (bumper_state (agent e)); cbn.
    + rewrite andb_false_r. cbn. auto.
    + destruct (Qltb _ _); cbn; [|destruct (Qeq_bool _ 0); cbn]; auto.
  - rewrite FiniteStateMachine_update_GoBack. cbv zeta.
    destruct (Qltb _ _); cbn; auto.
  - rewrite FiniteStateMachine_update_Rotate. cbv zeta.
    destruct (_ && _); cbn; auto.
Qed.

Lemma run_updates_app (cfg : Constants) (l1 l2 : list bool)
    (st : FiniteStateMachine * Env) :
  run_updates cfg (l1 ++ l2) st
  = match run_updates cfg l1 st with
    | (Normal _, st') => run_updates cfg l2 st'
    | (Raised e, st') => (Raised e, st')
    | (OutOfFuel, st') => (OutOfFuel, st')
    end.
Proof.
  revert st. induction l1 as [|b l1 IH]; intros st; [reflexivity|].
  cbn [app run_updates].
  destruct (FiniteStateMachine_update cfg (fst st, sense b (snd st))) as [[[]| |] st'];
    auto.
Qed.

Lemma GoBackState_dwell_from (cfg : Constants) (n : nat) :
  (0 <= SAMPLE_TIME cfg)%Q ->
  Qltb (GO_BACK_TIME cfg) (inject_Z (Z.of_nat n) * SAMPLE_TIME cfg) = false ->
  forall (bumper : list bool) (k : nat) (s : GoBackState) (e : Env),
    gb_call_count s = Z.of_nat k ->
    (k + List.length bumper <= n)%nat ->
    exists s' e',
      run_updates cfg bumper ({| state := GoBack s |}, e)
      = (Normal tt, ({| state := GoBack s' |}, e'))
      /\ gb_call_count s' = Z.of_nat (k + List.length bumper)
      /\ gb_linear_speed s' = gb_linear_speed s
      /\ rng e' = rng e
      /\ velocity_log (agent e')
         = repeat (gb_linear_speed s, 0%Q) (List.length bumper) ++ velocity_log (agent e).
Proof.
  intros HT Hnot. induction bumper as [|b bumper IH]; intros k s e Hc Hk.
  - exists s, e. cbn. replace (k + 0)%nat with k by lia. auto.
  - cbn [run_updates fst snd]. rewrite FiniteStateMachine_update_GoBack. cbv zeta.
    cbn [List.length] in Hk.
    rewrite Hc. replace (Z.of_nat k + 1)%Z with (Z.of_nat (S k)) by lia.
    rewrite (time_not_above_earlier _ (GO_BACK_TIME cfg) (S k) n HT)
      by (lia || exact Hnot).
    destruct (IH (S k)
                {| gb_linear_speed := gb_linear_speed s;
                   gb_time := (inject_Z (Z.of_nat (S k)) * SAMPLE_TIME cfg)%Q;
                   gb_call_count := Z.of_nat (S k) |}
                {| agent := set_velocity (gb_linear_speed s) 0 (agent (sense b e));
                   rng := rng (sense b e) |})
      as (s' & e' & Hrun & Hc' & Hls & Hg & Hlog); [reflexivity|lia|].
    exists s', e'. rewrite Hrun. cbn in Hls, Hg, Hlog.
    split; [reflexivity|]. split; [rewrite Hc'; f_equal; cbn; lia|].
    split; [exact Hls|]. split; [exact Hg|].
    rewrite Hlog. cbn [List.length].
    change (repeat ?a (S ?n)) with (a :: repeat a n).
    now rewrite repeat_cons, <- app_assoc.
Qed.

(** X22.  How long the machine backs up, by the state's own [time], the
    tick count times the sample period.  If the time of update [n] has not
    exceeded [GO_BACK_TIME] and the time of update [n + 1] has, the
    machine, from a GoBack state as constructed, stays in GoBack for [n]
    updates, each commanding the backward speed and drawing nothing,
    whatever the bumper; update [n + 1] moves it to Rotate. *)
Theorem GoBackState_dwell (cfg : Constants) (e : Env) (bumper : list bool) (b : bool) :
  Qltb (GO_BACK_TIME cfg)
    (inject_Z (Z.of_nat (List.length bumper)) * SAMPLE_TIME cfg) = false ->
  Qltb (GO_BACK_TIME cfg)
    (inject_Z (Z.of_nat (S (List.length bumper))) * SAMPLE_TIME cfg) = true ->
  (exists s' e',
      run_updates cfg bumper ({| state := GoBack (GoBackState_init cfg) |}, e)
      = (Normal tt, ({| state := GoBack s' |}, e'))
      /\ gb_call_count s' = Z.of_nat (List.length bumper)
      /\ rng e' = rng e
      /\ velocity_log (agent e')
         = repeat (BACKWARD_SPEED cfg, 0%Q) (List.length bumper)
           ++ velocity_log (agent e))
  /\ (exists s'' e'',
         run_updates cfg (bumper ++ [b]) ({| state := GoBack (GoBackState_init cfg) |}, e)
         = (Normal tt, ({| state := Rotate s'' |}, e''))).
Proof.
  intros Hnot Hpast.
  assert (HT : (0 <= SAMPLE_TIME cfg)%Q).
  { apply Qlt_le_weak, (time_grows_positive _ (List.length bumper)).
    apply Qltb_ge in Hnot. apply Qltb_lt in Hpast.
    eapply Qle_lt_trans; eassumption. }
  destruct (GoBackState_dwell_from cfg (List.length bumper) HT Hnot bumper 0
              (GoBackState_init cfg) e eq_refl (Nat.le_refl _))
    as (s' & e' & Hrun & Hc & Hls & Hg & Hlog).
  split; [exists s', e'; auto|].
  rewrite run_updates_app, Hrun. cbn [run_updates fst snd].
  rewrite FiniteStateMachine_update_GoBack. cbv zeta.
  rewrite Hc. cbn [Nat.add].
  replace (Z.of_nat (List.length bumper) + 1)%Z
    with (Z.of_nat (S (List.length bumper))) by lia.
  rewrite Hpast. eauto.
Qed.

(** One [update] of a machine in MoveForward with the bumper clear, as far
    as the state goes. *)
Lemma MoveForwardState_clear_step (cfg : Constants) (s : MoveForwardState) (e : Env) :
  bumper_state (agent e) = false ->
  let count := (mf_call_count s + 1)%Z in
  let time := (inject_Z count * SAMPLE_TIME cfg)%Q in
  (Qltb (MOVE_FORWARD_TIME cfg) time = false ->
   FiniteStateMachine_update cfg ({| state := MoveForward s |}, e)
   = (Normal tt,
      ({| state := MoveForward {| mf_linear_speed := mf_linear_speed s;
                                  mf_call_count := count;
                                  mf_time := time |} |},
       {| agent := set_velocity (mf_linear_speed s) 0 (agent e); rng := rng e |})))
  /\ (Qltb (MOVE_FORWARD_TIME cfg) time = true ->
      exists s',
        state (fst (snd (FiniteStateMachine_update cfg ({| state := MoveForward s |}, e))))
        = MoveInSpiral s').
Proof.
  intros Hb count time. split; intros Hq.
  - unfold_update. rewrite Hb; cbn. fold count. fold time. rewrite Hq. reflexivity.
  - unfold_update. rewrite Hb; cbn. fold count. fold time. rewrite Hq. cbn.
    destruct (Qeq_bool _ 0); cbn; eauto.
Qed.

Lemma MoveForwardState_dwell_from (cfg : Constants) (n : nat) :
  (0 <= SAMPLE_TIME cfg)%Q ->
  Qltb (MOVE_FORWARD_TIME cfg) (inject_Z (Z.of_nat n) * SAMPLE_TIME cfg) = false ->
  forall (m k : nat) (s : MoveForwardState) (e : Env),
    mf_call_count s = Z.of_nat k ->
    (k + m <= n)%nat ->
    exists s' e',
      run_updates cfg (repeat false m) ({| state := MoveForward s |}, e)
      = (Normal tt, ({| state := MoveForward s' |}, e'))
      /\ mf_call_count s' = Z.of_nat (k + m)
      /\ mf_linear_speed s' = mf_linear_speed s
      /\ velocity_log (agent e')
         = repeat (mf_linear_speed s, 0%Q) m ++ velocity_log (agent e).
Proof.
  intros HT Hnot. induction m as [|m IH]; intros k s e Hc Hk.
  - exists s, e. cbn. replace (k + 0)%nat with k by lia. auto.
  - cbn [repeat run_updates fst snd].
    destruct (MoveForwardState_clear_step cfg s (sense false e) eq_refl) as (Hstay & _).
    rewrite Hstay.
    2:{ rewrite Hc. replace (Z.of_nat k + 1)%Z with (Z.of_nat (S k)) by lia.
        apply (time_not_above_earlier _ _ (S k) n HT); [lia|exact Hnot]. }
    destruct (IH (S k)
                {| mf_linear_speed := mf_linear_speed s;
                   mf_call_count := (mf_call_count s + 1)%Z;
                   mf_time := (inject_Z (mf_call_count s + 1) * SAMPLE_TIME cfg)%Q |}
                {| agent := set_velocity (mf_linear_speed s) 0 (agent (sense false e));
                   rng := rng (sense false e) |})
      as (s' & e' & Hrun & Hc' & Hls & Hlog); [cbn; lia|lia|].
    exists s', e'. rewrite Hrun. cbn in Hls, Hlog.
    split; [reflexivity|]. split; [rewrite Hc'; f_equal; lia|].
    split; [exact Hls|].
    rewrite Hlog. change (repeat ?a (S ?m)) with (a :: repeat a m).
    now rewrite repeat_cons, <- app_assoc.
Qed.

(** X23.  How long the machine moves forward, by the state's own [time],
    the tick count times the sample period.  If the time of update [n] has
    not exceeded [MOVE_FORWARD_TIME] and the time of update [n + 1] has,
    the machine, from a MoveForward state as constructed and with the
    bumper staying clear, stays in MoveForward for [n] updates, each
    commanding the forward speed; update [n + 1] moves it to
    MoveInSpiral. *)
Theorem MoveForwardState_dwell (cfg : Constants) (e : Env) (n : nat) :
  Qltb (MOVE_FORWARD_TIME cfg) (inject_Z (Z.of_nat n) * SAMPLE_TIME cfg) = false ->
  Qltb (MOVE_FORWARD_TIME cfg) (inject_Z (Z.of_nat (S n)) * SAMPLE_TIME cfg) = true ->
  (exists s' e',
      run_updates cfg (repeat false n)
        ({| state := MoveForward (MoveForwardState_init cfg) |}, e)
      = (Normal tt, ({| state := MoveForward s' |}, e'))
      /\ mf_call_count s' = Z.of_nat n
      /\ velocity_log (agent e')
         = repeat (FORWARD_SPEED cfg, 0%Q) n ++ velocity_log (agent e))
  /\ (exists s'',
         state (fst (snd (run_updates cfg (repeat false n ++ [false])
                            ({| state := MoveForward (MoveForwardState_init cfg) |}, e))))
         = MoveInSpiral s'').
Proof.
  intros Hnot Hpast.
  assert (HT : (0 <= SAMPLE_TIME cfg)%Q).
  { apply Qlt_le_weak, (time_grows_positive _ n).
    apply Qltb_ge in Hnot. apply Qltb_lt in Hpast.
    eapply Qle_lt_trans; eassumption. }
  destruct (MoveForwardState_dwell_from cfg n HT Hnot n 0 (MoveForwardState_init cfg) e
              eq_refl (Nat.le_refl _))
    as (s' & e' & Hrun & Hc & Hls & Hlog).
  split; [exists s', e'; auto|].
  rewrite run_updates_app, Hrun. cbn [run_updates fst snd].
  destruct (MoveForwardState_clear_step cfg s' (sense false e') eq_refl) as (_ & Hgo).
  destruct Hgo as (s'' & Hs'').
  { rewrite Hc. cbn [Nat.add].
    replace (Z.of_nat n + 1)%Z with (Z.of_nat (S n)) by lia. exact Hpast. }
  exists s''.
  destruct (FiniteStateMachine_update cfg ({| state := MoveForward s' |}, sense false e'))
    as [[[]| |] st']; exact Hs''.
Qed.

(** ** The Roomba tree *)

Lemma RotateNode_never_succeeds (cfg : Constants) (self : RotateNode.t) (e : Env) :
  fst (RotateNode.execute cfg (self, e)) <> Normal (Some SUCCESS).
Proof.
  destruct self as [[c|] [d|] [t|] tm]; unfold RotateNode.execute; unfold_method;
    try discriminate;
    repeat match goal with |- context [if ?b then _ else _] => destruct b end;
    cbn; discriminate.
Qed.

Lemma Leaf_execute_rotate_never_succeeds (cfg : Constants) (w : Leaves) :
  fst (Leaf_execute cfg rotate_node w) <> Normal (Some SUCCESS).
Proof.
  unfold Leaf_execute, on_leaf.
  pose proof (RotateNode_never_succeeds cfg (rotate w) (env w)) as H.
  destruct (RotateNode.execute cfg (rotate w, env w)) as [r [self' e']].
  exact H.
Qed.

(** X24.  The second sequence of the Roomba tree (GoBack, then Rotate)
    never returns Success, whatever its running child, the state of the
    leaves and the sensor: Rotate never does.  When it returns, it returns
    Running or Failure. *)
Theorem Roomba_recovery_sequence_never_succeeds (cfg : Constants) (fuel : nat)
    (self : CompositeNode Leaf) (tk : Tick Leaves Leaf) :
  children self = [go_back_node; rotate_node] ->
  fst (SequenceNode_execute Leaves Leaf Leaf_eq_dec (Leaf_enter cfg) (Leaf_execute cfg)
         fuel (self, tk))
  <> Normal (Some SUCCESS).
Proof.
  intros Hcs.
  apply (sequence_execute_success_only_from_last Leaf_eq_dec (Leaf_enter cfg)
           (Leaf_execute cfg) self tk fuel rotate_node).
  - now rewrite Hcs.
  - apply Leaf_execute_rotate_never_succeeds.
Qed.

(** * The further properties on sample data *)

Lemma forward_leaf_enter (cfg : Constants) (c : Leaf) (w : Leaves) :
  c = move_forward_node \/ c = move_in_spiral_node ->
  exists w', Leaf_enter cfg c w = (Normal tt, w')
             /\ env w' = env w /\ just_entered c w'.
Proof.
  intros [-> | ->]; destruct w as [mf sp gb rt e]; eexists;
    (split; [reflexivity|]); split; reflexivity.
Qed.

Lemma coarse_forward_leaf_succeeds (c : Leaf) (w : Leaves) :
  c = move_forward_node \/ c = move_in_spiral_node ->
  just_entered c w ->
  exists w', Leaf_execute coarse_constants c w = (Normal (Some SUCCESS), w').
Proof.
  intros [-> | ->] Hready; destruct w as [[ls cc tm] [a l c2 t2 r2] gb rt e];
    cbn in Hready; subst; eexists; reflexivity.
Qed.

Lemma sample_forward_leaf_fails (c : Leaf) (w : Leaves) :
  c = move_forward_node \/ c = move_in_spiral_node ->
  bumper_is true w ->
  just_entered c w ->
  exists w', Leaf_execute sample_constants c w = (Normal (Some FAILURE), w')
             /\ bumper_is true w'.
Proof.
  unfold bumper_is.
  intros [-> | ->] Hb Hready;
    destruct w as [[ls cc tm] [a l c2 t2 r2] gb rt [[b log] g]];
    cbn in Hready, Hb; subst; eexists; split; reflexivity.
Qed.

Lemma sample_forward_leaf_returns (c : Leaf) (w : Leaves) :
  c = move_forward_node \/ c = move_in_spiral_node ->
  just_entered c w ->
  exists status w', Leaf_execute sample_constants c w = (Normal (Some status), w').
Proof.
  intros [-> | ->] Hready;
    destruct w as [[ls cc tm] [a l c2 t2 r2] gb rt [[[|] log] g]];
    cbn in Hready; subst; do 2 eexists; reflexivity.
Qed.

Lemma In_forward (c : Leaf) :
  In c [move_forward_node; move_in_spiral_node] ->
  c = move_forward_node \/ c = move_in_spiral_node.
Proof. cbn. intuition. Qed.

Lemma In_repeated (c : Leaf) :
  In c [move_forward_node; move_in_spiral_node; move_forward_node] ->
  c = move_forward_node \/ c = move_in_spiral_node.
Proof. cbn. intuition. Qed.

(** X1 on the sequence of the two forward leaves, the sample period being
    20: both leaves are entered and succeed within the first tick. *)
Lemma SequenceNode_chain_one_tick_witness :
  NoDup (children (sample_forward None))
  /\ exists w',
      SequenceNode_execute Leaves Leaf Leaf_eq_dec (Leaf_enter coarse_constants)
        (Leaf_execute coarse_constants) 2
        (sample_forward None, sample_tick (world_entered false))
      = (Normal (Some SUCCESS),
         (sample_forward None,
          after w' [Enter move_forward_node; Execute move_forward_node;
                    Enter move_in_spiral_node; Execute move_in_spiral_node]
            (sample_tick (world_entered false)))).
Proof.
  split; [apply sample_forward_NoDup|].
  apply (SequenceNode_chain_one_tick Leaf_eq_dec (Leaf_enter coarse_constants)
           (Leaf_execute coarse_constants) (sample_forward None)
           (sample_tick (world_entered false)) (fun _ => True) just_entered).
  - apply sample_forward_NoDup.
  - discriminate.
  - reflexivity.
  - exact I.
  - intros c w Hc _. apply In_forward in Hc.
    destruct (forward_leaf_enter coarse_constants c w Hc) as (w' & Hen & _ & Hr).
    exists w'. auto.
  - intros c w Hc _ Hr. apply In_forward in Hc.
    destruct (coarse_forward_leaf_succeeds c w Hc Hr) as (w' & Hex).
    exists w'. auto.
Defined.

(** X2 on a selector over the two forward leaves, the bumper set: both
    leaves are entered and fail within the first tick. *)
Lemma SelectorNode_chain_one_tick_witness :
  NoDup (children (sample_forward None))
  /\ exists w',
      sample_selector_execute 2 (sample_forward None, sample_tick (world_entered true))
      = (Normal (Some FAILURE),
         (sample_forward None,
          after w' [Enter move_forward_node; Execute move_forward_node;
                    Enter move_in_spiral_node; Execute move_in_spiral_node]
            (sample_tick (world_entered true)))).
Proof.
  split; [apply sample_forward_NoDup|].
  apply (SelectorNode_chain_one_tick Leaf_eq_dec (Leaf_enter sample_constants)
           (Leaf_execute sample_constants) (sample_forward None)
           (sample_tick (world_entered true)) (bumper_is true) just_entered).
  - apply sample_forward_NoDup.
  - discriminate.
  - reflexivity.
  - reflexivity.
  - intros c w Hc Hb. apply In_forward in Hc.
    destruct (forward_leaf_enter sample_constants c w Hc) as (w' & Hen & He & Hr).
    exists w'. unfold bumper_is in *. rewrite He. auto.
  - intros c w Hc Hb Hr. apply In_forward in Hc.
    apply (sample_forward_leaf_fails c w Hc Hb Hr).
Defined.

(** X3 on the sequence of the two forward leaves: two loop iterations are
    enough fuel, from a fresh start. *)
Lemma SequenceNode_execute_returns_witness :
  NoDup (children (sample_forward None))
  /\ (List.length (children (sample_forward None)) <= 2)%nat
  /\ exists status self' tk',
      sample_sequence_execute 2 (sample_forward None, sample_tick (world_entered false))
      = (Normal (Some status), (self', tk')).
Proof.
  split; [apply sample_forward_NoDup|]. split; [cbn; lia|].
  apply (SequenceNode_execute_returns Leaf_eq_dec (Leaf_enter sample_constants)
           (Leaf_execute sample_constants) (sample_forward None)
           (sample_tick (world_entered false)) 2 (fun _ => True) just_entered).
  - apply sample_forward_NoDup.
  - discriminate.
  - exact I.
  - discriminate.
  - intros c w Hc _. apply In_forward in Hc.
    destruct (forward_leaf_enter sample_constants c w Hc) as (w' & Hen & _ & Hr).
    exists w'. auto.
  - intros c w Hc _ Hr. apply In_forward in Hc.
    destruct (sample_forward_leaf_returns c w Hc Hr) as (status & w' & Hex).
    exists status, w'. auto.
  - cbn. lia.
Defined.

(** X4 on a selector over the two forward leaves. *)
Lemma SelectorNode_execute_returns_witness :
  NoDup (children (sample_forward None))
  /\ (List.length (children (sample_forward None)) <= 2)%nat
  /\ exists status self' tk',
      sample_selector_execute 2 (sample_forward None, sample_tick (world_entered true))
      = (Normal (Some status), (self', tk')).
Proof.
  split; [apply sample_forward_NoDup|]. split; [cbn; lia|].
  apply (SelectorNode_execute_returns Leaf_eq_dec (Leaf_enter sample_constants)
           (Leaf_execute sample_constants) (sample_forward None)
           (sample_tick (world_entered true)) 2 (fun _ => True) just_entered).
  - apply sample_forward_NoDup.
  - discriminate.
  - exact I.
  - discriminate.
  - intros c w Hc _. apply In_forward in Hc.
    destruct (forward_leaf_enter sample_constants c w Hc) as (w' & Hen & _ & Hr).
    exists w'. auto.
  - intros c w Hc _ Hr. apply In_forward in Hc.
    destruct (sample_forward_leaf_returns c w Hc Hr) as (status & w' & Hex).
    exists status, w'. auto.
  - cbn. lia.
Defined.

(** X5 where the spiral radius is zero: the [ZeroDivisionError] of the
    spiral leaf comes out of the sequence and of the selector, the spiral
    leaf staying the running child. *)
Lemma composite_execute_passes_exception_witness :
  Leaf_execute flat_constants move_in_spiral_node (world_entered false)
  = (Raised ZeroDivisionError,
     snd (Leaf_execute flat_constants move_in_spiral_node (world_entered false)))
  /\ SequenceNode_execute Leaves Leaf Leaf_eq_dec (Leaf_enter flat_constants)
       (Leaf_execute flat_constants) 1
       (sample_forward (Some move_in_spiral_node), sample_tick (world_entered false))
     = (Raised ZeroDivisionError,
        (sample_forward (Some move_in_spiral_node),
         after (snd (Leaf_execute flat_constants move_in_spiral_node
                       (world_entered false)))
           [Execute move_in_spiral_node] (sample_tick (world_entered false))))
  /\ SelectorNode_execute Leaves Leaf Leaf_eq_dec (Leaf_enter flat_constants)
       (Leaf_execute flat_constants) 1
       (sample_forward (Some move_in_spiral_node), sample_tick (world_entered false))
     = (Raised ZeroDivisionError,
        (sample_forward (Some move_in_spiral_node),
         after (snd (Leaf_execute flat_constants move_in_spiral_node
                       (world_entered false)))
           [Execute move_in_spiral_node] (sample_tick (world_entered false)))).
Proof.
  split; [reflexivity|].
  apply (composite_execute_passes_exception Leaf_eq_dec (Leaf_enter flat_constants)
           (Leaf_execute flat_constants)
           (sample_forward (Some move_in_spiral_node))
           (sample_tick (world_entered false)) 0 move_in_spiral_node
           ZeroDivisionError); reflexivity.
Defined.

(** X6 on the sequence and the selector over the two forward leaves, with
    the forward leaf running. *)
Lemma composite_execute_keeps_children_witness :
  (forall c, running_child (sample_forward (Some move_forward_node)) = Some c ->
             In c (children (sample_forward (Some move_forward_node))))
  /\ children (fst (snd (sample_sequence_execute 2
                           (sample_forward (Some move_forward_node),
                            sample_tick world_forward_done))))
     = [move_forward_node; move_in_spiral_node]
  /\ children (fst (snd (sample_selector_execute 2
                           (sample_forward (Some move_forward_node),
                            sample_tick (world_entered true)))))
     = [move_forward_node; move_in_spiral_node].
Proof.
  assert (Hin : forall c, running_child (sample_forward (Some move_forward_node)) = Some c ->
                          In c (children (sample_forward (Some move_forward_node)))).
  { intros c Hc. injection Hc as <-. now left. }
  split; [exact Hin|]. split.
  - apply (composite_execute_keeps_children Leaf_eq_dec (Leaf_enter sample_constants)
             (Leaf_execute sample_constants)
             (sample_forward (Some move_forward_node))
             (sample_tick world_forward_done) 2 Hin).
  - apply (composite_execute_keeps_children Leaf_eq_dec (Leaf_enter sample_constants)
             (Leaf_execute sample_constants)
             (sample_forward (Some move_forward_node))
             (sample_tick (world_entered true)) 2 Hin).
Defined.

(** X7 on a sequence to which the forward leaf was added twice, the sample
    period being 20 so that each leaf succeeds at once. *)
Lemma SequenceNode_repeated_child_never_returns_witness :
  nth_error (children (sample_repeated None)) 0 = Some move_forward_node
  /\ nth_error (children (sample_repeated None)) 2 = Some move_forward_node
  /\ forall fuel,
      fst (SequenceNode_execute Leaves Leaf Leaf_eq_dec (Leaf_enter coarse_constants)
             (Leaf_execute coarse_constants) fuel
             (sample_repeated None, sample_tick (world_entered false)))
      = OutOfFuel.
Proof.
  split; [reflexivity|]. split; [reflexivity|].
  apply (SequenceNode_repeated_child_never_returns Leaf_eq_dec
           (Leaf_enter coarse_constants) (Leaf_execute coarse_constants)
           (sample_repeated None) (sample_tick (world_entered false))
           (fun _ => True) just_entered 0 2 move_forward_node).
  - lia.
  - reflexivity.
  - reflexivity.
  - reflexivity.
  - exact I.
  - intros c w Hc _. apply In_repeated in Hc.
    destruct (forward_leaf_enter coarse_constants c w Hc) as (w' & Hen & _ & Hr).
    exists w'. auto.
  - intros c w Hc _ Hr. apply In_repeated in Hc.
    destruct (coarse_forward_leaf_succeeds c w Hc Hr) as (w' & Hex).
    exists w'. auto.
Defined.

Lemma Leaf_execute_go_back_never_fails (cfg : Constants) (w : Leaves) :
  fst (Leaf_execute cfg go_back_node w) <> Normal (Some FAILURE).
Proof.
  unfold Leaf_execute, on_leaf, GoBackNode.execute. unfold_method.
  destruct (Qltb _ _ && _); cbn; discriminate.
Qed.

(** X15 on the second sequence of the Roomba tree, whose last child Rotate
    never succeeds, and on a selector whose last child GoBack never
    fails. *)
Lemma composite_result_needs_last_child_witness :
  (nth_error (children (sample_recover None))
     (List.length (children (sample_recover None)) - 1) = Some rotate_node
   /\ fst (sample_sequence_execute 3
             (sample_recover None, sample_tick (world_entered false)))
      <> Normal (Some SUCCESS))
  /\ (nth_error [rotate_node; go_back_node] 1 = Some go_back_node
      /\ fst (sample_selector_execute 3
                ({| node_name := "Selector";
                    children := [rotate_node; go_back_node];
                    running_child := None |},
                 sample_tick (world_entered false)))
         <> Normal (Some FAILURE)).
Proof.
  split; (split; [reflexivity|]).
  - apply (composite_result_needs_last_child Leaf_eq_dec (Leaf_enter sample_constants)
             (Leaf_execute sample_constants) (sample_recover None)
             (sample_tick (world_entered false)) 3 rotate_node eq_refl).
    apply Leaf_execute_rotate_never_succeeds.
  - apply (composite_result_needs_last_child Leaf_eq_dec (Leaf_enter sample_constants)
             (Leaf_execute sample_constants)
             {| node_name := "Selector";
                children := [rotate_node; go_back_node];
                running_child := None |}
             (sample_tick (world_entered false)) 3 go_back_node eq_refl).
    apply Leaf_execute_go_back_never_fails.
Defined.

(** X8 with the sample period 1: the times of ticks 2 and 3 are 2 and 3,
    so Running, Running, Success. *)
Lemma MoveForwardNode_run_to_threshold_witness :
  Qltb (inject_Z (Z.of_nat 2) * SAMPLE_TIME sample_constants) 3 = true
  /\ Qltb (inject_Z (Z.of_nat 3) * SAMPLE_TIME sample_constants) 3 = false
  /\ fst (run_ticks (MoveForwardNode.execute sample_constants) (repeat false 3)
            (snd (MoveForwardNode.enter
                    (MoveForwardNode.init sample_constants, sample_env false))))
     = [Normal (Some RUNNING); Normal (Some RUNNING); Normal (Some SUCCESS)].
Proof.
  split; [reflexivity|]. split; [reflexivity|].
  apply (MoveForwardNode_run_to_threshold sample_constants
           (MoveForwardNode.init sample_constants) (sample_env false) 2);
    reflexivity.
Defined.

(** X9 on the first tick of a spiral (both bumper readings) and on its
    twentieth tick. *)
Lemma MoveInSpiralNode_execute_cases_witness :
  fst (MoveInSpiralNode.execute sample_constants
         (MoveInSpiralNode.mk 1 (1 # 2) (Some 0%Z) None None, sample_env false))
  = Normal (Some RUNNING)
  /\ velocity_log
       (agent (snd (snd (MoveInSpiralNode.execute sample_constants
                           (MoveInSpiralNode.mk 1 (1 # 2) (Some 0%Z) None None,
                            sample_env false)))))
     = [(1 # 2, 1 / ((1 # 5) + (1 # 20) * (inject_Z (0 + 1) * 1)))%Q]
  /\ fst (MoveInSpiralNode.execute sample_constants
            (MoveInSpiralNode.mk 1 (1 # 2) (Some 0%Z) None None, sample_env true))
     = Normal (Some FAILURE)
  /\ fst (MoveInSpiralNode.execute sample_constants
            (MoveInSpiralNode.mk 1 (1 # 2) (Some 19%Z) None None, sample_env true))
     = Normal (Some SUCCESS).
Proof.
  pose proof (MoveInSpiralNode_execute_cases sample_constants
                (MoveInSpiralNode.mk 1 (1 # 2) (Some 0%Z) None None)
                (sample_env false) 0 eq_refl) as H1.
  pose proof (MoveInSpiralNode_execute_cases sample_constants
                (MoveInSpiralNode.mk 1 (1 # 2) (Some 0%Z) None None)
                (sample_env true) 0 eq_refl) as H2.
  pose proof (MoveInSpiralNode_execute_cases sample_constants
                (MoveInSpiralNode.mk 1 (1 # 2) (Some 19%Z) None None)
                (sample_env true) 19 eq_refl) as H3.
  cbv zeta in H1, H2, H3.
  destruct H1 as (H1 & _ & _); [apply Qeq_bool_false_iff; reflexivity|].
  destruct H2 as (_ & H2 & _); [apply Qeq_bool_false_iff; reflexivity|].
  destruct H3 as (_ & _ & H3); [apply Qeq_bool_false_iff; reflexivity|].
  rewrite H1, H2, H3; try reflexivity; try (apply Qle_bool_iff; reflexivity).
  repeat split.
Defined.

(** X10 where the spiral radius is zero, on a first tick and past the
    threshold. *)
Lemma MoveInSpiralNode_execute_zero_radius_witness :
  (INITIAL_RADIUS_SPIRAL flat_constants
   + SPIRAL_FACTOR flat_constants * (inject_Z (0 + 1) * SAMPLE_TIME flat_constants)
   == 0)%Q
  /\ fst (MoveInSpiralNode.execute flat_constants
            (MoveInSpiralNode.mk 1 (1 # 2) (Some 0%Z) None None, sample_env false))
     = Raised ZeroDivisionError
  /\ fst (MoveInSpiralNode.execute flat_constants
            (MoveInSpiralNode.mk 1 (1 # 2) (Some 30%Z) None None, sample_env false))
     = Raised ZeroDivisionError.
Proof.
  split; [reflexivity|]. split.
  - rewrite (MoveInSpiralNode_execute_zero_radius flat_constants
               (MoveInSpiralNode.mk 1 (1 # 2) (Some 0%Z) None None)
               (sample_env false) 0 eq_refl); reflexivity.
  - rewrite (MoveInSpiralNode_execute_zero_radius flat_constants
               (MoveInSpiralNode.mk 1 (1 # 2) (Some 30%Z) None None)
               (sample_env false) 30 eq_refl); reflexivity.
Defined.

(** X12 on a leaf with direction [1/3] and duration 2: first tick, and
    second tick with the bumper clear. *)
Lemma RotateNode_execute_cases_witness :
  RotateNode.execute sample_constants
    (RotateNode.mk (Some 0%Z) (Some (1 # 3)) (Some 2) None, sample_env true)
  = (Normal (Some RUNNING),
     (RotateNode.mk (Some 1%Z) (Some (1 # 3)) (Some 2) (Some (inject_Z 1 * 1)%Q),
      {| agent := set_velocity 0 1 (agent (sample_env true));
         rng := rng (sample_env true) |}))
  /\ RotateNode.execute sample_constants
       (RotateNode.mk (Some 1%Z) (Some (1 # 3)) (Some 2) None, sample_env false)
     = (Normal (Some FAILURE),
        (RotateNode.mk (Some 2%Z) (Some (1 # 3)) (Some 2) (Some (inject_Z 2 * 1)%Q),
         sample_env false)).
Proof.
  split.
  - apply (RotateNode_execute_cases sample_constants
             (RotateNode.mk (Some 0%Z) (Some (1 # 3)) (Some 2) None) (sample_env true)
             0 (1 # 3) 2 eq_refl eq_refl eq_refl).
    reflexivity.
  - apply (RotateNode_execute_cases sample_constants
             (RotateNode.mk (Some 1%Z) (Some (1 # 3)) (Some 2) None) (sample_env false)
             1 (1 # 3) 2 eq_refl eq_refl eq_refl).
    + apply Qle_bool_iff; reflexivity.
    + reflexivity.
Defined.

(** X14 with [GO_BACK_TIME] 2 and the sample period 1: the times of ticks
    2 and 3 are 2 and 3, so Running on two ticks, bumper set or not, then
    Success. *)
Lemma GoBackNode_run_witness :
  Qltb (GO_BACK_TIME sample_constants)
    (inject_Z (Z.of_nat (List.length [true; false])) * SAMPLE_TIME sample_constants)
  = false
  /\ Qltb (GO_BACK_TIME sample_constants)
       (inject_Z (Z.of_nat (S (List.length [true; false])))
        * SAMPLE_TIME sample_constants)
     = true
  /\ fst (run_ticks (GoBackNode.execute sample_constants) ([true; false] ++ [false])
            (snd (GoBackNode.enter (GoBackNode.init sample_constants, sample_env false))))
     = [Normal (Some RUNNING); Normal (Some RUNNING); Normal (Some SUCCESS)].
Proof.
  split; [reflexivity|]. split; [reflexivity|].
  apply (GoBackNode_run sample_constants (sample_env false) [true; false]);
    reflexivity.
Defined.

(** X16 on a machine in MoveForward: first update, sixth update, and sixth
    update where the spiral radius is zero. *)
Lemma MoveForwardState_update_cases_witness :
  bumper_state (agent (sample_env false)) = false
  /\ state (fst (snd (FiniteStateMachine_update sample_constants
                        ({| state := MoveForward (MoveForwardState_init sample_constants) |},
                         sample_env false))))
     = MoveForward {| mf_linear_speed := 1 # 2;
                      mf_call_count := 1;
                      mf_time := inject_Z 1 * 1 |}
  /\ state (fst (snd (FiniteStateMachine_update sample_constants
                        ({| state := MoveForward {| mf_linear_speed := 1 # 2;
                                                    mf_call_count := 5;
                                                    mf_time := 5 |} |},
                         sample_env false))))
     = MoveInSpiral {| sp_linear_speed := 1 # 2;
                       sp_angular_speed := 1;
                       sp_call_count := 0;
                       sp_radio := (1 # 5) + (1 # 20) * 0;
                       sp_time := 0 |}
  /\ fst (FiniteStateMachine_update flat_constants
            ({| state := MoveForward {| mf_linear_speed := 1 # 2;
                                        mf_call_count := 5;
                                        mf_time := 5 |} |},
             sample_env false))
     = Raised ZeroDivisionError.
Proof.
  split; [reflexivity|].
  pose proof (MoveForwardState_update_cases sample_constants
                (MoveForwardState_init sample_constants) (sample_env false) eq_refl) as H1.
  pose proof (MoveForwardState_update_cases sample_constants
                {| mf_linear_speed := 1 # 2; mf_call_count := 5; mf_time := 5 |}
                (sample_env false) eq_refl) as H2.
  pose proof (MoveForwardState_update_cases flat_constants
                {| mf_linear_speed := 1 # 2; mf_call_count := 5; mf_time := 5 |}
                (sample_env false) eq_refl) as H3.
  cbv zeta in H1, H2, H3.
  destruct H1 as (H1 & _ & _). destruct H2 as (_ & H2 & _). destruct H3 as (_ & _ & H3).
  rewrite H1, H2, H3; try reflexivity;
    try (apply Qle_bool_iff; reflexivity);
    try (apply Qeq_bool_false_iff; reflexivity).
  repeat split.
Defined.

(** X17 on a machine in MoveInSpiral: bumper set; past the threshold;
    first update; first update where the spiral radius is zero. *)
Lemma MoveInSpiralState_update_cases_witness :
  state (fst (snd (FiniteStateMachine_update sample_constants
                     ({| state := MoveInSpiral (MoveInSpiralState_init sample_constants) |},
                      sample_env true))))
  = GoBack (GoBackState_init sample_constants)
  /\ state (fst (snd (FiniteStateMachine_update sample_constants
                        ({| state := MoveInSpiral {| sp_linear_speed := 1 # 2;
                                                     sp_angular_speed := 1;
                                                     sp_call_count := 20;
                                                     sp_radio := 0;
                                                     sp_time := 20 |} |},
                         sample_env false))))
     = MoveForward (MoveForwardState_init sample_constants)
  /\ fst (FiniteStateMachine_update sample_constants
            ({| state := MoveInSpiral (MoveInSpiralState_init sample_constants) |},
             sample_env false))
     = Normal tt
  /\ fst (FiniteStateMachine_update flat_constants
            ({| state := MoveInSpiral (MoveInSpiralState_init flat_constants) |},
             sample_env false))
     = Raised ZeroDivisionError.
Proof.
  pose proof (MoveInSpiralState_update_cases sample_constants
                (MoveInSpiralState_init sample_constants) (sample_env true)) as H1.
  pose proof (MoveInSpiralState_update_cases sample_constants
                {| sp_linear_speed := 1 # 2; sp_angular_speed := 1;
                   sp_call_count := 20; sp_radio := 0; sp_time := 20 |}
                (sample_env false)) as H2.
  pose proof (MoveInSpiralState_update_cases sample_constants
                (MoveInSpiralState_init sample_constants) (sample_env false)) as H3.
  pose proof (MoveInSpiralState_update_cases flat_constants
                (MoveInSpiralState_init flat_constants) (sample_env false)) as H4.
  cbv zeta in H1, H2, H3, H4.
  destruct H1 as (H1 & _). destruct H2 as (_ & H2 & _).
  destruct H3 as (_ & _ & H3 & _). destruct H4 as (_ & _ & _ & H4).
  rewrite H1, H2, H3, H4; try reflexivity;
    try (apply Qle_bool_iff; reflexivity);
    try (apply Qeq_bool_false_iff; reflexivity).
  repeat split.
Defined.

(** X18 on a machine in GoBack: first update, bumper set, and third
    update. *)
Lemma GoBackState_update_cases_witness :
  state (fst (snd (FiniteStateMachine_update sample_constants
                     ({| state := GoBack (GoBackState_init sample_constants) |},
                      sample_env true))))
  = GoBack {| gb_linear_speed := - (1 # 2); gb_time := inject_Z 1 * 1; gb_call_count := 1 |}
  /\ state (fst (snd (FiniteStateMachine_update sample_constants
                        ({| state := GoBack {| gb_linear_speed := - (1 # 2);
                                               gb_time := 2;
                                               gb_call_count := 2 |} |},
                         sample_env true))))
     = Rotate {| rt_time := 0;
                 rt_call_count := 0;
                 rt_random_angular_direction := -1 + (1 - -1) * (1 # 2);
                 rt_roomba_turning_time := None |}.
Proof.
  pose proof (GoBackState_update_cases sample_constants
                (GoBackState_init sample_constants) (sample_env true)) as H1.
  pose proof (GoBackState_update_cases sample_constants
                {| gb_linear_speed := - (1 # 2); gb_time := 2; gb_call_count := 2 |}
                (sample_env true)) as H2.
  cbv zeta in H1, H2.
  destruct H1 as (H1 & _). destruct H2 as (_ & H2).
  rewrite H1, H2; try reflexivity; try (apply Qle_bool_iff; reflexivity).
  repeat split.
Defined.

(** X19 on a machine in Rotate whose draw gives the duration 3: fourth
    update with the bumper clear, and with the bumper set. *)
Lemma RotateState_update_cases_witness :
  state (fst (snd (FiniteStateMachine_update sample_constants
                     ({| state := Rotate {| rt_time := 3;
                                            rt_call_count := 3;
                                            rt_random_angular_direction := 1 # 3;
                                            rt_roomba_turning_time := Some 3 |} |},
                      sample_env false))))
  = MoveForward (MoveForwardState_init sample_constants)
  /\ exists s,
      state (fst (snd (FiniteStateMachine_update sample_constants
                         ({| state := Rotate {| rt_time := 3;
                                                rt_call_count := 3;
                                                rt_random_angular_direction := 1 # 3;
                                                rt_roomba_turning_time := Some 3 |} |},
                          sample_env true))))
      = Rotate s.
Proof.
  pose proof (RotateState_update_cases sample_constants
                {| rt_time := 3; rt_call_count := 3;
                   rt_random_angular_direction := 1 # 3;
                   rt_roomba_turning_time := Some 3 |} (sample_env false)) as H1.
  pose proof (RotateState_update_cases sample_constants
                {| rt_time := 3; rt_call_count := 3;
                   rt_random_angular_direction := 1 # 3;
                   rt_roomba_turning_time := Some 3 |} (sample_env true)) as H2.
  cbv zeta in H1, H2.
  destruct H1 as (H1 & _). destruct H2 as (_ & H2).
  rewrite H1, H2; try reflexivity. split; [reflexivity|]. eexists; reflexivity.
Defined.

(** X22 with [GO_BACK_TIME] 2 and the sample period 1: two updates in
    GoBack, the third in Rotate. *)
Lemma GoBackState_dwell_witness :
  Qltb (GO_BACK_TIME sample_constants)
    (inject_Z (Z.of_nat (List.length [true; false])) * SAMPLE_TIME sample_constants)
  = false
  /\ Qltb (GO_BACK_TIME sample_constants)
       (inject_Z (Z.of_nat (S (List.length [true; false])))
        * SAMPLE_TIME sample_constants)
     = true
  /\ (exists s' e',
         run_updates sample_constants [true; false]
           ({| state := GoBack (GoBackState_init sample_constants) |}, sample_env false)
         = (Normal tt, ({| state := GoBack s' |}, e'))
         /\ gb_call_count s' = 2%Z)
  /\ (exists s'' e'',
         run_updates sample_constants ([true; false] ++ [true])
           ({| state := GoBack (GoBackState_init sample_constants) |}, sample_env false)
         = (Normal tt, ({| state := Rotate s'' |}, e''))).
Proof.
  destruct (GoBackState_dwell sample_constants (sample_env false) [true; false] true
              eq_refl eq_refl) as ((s' & e' & Hrun & Hc & _) & Hnext).
  split; [reflexivity|]. split; [reflexivity|]. split; [|exact Hnext].
  exists s', e'. auto.
Defined.

(** X23 with [MOVE_FORWARD_TIME] 5 and the sample period 1: five updates
    in MoveForward, the sixth in MoveInSpiral. *)
Lemma MoveForwardState_dwell_witness :
  Qltb (MOVE_FORWARD_TIME sample_constants)
    (inject_Z (Z.of_nat 5) * SAMPLE_TIME sample_constants) = false
  /\ Qltb (MOVE_FORWARD_TIME sample_constants)
       (inject_Z (Z.of_nat 6) * SAMPLE_TIME sample_constants) = true
  /\ (exists s' e',
         run_updates sample_constants (repeat false 5)
           ({| state := MoveForward (MoveForwardState_init sample_constants) |},
            sample_env false)
         = (Normal tt, ({| state := MoveForward s' |}, e'))
         /\ mf_call_count s' = 5%Z)
  /\ (exists s'',
         state (fst (snd (run_updates sample_constants (repeat false 5 ++ [false])
                            ({| state := MoveForward
                                           (MoveForwardState_init sample_constants) |},
                             sample_env false))))
         = MoveInSpiral s'').
Proof.
  destruct (MoveForwardState_dwell sample_constants (sample_env false) 5
              eq_refl eq_refl) as ((s' & e' & Hrun & Hc & _) & Hnext).
  split; [reflexivity|]. split; [reflexivity|]. split; [|exact Hnext].
  exists s', e'. auto.
Defined.

(** X24 on the second sequence of the Roomba tree, from a fresh start. *)
Lemma Roomba_recovery_sequence_never_succeeds_witness :
  children (sample_recover None) = [go_back_node; rotate_node]
  /\ fst (sample_sequence_execute 5
            (sample_recover None, sample_tick (world_entered false)))
     <> Normal (Some SUCCESS).
Proof.
  split; [reflexivity|].
  apply (Roomba_recovery_sequence_never_succeeds sample_constants 5
           (sample_recover None) (sample_tick (world_entered false))).
  reflexivity.
Defined.

(** X25 on the Roomba tree with Rotate past its duration, bumper set. *)
Lemma RoombaBehaviorTree_update_hangs_witness :
  (0 <= SAMPLE_TIME sample_constants)%Q
  /\ Rotate_stuck sample_constants
       (world (below (world (under (world sample_stuck_tree)))))
  /\ forall fuel,
      fst (RoombaBehaviorTree_update sample_constants fuel
             ({| root := Some tt |}, sample_stuck_tree))
      = OutOfFuel.
Proof.
  assert (HT : (0 <= SAMPLE_TIME sample_constants)%Q)
    by (apply Qle_bool_iff; reflexivity).
  split; [exact HT|]. split; [exact world_rotate_stuck_is_stuck|].
  intros fuel.
  apply (RoombaBehaviorTree_update_hangs sample_constants fuel
           {| root := Some tt |} sample_stuck_tree HT); try reflexivity.
  exact world_rotate_stuck_is_stuck.
Defined.

(** X26 and X27 on forward leaves that have run before being entered
    again. *)
Lemma MoveForwardNode_reenter_as_fresh_witness :
  MoveForwardNode.linear_speed (MoveForwardNode.mk (1 # 2) (Some 7%Z) (Some 7))
  = FORWARD_SPEED sample_constants
  /\ fst (run_ticks (MoveForwardNode.execute sample_constants) [false; false; false]
            (snd (MoveForwardNode.enter
                    (MoveForwardNode.mk (1 # 2) (Some 7%Z) (Some 7), sample_env false))))
     = fst (run_ticks (MoveForwardNode.execute sample_constants) [false; false; false]
              (snd (MoveForwardNode.enter
                      (MoveForwardNode.init sample_constants, sample_env false)))).
Proof.
  split; [reflexivity|].
  apply (MoveForwardNode_reenter_as_fresh sample_constants
           (MoveForwardNode.mk (1 # 2) (Some 7%Z) (Some 7)) (sample_env false)).
  reflexivity.
Defined.

Lemma MoveInSpiralNode_reenter_as_fresh_witness :
  MoveInSpiralNode.linear_speed
    (MoveInSpiralNode.mk 1 (1 # 2) (Some 7%Z) (Some 7) (Some (11 # 20)))
  = FORWARD_SPEED sample_constants
  /\ fst (run_ticks (MoveInSpiralNode.execute sample_constants) [false; true]
            (snd (MoveInSpiralNode.enter
                    (MoveInSpiralNode.mk 1 (1 # 2) (Some 7%Z) (Some 7) (Some (11 # 20)),
                     sample_env false))))
     = fst (run_ticks (MoveInSpiralNode.execute sample_constants) [false; true]
              (snd (MoveInSpiralNode.enter
                      (MoveInSpiralNode.init sample_constants, sample_env false)))).
Proof.
  split; [reflexivity|].
  apply (MoveInSpiralNode_reenter_as_fresh sample_constants
           (MoveInSpiralNode.mk 1 (1 # 2) (Some 7%Z) (Some 7) (Some (11 # 20)))
           (sample_env false)); reflexivity.
Defined.


